(** * Content Generation Service: the job pipeline of [server.js]

    A shallow embedding of the request handler [POST /research], of the
    background task [generateContent], of the two section generators with
    their text-to-payload extraction, and of [assemblePagesFromSections],
    followed by the properties of the specification that concern them.

    Modelling conventions.
    - JavaScript values are the inductive type [value].  A finite number
      is [VNum q] with [q] the exact value of a double (a rational, [Qc]);
      the other numbers are [VNaN] and the two infinities.  Every
      arithmetic operation and every decimal literal is rounded to the
      nearest double, a tie going to the even significand, and overflows
      to an infinity; a number is printed with the shortest digits that
      read back as the same double.  The two zeros are one: the program
      never divides by a number it has read, and both print as "0".
    - Converting a value to a string or to a primitive can throw: an
      object made by [JSON.parse] has no callable [toString] once a
      property of that name is its own.
    - An object is the list of its own properties in the order of their
      first assignment.  The program never enumerates an object, so the
      order in which the engine would list integer-like keys is not
      modelled.
    - Strings are [string]s of bytes, read as the UTF-8 form of the
      JavaScript string.
    - An exception is a record with the [name] and the [message] of the
      thrown [Error] object.
    - The record store, the clock, the text generation provider and the
      wording that the engine gives to its [SyntaxError]s are the fields
      of an environment [Env]; the tables and three logs are the state
      [World] that the code threads through its calls.
    - The update of the failure handler is built but never awaited, so
      whether the store receives it is not decided by the program: it is
      the parameter [sent] of the handler and of its background task. *)

From Stdlib Require Import String Ascii List ZArith QArith Qcanon Qround Qabs Bool Lia.
From Stdlib Require Import DecimalString.
Import ListNotations.

Local Open Scope string_scope.
Local Open Scope Z_scope.

(** ** Characters and strings *)

Definition dquote : ascii := "034"%char.
Definition squote : ascii := "039"%char.
Definition nl : string := String "010"%char "".

(** [dq s] is [s] with every single quote replaced by a double quote: the
    way the texts of the program that contain double quotes are written
    down below. *)
Fixpoint dq (s : string) : string :=
  match s with
  | "" => ""
  | String c r => String (if Ascii.eqb c squote then dquote else c) (dq r)
  end.

Fixpoint concat_all (l : list string) : string :=
  match l with
  | [] => ""
  | s :: r => s ++ concat_all r
  end.

Fixpoint repeat_string (n : nat) (s : string) : string :=
  match n with
  | O => ""
  | S k => s ++ repeat_string k s
  end.

(** [s.slice(0, n)] and [s.slice(n)] *)
Fixpoint take_string (n : nat) (s : string) : string :=
  match n, s with
  | S k, String c r => String c (take_string k r)
  | _, _ => ""
  end.

Fixpoint drop_string (n : nat) (s : string) : string :=
  match n, s with
  | S k, String _ r => drop_string k r
  | _, _ => s
  end.

(** ** JavaScript values *)

(** A finite number is [VNum q], with [q] its exact value, a rational that
    binary64 represents; the two zeros are one [VNum 0]. *)
#[warnings="-register-all"]
Inductive value : Type :=
| VUndefined
| VNull
| VBool (b : bool)
| VNum (q : Qc)
| VNaN
| VInfinity (negative : bool)
| VStr (s : string)
| VArr (elems : list value)
| VObj (props : list (string * value)).

(** Exceptions: the [name] and [message] of the thrown object. *)
Record exn : Type := mkExn { name : string; message : string }.

Inductive outcome (A : Type) : Type :=
| Return (a : A)
| Throw (e : exn).
Arguments Return {A} a.
Arguments Throw {A} e.

Definition TypeError (m : string) : exn := mkExn "TypeError" m.
Definition SyntaxError (m : string) : exn := mkExn "SyntaxError" m.
Definition Error (m : string) : exn := mkExn "Error" m.

(** ToBoolean *)
Definition truthy (v : value) : bool :=
  match v with
  | VUndefined | VNull | VNaN => false
  | VBool b => b
  | VNum q => negb (Qeq_bool q 0)
  | VInfinity _ => true
  | VStr s => negb (String.eqb s "")
  | VArr _ | VObj _ => true
  end.

(** [a || b] *)
Definition js_or (a b : value) : value := if truthy a then a else b.

(** Own properties of an object, in the order of their first assignment. *)
Fixpoint own_prop (o : list (string * value)) (k : string) : option value :=
  match o with
  | [] => None
  | (k', v) :: r => if String.eqb k' k then Some v else own_prop r k
  end.

(** [o[k] = v]: an existing property keeps its place, a new one is added
    last. *)
Fixpoint set_prop (o : list (string * value)) (k : string) (v : value)
  : list (string * value) :=
  match o with
  | [] => [(k, v)]
  | (k', v') :: r =>
      if String.eqb k' k then (k', v) :: r else (k', v') :: set_prop r k v
  end.

(** [v.k] for the property names this program reads (section keys and
    payload fields, never [length], an index or a name of a built-in
    prototype): reading from [undefined] or [null] throws, any other value
    that does not own the property gives [undefined]. *)
Definition get_prop (v : value) (k : string) : outcome value :=
  match v with
  | VUndefined =>
      Throw (TypeError ("Cannot read properties of undefined (reading '" ++ k ++ "')"))
  | VNull =>
      Throw (TypeError ("Cannot read properties of null (reading '" ++ k ++ "')"))
  | VObj o => Return (match own_prop o k with Some x => x | None => VUndefined end)
  | _ => Return VUndefined
  end.

(** [v?.k] *)
Definition opt_get (v : value) (k : string) : value :=
  match v with
  | VObj o => match own_prop o k with Some x => x | None => VUndefined end
  | _ => VUndefined
  end.

(** *** Numbers: binary64

    The result of an arithmetic operation, and the number that a decimal
    literal denotes, is the exact result rounded to the nearest number
    with 53 significant bits and an exponent of at least -1074, a tie
    going to the even significand; from [2^1024] on it is an infinity. *)

Definition pow2 (e : Z) : Q :=
  if 0 <=? e then inject_Z (2 ^ e) else 1 # Z.to_pos (2 ^ (- e)).

Definition pow10 (e : Z) : Q :=
  if 0 <=? e then inject_Z (10 ^ e) else 1 # Z.to_pos (10 ^ (- e)).

(** The [e] with [2^e <= a < 2^(e+1)], for a positive [a]. *)
Definition binary_exponent (a : Q) : Z :=
  let e := Z.log2 (Qnum a) - Z.log2 (Zpos (Qden a)) in
  if Qle_bool (pow2 e) a then e else e - 1.

(** The integer nearest to [x], a tie going to the even one. *)
Definition round_half_even (x : Q) : Z :=
  let f := Qfloor x in
  match ((x - inject_Z f) ?= (1 # 2))%Q with
  | Lt => f
  | Gt => f + 1
  | Eq => if Z.even f then f else f + 1
  end.

(** The finite binary64 number nearest to [q]; [None] when [q] rounds to
    an infinity. *)
Definition nearest (q : Q) : option Qc :=
  if Qeq_bool q 0 then Some (Q2Qc 0)
  else
    let a := Qabs q in
    let e := Z.max (binary_exponent a - 52) (-1074) in
    let x := (inject_Z (round_half_even (a / pow2 e)) * pow2 e)%Q in
    if Qle_bool (pow2 1024) x then None
    else Some (Q2Qc (Qred (if Qle_bool 0 q then x else - x))).

(** The Number value for [q]. *)
Definition binary64 (q : Q) : value :=
  match nearest q with
  | Some x => VNum x
  | None => VInfinity (negb (Qle_bool 0 q))
  end.

(** The sum of two Number values. *)
Definition number_add (a b : value) : value :=
  match a, b with
  | VNum x, VNum y => binary64 (x + y)%Qc
  | VInfinity s, VInfinity t => if Bool.eqb s t then VInfinity s else VNaN
  | VInfinity s, VNum _ => VInfinity s
  | VNum _, VInfinity t => VInfinity t
  | _, _ => VNaN
  end.

(** The arithmetic of the progress values: operations on finite numbers
    whose results are finite, the operands being the constants of the
    program and the indices of its loops. *)
Definition finite64 (q : Q) : Qc :=
  match nearest q with
  | Some x => x
  | None => Q2Qc q
  end.

Definition plus64 (a b : Qc) : Qc := finite64 (a + b)%Qc.
Definition times64 (a b : Qc) : Qc := finite64 (a * b)%Qc.
Definition over64 (a b : Qc) : Qc := finite64 (a / b)%Qc.

(** *** Number to string

    [Number::toString] in radix 10 for a positive number [x]: the least
    number [k] of digits for which some decimal [s * 10^(n-k)], with [s]
    of [k] digits, denotes [x]; among these decimals the one nearest to
    [x]. *)

Definition digits_of (z : Z) : string := NilZero.string_of_int (Z.to_int z).

(** The [n] with [10^(n-1) <= a < 10^n], for a positive [a]. *)
Definition decimal_exponent (a : Q) : Z :=
  let g := Z.of_nat (String.length (digits_of (Qnum a)))
           - Z.of_nat (String.length (digits_of (Zpos (Qden a)))) in
  if Qle_bool (pow10 g) a then g + 1 else g.

(** Whether the decimal [s * 10^(n-k)] denotes [x]. *)
Definition reads_as (x : Qc) (s n k : Z) : bool :=
  match nearest (inject_Z s * pow10 (n - k)) with
  | Some y => Qc_eq_bool y x
  | None => false
  end.

(** The [k]-digit decimal that denotes [x], if there is one, as its
    digits [s] and its exponent [n]: one of the two [k]-digit decimals
    next to [x], the nearer when both denote it, the even one in a tie.
    [n0] is the decimal exponent of [x]; the decimal above [x] may have
    the next exponent. *)
Definition decimal_with (x : Qc) (n0 k : Z) : option (Z * Z) :=
  let scale := pow10 (n0 - k) in
  let lo := Qfloor (x / scale) in
  let hi := lo + 1 in
  let above := if hi =? 10 ^ k then (10 ^ (k - 1), n0 + 1) else (hi, n0) in
  match reads_as x lo n0 k, reads_as x (fst above) (snd above) k with
  | true, false => Some (lo, n0)
  | false, true => Some above
  | false, false => None
  | true, true =>
      match ((x - inject_Z lo * scale) ?= (inject_Z hi * scale - x))%Q with
      | Lt => Some (lo, n0)
      | Gt => Some above
      | Eq => if Z.even lo then Some (lo, n0) else Some above
      end
  end.

(** The shortest decimal that denotes [x], tried from [k] digits on;
    seventeen digits always suffice. *)
Fixpoint shortest (fuel : nat) (x : Qc) (n0 k : Z) : Z * Z :=
  match fuel with
  | O => (Qfloor (x / pow10 (n0 - k)), n0)
  | S f =>
      match decimal_with x n0 k with
      | Some r => r
      | None => shortest f x n0 (k + 1)
      end
  end.

(** The digits [s] written with the decimal point after the first [n] of
    them, or in exponent form. *)
Definition format_decimal (s n : Z) : string :=
  let ds := digits_of s in
  let k := Z.of_nat (String.length ds) in
  if (k <=? n) && (n <=? 21) then
    ds ++ repeat_string (Z.to_nat (n - k)) "0"
  else if (0 <? n) && (n <=? 21) then
    take_string (Z.to_nat n) ds ++ "." ++ drop_string (Z.to_nat n) ds
  else if (-6 <? n) && (n <=? 0) then
    "0." ++ repeat_string (Z.to_nat (- n)) "0" ++ ds
  else
    let x := n - 1 in
    let sign := if 0 <=? x then "+" else "-" in
    (if k =? 1 then ds else take_string 1 ds ++ "." ++ drop_string 1 ds)
      ++ "e" ++ sign ++ digits_of (Z.abs x).

Definition number_to_string (q : Qc) : string :=
  if Qeq_bool q 0 then "0"
  else
    let a := Q2Qc (Qabs q) in
    let '(s, n) := shortest 17 a (decimal_exponent a) 1 in
    (if Qle_bool 0 q then "" else "-") ++ format_decimal s n.

(** *** Conversions *)

(** What [ToPrimitive] and [ToString] throw for an object that has no
    callable [toString] or [valueOf]. *)
Definition cannot_convert : exn := TypeError "Cannot convert object to primitive value".

(** ToString.  An array is joined with commas, its [null] and [undefined]
    elements as empty strings.  An object inherits [toString] from
    [Object.prototype] and becomes "[object Object]", unless it has a
    property [toString] of its own: no value of this model is callable, so
    the conversion then finds no method and throws. *)
Fixpoint to_string (v : value) : outcome string :=
  match v with
  | VUndefined => Return "undefined"
  | VNull => Return "null"
  | VBool true => Return "true"
  | VBool false => Return "false"
  | VNum q => Return (number_to_string q)
  | VNaN => Return "NaN"
  | VInfinity negative => Return (if negative then "-Infinity" else "Infinity")
  | VStr s => Return s
  | VArr l =>
      (fix join (l : list value) : outcome string :=
         match l with
         | [] => Return ""
         | x :: r =>
             match match x with
                   | VUndefined | VNull => Return ""
                   | _ => to_string x
                   end with
             | Throw e => Throw e
             | Return sx =>
                 match r with
                 | [] => Return sx
                 | _ :: _ =>
                     match join r with
                     | Throw e => Throw e
                     | Return sr => Return (sx ++ "," ++ sr)
                     end
                 end
             end
         end) l
  | VObj o =>
      match own_prop o "toString" with
      | Some _ => Throw cannot_convert
      | None => Return "[object Object]"
      end
  end.

(** ToPrimitive, as [+] applies it.  The inherited [valueOf] of an array
    or an object returns the object itself and an own [valueOf] is not
    callable, so the conversion always ends with [toString]: arrays and
    objects become their strings, or throw as [to_string] does. *)
Definition to_primitive (v : value) : outcome value :=
  match v with
  | VArr _ | VObj _ =>
      match to_string v with
      | Return s => Return (VStr s)
      | Throw e => Throw e
      end
  | _ => Return v
  end.

(** ToString of a primitive. *)
Definition primitive_string (v : value) : string :=
  match to_string v with
  | Return s => s
  | Throw _ => ""
  end.

(** ToNumber of a primitive that is not a string. *)
Definition to_number (v : value) : value :=
  match v with
  | VNull => VNum (Q2Qc 0)
  | VBool true => VNum (Q2Qc 1)
  | VBool false => VNum (Q2Qc 0)
  | VNum q => VNum q
  | VInfinity negative => VInfinity negative
  | _ => VNaN
  end.

Definition is_string (v : value) : bool :=
  match v with VStr _ => true | _ => false end.

(** [a + b]: both operands are made primitive, the left one first; if one
    of them is then a string the result is the concatenation of their
    strings, otherwise the sum of their numbers. *)
Definition js_add (a b : value) : outcome value :=
  match to_primitive a with
  | Throw e => Throw e
  | Return pa =>
      match to_primitive b with
      | Throw e => Throw e
      | Return pb =>
          if is_string pa || is_string pb
          then Return (VStr (primitive_string pa ++ primitive_string pb))
          else Return (number_add (to_number pa) (to_number pb))
      end
  end.

(** [Math.round] of a finite number: the nearest integer, a tie going up. *)
Definition Math_round (x : Qc) : Z := Qfloor (x + Q2Qc (1 # 2))%Qc.

(** ** The pattern [/\{[\s\S]*\}/]

    [greedy_to_close s] is the match of [[\s\S]*\}] at the start of [s]:
    the star first takes as many characters as it can and gives them back
    one at a time until a closing brace follows. *)
Fixpoint greedy_to_close (s : string) : option string :=
  match s with
  | "" => None
  | String c r =>
      match greedy_to_close r with
      | Some m => Some (String c m)
      | None => if Ascii.eqb c "}" then Some "}" else None
      end
  end.

(** [text.match(/\{[\s\S]*\}/)]: the match at the leftmost position where
    one exists; [Some m] stands for the match array, [m] for its entry 0. *)
Fixpoint match_braces (text : string) : option string :=
  match text with
  | "" => None
  | String c r =>
      if Ascii.eqb c "{" then
        match greedy_to_close r with
        | Some m => Some (String "{" m)
        | None => match_braces r
        end
      else match_braces r
  end.

(** ** [JSON.parse]

    A recursive-descent reader of the JSON grammar (ECMA-404).  The three
    answers of a reader are a value with the unread rest, a syntax error,
    and running out of [fuel]; [JSON_parse] gives enough fuel for the last
    never to happen ([JSON_parse_fuel]).  The grammar itself follows the
    reader, as the relation [json_value]; [JSON_parse_spec] relates the two. *)

Inductive parsed (A : Type) : Type :=
| Parsed (a : A) (rest : string)
| Malformed
| OutOfFuel.
Arguments Parsed {A} a rest.
Arguments Malformed {A}.
Arguments OutOfFuel {A}.

Definition is_ws (c : ascii) : bool :=
  Ascii.eqb c " " || Ascii.eqb c "009" || Ascii.eqb c "010" || Ascii.eqb c "013".

Fixpoint skip_ws (s : string) : string :=
  match s with
  | String c r => if is_ws c then skip_ws r else s
  | "" => ""
  end.

Definition digit_val (c : ascii) : option Z :=
  let n := Z.of_nat (nat_of_ascii c) in
  if (48 <=? n) && (n <=? 57) then Some (n - 48) else None.

Definition hex_val (c : ascii) : option Z :=
  let n := Z.of_nat (nat_of_ascii c) in
  if (48 <=? n) && (n <=? 57) then Some (n - 48)
  else if (65 <=? n) && (n <=? 70) then Some (n - 55)
  else if (97 <=? n) && (n <=? 102) then Some (n - 87)
  else None.

(** The digits at the start of [s], as a number and a count, and the rest. *)
Fixpoint span_digits (s : string) (acc : Z) (count : Z) : Z * Z * string :=
  match s with
  | String c r =>
      match digit_val c with
      | Some d => span_digits r (10 * acc + d) (count + 1)
      | None => (acc, count, s)
      end
  | "" => (acc, count, "")
  end.

Definition byte_of (n : Z) : ascii := ascii_of_nat (Z.to_nat n).

(** UTF-8 form of a code point (a lone surrogate is written like any other
    three-byte code point). *)
Definition utf8 (cp : Z) : string :=
  if cp <? 128 then String (byte_of cp) ""
  else if cp <? 2048 then
    String (byte_of (192 + cp / 64)) (String (byte_of (128 + cp mod 64)) "")
  else if cp <? 65536 then
    String (byte_of (224 + cp / 4096))
      (String (byte_of (128 + (cp / 64) mod 64))
         (String (byte_of (128 + cp mod 64)) ""))
  else
    String (byte_of (240 + cp / 262144))
      (String (byte_of (128 + (cp / 4096) mod 64))
         (String (byte_of (128 + (cp / 64) mod 64))
            (String (byte_of (128 + cp mod 64)) ""))).

(** What a string literal is made of: bytes taken as they are, and UTF-16
    code units given by [\uXXXX] escapes. *)
Inductive str_item : Type :=
| Raw (c : ascii)
| Unit16 (u : Z).

Fixpoint encode_items (l : list str_item) : string :=
  match l with
  | [] => ""
  | Raw c :: r => String c (encode_items r)
  | Unit16 hi :: r =>
      match r with
      | Unit16 lo :: r' =>
          if (55296 <=? hi) && (hi <? 56320) && (56320 <=? lo) && (lo <? 57344)
          then utf8 (65536 + (hi - 55296) * 1024 + (lo - 56320)) ++ encode_items r'
          else utf8 hi ++ encode_items r
      | _ => utf8 hi ++ encode_items r
      end
  end.

(** [expect c s]: what follows [c] at the start of [s];
    [strip_prefix p s]: what follows the word [p] at the start of [s]. *)
Definition expect (c : ascii) (s : string) : option string :=
  match s with
  | String a r => if Ascii.eqb a c then Some r else None
  | "" => None
  end.

Fixpoint strip_prefix (p s : string) : option string :=
  match p with
  | "" => Some s
  | String a p' =>
      match s with
      | String b s' => if Ascii.eqb a b then strip_prefix p' s' else None
      | "" => None
      end
  end.

(** The character that a two-character escape stands for. *)
Definition simple_escape (e : ascii) : option ascii :=
  if Ascii.eqb e dquote then Some dquote
  else if Ascii.eqb e "\" then Some "\"%char
  else if Ascii.eqb e "/" then Some "/"%char
  else if Ascii.eqb e "b" then Some "008"%char
  else if Ascii.eqb e "f" then Some "012"%char
  else if Ascii.eqb e "n" then Some "010"%char
  else if Ascii.eqb e "r" then Some "013"%char
  else if Ascii.eqb e "t" then Some "009"%char
  else None.

Definition hex4 (a b c d : ascii) : option Z :=
  match hex_val a, hex_val b, hex_val c, hex_val d with
  | Some x, Some y, Some z, Some w => Some (((x * 16 + y) * 16 + z) * 16 + w)
  | _, _, _, _ => None
  end.

Definition cons_item (i : option str_item) (r : option (list str_item * string))
  : option (list str_item * string) :=
  match i, r with
  | Some x, Some (l, rest) => Some (x :: l, rest)
  | _, _ => None
  end.

(** The characters of a string literal after its opening quote, up to the
    closing quote: no control character, a backslash only as the start of
    an escape. *)
Fixpoint string_items (s : string) : option (list str_item * string) :=
  match s with
  | "" => None
  | String c r =>
      if Ascii.eqb c dquote then Some ([], r)
      else if Ascii.eqb c "\" then
        match r with
        | "" => None
        | String e r1 =>
            if Ascii.eqb e "u" then
              match r1 with
              | String x (String y (String z (String w r2))) =>
                  cons_item (option_map Unit16 (hex4 x y z w)) (string_items r2)
              | _ => None
              end
            else cons_item (option_map Raw (simple_escape e)) (string_items r1)
        end
      else if (nat_of_ascii c <? 32)%nat then None
      else cons_item (Some (Raw c)) (string_items r)
  end.

Definition parse_string_body (s : string) : option (string * string) :=
  match string_items s with
  | Some (l, rest) => Some (encode_items l, rest)
  | None => None
  end.

(** The Number value for the decimal [m * 10^e]. *)
Definition decimal_value (m e : Z) : value := binary64 (inject_Z m * pow10 e).

(** The digits at the start of [s], at least one. *)
Definition some_digits (s : string) (acc : Z) : option (Z * Z * string) :=
  let '(m, n, r) := span_digits s acc 0 in
  if n =? 0 then None else Some (m, n, r).

(** A JSON number: an optional minus sign, an integer part without a
    leading zero (or a zero alone), an optional fraction, an optional
    exponent.  The readers of the parts give what they read and the
    rest: the digits read so far as a number, the count of the digits of
    the fraction, the value of the exponent. *)
Definition optional_minus (s : string) : bool * string :=
  match expect "-" s with
  | Some r => (true, r)
  | None => (false, s)
  end.

Definition read_integer (s : string) : option (Z * string) :=
  match expect "0" s with
  | Some r => Some (0, r)
  | None =>
      match some_digits s 0 with
      | Some (m, _, r) => Some (m, r)
      | None => None
      end
  end.

Definition read_fraction (m : Z) (s : string) : option (Z * Z * string) :=
  match expect "." s with
  | Some r => some_digits r m
  | None => Some (m, 0, s)
  end.

Definition read_exponent (s : string) : option (Z * string) :=
  match (match expect "e" s with Some r => Some r | None => expect "E" s end) with
  | Some r =>
      let '(eneg, r1) :=
        match expect "-" r with
        | Some r0 => (true, r0)
        | None =>
            match expect "+" r with
            | Some r0 => (false, r0)
            | None => (false, r)
            end
        end in
      match some_digits r1 0 with
      | Some (x, _, r2) => Some ((if eneg then - x else x), r2)
      | None => None
      end
  | None => Some (0, s)
  end.

Definition parse_number (s : string) : option (value * string) :=
  let '(neg, s1) := optional_minus s in
  match read_integer s1 with
  | None => None
  | Some (m, s2) =>
      match read_fraction m s2 with
      | None => None
      | Some (m', nf, s3) =>
          match read_exponent s3 with
          | None => None
          | Some (x, s4) =>
              Some (decimal_value (if neg then - m' else m') (x - nf), s4)
          end
      end
  end.

(** A value, after optional white space; then the members of an object
    from its first key on, and the elements of an array from its first
    element on, each with the properties or elements read so far. *)
Fixpoint parse_value (fuel : nat) (s : string) : parsed value :=
  match fuel with
  | O => OutOfFuel
  | S f =>
      let s0 := skip_ws s in
      match expect "{" s0 with
      | Some r =>
          match expect "}" (skip_ws r) with
          | Some r' => Parsed (VObj []) r'
          | None => parse_members f (skip_ws r) []
          end
      | None =>
      match expect "[" s0 with
      | Some r =>
          match expect "]" (skip_ws r) with
          | Some r' => Parsed (VArr []) r'
          | None => parse_elements f (skip_ws r) []
          end
      | None =>
      match expect dquote s0 with
      | Some r =>
          match parse_string_body r with
          | Some (str, r') => Parsed (VStr str) r'
          | None => Malformed
          end
      | None =>
      match strip_prefix "true" s0 with
      | Some r => Parsed (VBool true) r
      | None =>
      match strip_prefix "false" s0 with
      | Some r => Parsed (VBool false) r
      | None =>
      match strip_prefix "null" s0 with
      | Some r => Parsed VNull r
      | None =>
      match parse_number s0 with
      | Some (x, r) => Parsed x r
      | None => Malformed
      end end end end end end end
  end

with parse_members (fuel : nat) (s : string) (acc : list (string * value))
  : parsed value :=
  match fuel with
  | O => OutOfFuel
  | S f =>
      match expect dquote s with
      | Some r =>
          match parse_string_body r with
          | Some (k, r1) =>
              match expect ":" (skip_ws r1) with
              | Some r2 =>
                  match parse_value f r2 with
                  | Parsed v r3 =>
                      match expect "," (skip_ws r3) with
                      | Some r4 => parse_members f (skip_ws r4) (set_prop acc k v)
                      | None =>
                          match expect "}" (skip_ws r3) with
                          | Some r4 => Parsed (VObj (set_prop acc k v)) r4
                          | None => Malformed
                          end
                      end
                  | Malformed => Malformed
                  | OutOfFuel => OutOfFuel
                  end
              | None => Malformed
              end
          | None => Malformed
          end
      | None => Malformed
      end
  end

with parse_elements (fuel : nat) (s : string) (acc : list value) : parsed value :=
  match fuel with
  | O => OutOfFuel
  | S f =>
      match parse_value f s with
      | Parsed v r1 =>
          match expect "," (skip_ws r1) with
          | Some r2 => parse_elements f r2 (acc ++ [v])
          | None =>
              match expect "]" (skip_ws r1) with
              | Some r2 => Parsed (VArr (acc ++ [v])) r2
              | None => Malformed
              end
          end
      | Malformed => Malformed
      | OutOfFuel => OutOfFuel
      end
  end.

(** [JSON.parse(text)]: one value, white space around it, nothing else.
    The message of the [SyntaxError] is the engine's own wording for the
    text, [wording text]. *)
Definition JSON_parse (wording : string -> string) (text : string) : outcome value :=
  match parse_value (2 * String.length text + 1) text with
  | Parsed v rest =>
      match skip_ws rest with
      | "" => Return v
      | _ => Throw (SyntaxError (wording text))
      end
  | _ => Throw (SyntaxError (wording text))
  end.

(** *** The grammar

    [json_value t v]: the text [t], without white space around it, is a JSON
    value and denotes [v]. *)

Inductive blank : string -> Prop :=
| blank_nil : blank ""
| blank_cons (c : ascii) (s : string) : is_ws c = true -> blank s -> blank (String c s).

(** One or more decimal digits. *)
Inductive digits : string -> Prop :=
| digits_one (c : ascii) (d : Z) : digit_val c = Some d -> digits (String c "")
| digits_more (c : ascii) (d : Z) (s : string) :
    digit_val c = Some d -> digits s -> digits (String c s).

(** The number that the digits [s] denote after the digits of [acc]. *)
Fixpoint digits_value (s : string) (acc : Z) : Z :=
  match s with
  | "" => acc
  | String c r =>
      match digit_val c with
      | Some d => digits_value r (10 * acc + d)
      | None => acc
      end
  end.

(** The integer part: a zero alone, or digits that do not start with a
    zero. *)
Inductive integer_part : string -> Prop :=
| integer_zero : integer_part "0"
| integer_digits (s : string) : digits s -> expect "0" s = None -> integer_part s.

(** The fraction, with its digits: nothing, or a point and digits. *)
Inductive fraction_part : string -> string -> Prop :=
| fraction_none : fraction_part "" ""
| fraction_some (s : string) : digits s -> fraction_part (String "." s) s.

(** The exponent, with its value: nothing, or [e] or [E], an optional
    sign, and digits. *)
Inductive exponent_part : string -> Z -> Prop :=
| exponent_none : exponent_part "" 0
| exponent_some (e : ascii) (sign s : string) :
    e = "e"%char \/ e = "E"%char ->
    sign = "" \/ sign = "+" \/ sign = "-" ->
    digits s ->
    exponent_part (String e (sign ++ s))
      (if String.eqb sign "-" then - digits_value s 0 else digits_value s 0).

Inductive json_number : string -> value -> Prop :=
| json_number_intro (minus int frac fraction expo : string) (x : Z) :
    minus = "" \/ minus = "-" ->
    integer_part int ->
    fraction_part frac fraction ->
    exponent_part expo x ->
    json_number (minus ++ int ++ frac ++ expo)
      (decimal_value
         (if String.eqb minus "-" then - digits_value (int ++ fraction) 0
          else digits_value (int ++ fraction) 0)
         (x - Z.of_nat (String.length fraction))).

(** The characters between the quotes of a string literal. *)
Inductive json_chars : string -> list str_item -> Prop :=
| chars_nil : json_chars "" []
| chars_raw (c : ascii) (s : string) (l : list str_item) :
    Ascii.eqb c dquote = false -> Ascii.eqb c "\" = false ->
    (nat_of_ascii c <? 32)%nat = false ->
    json_chars s l -> json_chars (String c s) (Raw c :: l)
| chars_escape (e c : ascii) (s : string) (l : list str_item) :
    Ascii.eqb e "u" = false -> simple_escape e = Some c ->
    json_chars s l -> json_chars (String "\" (String e s)) (Raw c :: l)
| chars_unicode (x y z w : ascii) (u : Z) (s : string) (l : list str_item) :
    hex4 x y z w = Some u ->
    json_chars s l ->
    json_chars (String "\" (String "u" (String x (String y (String z (String w s))))))
      (Unit16 u :: l).

(** Values; elements, which are values with white space around them; the
    elements of an array, separated by commas; and the members of an
    object, separated by commas, with the properties that the members
    read before them have made.  A key that occurs again replaces the
    value of the property and keeps its place. *)
Inductive json_value : string -> value -> Prop :=
| json_null : json_value "null" VNull
| json_true : json_value "true" (VBool true)
| json_false : json_value "false" (VBool false)
| json_num (t : string) (x : value) : json_number t x -> json_value t x
| json_str (t : string) (l : list str_item) :
    json_chars t l ->
    json_value (String dquote (t ++ String dquote "")) (VStr (encode_items l))
| json_empty_array (w : string) : blank w -> json_value ("[" ++ w ++ "]") (VArr [])
| json_array (t : string) (l : list value) :
    json_elements t [] l -> json_value ("[" ++ t ++ "]") (VArr l)
| json_empty_object (w : string) : blank w -> json_value ("{" ++ w ++ "}") (VObj [])
| json_object (t : string) (o : list (string * value)) :
    json_members t [] o -> json_value ("{" ++ t ++ "}") (VObj o)

with json_element : string -> value -> Prop :=
| json_element_intro (w t w' : string) (v : value) :
    blank w -> json_value t v -> blank w' -> json_element (w ++ t ++ w') v

with json_elements : string -> list value -> list value -> Prop :=
| json_elements_last (t : string) (v : value) (acc : list value) :
    json_element t v -> json_elements t acc (acc ++ [v])
| json_elements_more (t t' : string) (v : value) (acc l : list value) :
    json_element t v ->
    json_elements t' (acc ++ [v]) l ->
    json_elements (t ++ "," ++ t') acc l

with json_members : string -> list (string * value) -> list (string * value) -> Prop :=
| json_members_last (w k w' t : string) (items : list str_item) (v : value)
    (acc : list (string * value)) :
    blank w -> json_chars k items -> blank w' -> json_element t v ->
    json_members (w ++ String dquote (k ++ String dquote (w' ++ ":" ++ t))) acc
      (set_prop acc (encode_items items) v)
| json_members_more (w k w' t t' : string) (items : list str_item) (v : value)
    (acc o : list (string * value)) :
    blank w -> json_chars k items -> blank w' -> json_element t v ->
    json_members t' (set_prop acc (encode_items items) v) o ->
    json_members (w ++ String dquote (k ++ String dquote (w' ++ ":" ++ t ++ "," ++ t')))
      acc o.

(** A JSON text: one value with white space around it. *)
Definition json_text (t : string) (v : value) : Prop := json_element t v.

(** ** Data model *)

Module City.
Record t : Type := {
  id : value;
  city : string;
  state_code : string }.
End City.

Module Page.
Record t : Type := {
  type : string;
  neighborhoodName : option string;
  title : string;
  metaDescription : string;
  h1 : string;
  content : value;
  wordCount : value;
  generatedAt : string }.
End Page.

(** The [results_json] column: [{ sections }] at creation,
    [{ pages, sections }] at completion. *)
Record Results : Type := {
  pages : option (list Page.t);
  sections : value }.

Module Job.
Record t : Type := {
  id : nat;
  city_id : value;
  status : string;
  progress : Z;
  current_step : string;
  started_at : string;
  completed_at : option string;
  error_message : option string;
  results_json : Results }.
End Job.

(** The object given to [update]: the columns it names. *)
Record Patch : Type := {
  set_status : option string;
  set_progress : option Z;
  set_current_step : option string;
  set_completed_at : option string;
  set_error_message : option string;
  set_results_json : option Results }.

Definition or_keep {A : Type} (new : option A) (old : A) : A :=
  match new with
  | Some x => x
  | None => old
  end.

Definition or_keep_opt {A : Type} (new : option A) (old : option A) : option A :=
  match new with
  | Some x => Some x
  | None => old
  end.

Definition apply_patch (p : Patch) (j : Job.t) : Job.t :=
  {| Job.id := Job.id j;
     Job.city_id := Job.city_id j;
     Job.status := or_keep (set_status p) (Job.status j);
     Job.progress := or_keep (set_progress p) (Job.progress j);
     Job.current_step := or_keep (set_current_step p) (Job.current_step j);
     Job.started_at := Job.started_at j;
     Job.completed_at := or_keep_opt (set_completed_at p) (Job.completed_at j);
     Job.error_message := or_keep_opt (set_error_message p) (Job.error_message j);
     Job.results_json := or_keep (set_results_json p) (Job.results_json j) |}.

(** [update(p).eq('id', jobId)] on the rows of [research_jobs]. *)
Definition update_eq_id (rows : list Job.t) (p : Patch) (jobId : nat) : list Job.t :=
  map (fun j => if Nat.eqb (Job.id j) jobId then apply_patch p j else j) rows.

Fixpoint find_job (rows : list Job.t) (jobId : nat) : option Job.t :=
  match rows with
  | [] => None
  | j :: r => if Nat.eqb (Job.id j) jobId then Some j else find_job r jobId
  end.

(** ** The collaborators and the state *)

Module Block.
Record t : Type := { type : string; text : string }.
End Block.

(** What [prompts[section]] is: the prompt that the table has for the
    key; for a key that the table lacks but every object inherits from
    [Object.prototype], that built-in function or object; [undefined] for
    any other key. *)
Inductive prompt : Type :=
| Prompt (text : string)
| Inherited (key : string)
| NoPrompt.

Record Request : Type := {
  model : string;
  max_tokens : Z;
  temperature : Qc;
  messages : list (string * prompt) }.

(** - [now k]: what the [k]-th reading of the clock gives as
      [new Date().toISOString()];
    - [create_message k req]: the answer of the provider to its [k]-th
      call, the [content] blocks of a response or a rejection;
    - [select_city cityId]: the [data] and the [error] of
      [from('cities').select('*').eq('id', cityId).single()];
    - [insert_error n]: the [error] of the insert into a table of [n]
      rows;
    - [syntax_error text]: the message of the [SyntaxError] that
      [JSON.parse] throws for [text].
    An update that the program awaits is applied by the store: the code
    never looks at its result. *)
Record Env : Type := {
  now : nat -> string;
  create_message : nat -> Request -> outcome (list Block.t);
  select_city : value -> option City.t * option string;
  insert_error : nat -> option string;
  syntax_error : string -> string }.

(** The table, the number of clock readings so far, and two logs: the
    requests sent to the provider and the calls of [updateProgress], both
    oldest first. *)
Record World : Type := {
  research_jobs : list Job.t;
  clock : nat;
  requests : list Request;
  reported : list (Qc * string) }.

Definition M (A : Type) : Type := Env -> World -> outcome A * World.

Definition ret {A : Type} (a : A) : M A := fun _ w => (Return a, w).

Definition throw {A : Type} (e : exn) : M A := fun _ w => (Throw e, w).

Definition lift {A : Type} (o : outcome A) : M A := fun _ w => (o, w).

Definition bind {A B : Type} (m : M A) (k : A -> M B) : M B :=
  fun env w =>
    match m env w with
    | (Return a, w') => k a env w'
    | (Throw e, w') => (Throw e, w')
    end.

Notation "x <- m ;; k" := (bind m (fun x => k))
  (at level 61, m at next level, right associativity).
Notation "m ;;; k" := (bind m (fun _ => k))
  (at level 61, right associativity).

(** [try { m } catch (e) { h e }] and [p.catch(h)] *)
Definition try_catch {A : Type} (m : M A) (h : exn -> M A) : M A :=
  fun env w =>
    match m env w with
    | (Return a, w') => (Return a, w')
    | (Throw e, w') => h e env w'
    end.

Fixpoint mapM {A B : Type} (f : A -> M B) (l : list A) : M (list B) :=
  match l with
  | [] => ret []
  | x :: r => y <- f x ;; ys <- mapM f r ;; ret (y :: ys)
  end.

(** [new Date().toISOString()] *)
Definition new_Date_toISOString : M string :=
  fun env w =>
    (Return (now env (clock w)),
     {| research_jobs := research_jobs w;
        clock := S (clock w);
        requests := requests w;
        reported := reported w |}).

(** [supabase.from('research_jobs').update(p).eq('id', jobId)] *)
Definition update_research_jobs (p : Patch) (jobId : nat) : M unit :=
  fun _ w =>
    (Return tt,
     {| research_jobs := update_eq_id (research_jobs w) p jobId;
        clock := clock w;
        requests := requests w;
        reported := reported w |}).

(** [anthropic.messages.create(req)] *)
Definition anthropic_messages_create (req : Request) : M (list Block.t) :=
  fun env w =>
    (create_message env (List.length (requests w)) req,
     {| research_jobs := research_jobs w;
        clock := clock w;
        requests := requests w ++ [req];
        reported := reported w |}).

(** ** Section generators *)

Definition join_lines (l : list string) : string :=
  match l with
  | [] => ""
  | x :: r => x ++ concat_all (map (fun y => nl ++ y) r)
  end.

(** The names of the properties of [Object.prototype]. *)
Definition Object_prototype : list string :=
  ["constructor"; "__defineGetter__"; "__defineSetter__"; "hasOwnProperty";
   "__lookupGetter__"; "__lookupSetter__"; "isPrototypeOf"; "propertyIsEnumerable";
   "toString"; "valueOf"; "__proto__"; "toLocaleString"].

Fixpoint own_text (o : list (string * string)) (k : string) : option string :=
  match o with
  | [] => None
  | (k', v) :: r => if String.eqb k' k then Some v else own_text r k
  end.

(** [prompts[section]] *)
Definition lookup (o : list (string * string)) (k : string) : prompt :=
  match own_text o k with
  | Some text => Prompt text
  | None => if existsb (String.eqb k) Object_prototype then Inherited k else NoPrompt
  end.

(** The last four lines of both generators: the text of the first content
    block, the span that the pattern matches in it, and its parse. *)
Definition extract_payload (wording : string -> string) (content : list Block.t)
  : outcome value :=
  match content with
  | [] => Throw (TypeError "Cannot read properties of undefined (reading 'type')")
  | block :: _ =>
      let contentText :=
        if String.eqb (Block.type block) "text" then Block.text block else "" in
      match match_braces contentText with
      | None => Throw (Error "No JSON in response")
      | Some jsonMatch => JSON_parse wording jsonMatch
      end
  end.

(** The [prompts] object of [generateMainSection]. *)
Definition main_prompts (city : City.t) : list (string * string) :=
  let cityName := City.city city in
  let state := City.state_code city in
  [
   ("hero_services", (join_lines
      ["Write EXACTLY 1,200 words for a dumpster rental landing page in " ++ cityName ++ ", " ++ state ++ ".";
       "";
       "Include:";
       "1. Compelling hero section (3 paragraphs) emphasizing local expertise";
       "2. Comprehensive service breakdown (5-6 paragraphs): residential, commercial, construction, roofing, renovation, special waste";
       "";
       "Return ONLY valid JSON:";
       dq "{'content': 'the full 1,200 word text', 'wordCount': 1200}"]));
   ("areas_whychoose", (join_lines
      ["Write EXACTLY 1,000 words about service areas and value proposition for " ++ cityName ++ ", " ++ state ++ ".";
       "";
       "Include:";
       "1. Service Areas (2-3 paragraphs): List 4-6 real neighborhoods in " ++ cityName;
       "2. Why Choose Us (3-4 paragraphs): local knowledge, fast delivery, transparent pricing, professional service";
       "";
       "Return ONLY valid JSON:";
       dq "{'content': 'the full 1,000 word text', 'neighborhoods': ['Area1', 'Area2', 'Area3', 'Area4', 'Area5', 'Area6'], 'wordCount': 1000}"]));
   ("pricing_process", (join_lines
      ["Write EXACTLY 700 words about pricing and process for " ++ cityName ++ ", " ++ state ++ ".";
       "";
       "Include pricing guide (2 paragraphs) and how it works (3 paragraphs).";
       "";
       "Return ONLY valid JSON:";
       dq "{'content': 'the full 700 word text', 'wordCount': 700}"]));
   ("faqs_part1", (join_lines
      ["Write EXACTLY 10 FAQs with detailed answers (total 1,000 words) for " ++ cityName ++ ", " ++ state ++ ".";
       "";
       "Topics: cost, permits, regulations, rental duration, pricing, fees, sizes, delivery speed, extensions, discounts";
       "";
       "Each answer 80-120 words.";
       "";
       "Return ONLY valid JSON:";
       dq "{'faqs': [{'question': '...', 'answer': '...'}], 'wordCount': 1000}"]));
   ("faqs_part2", (join_lines
      ["Write EXACTLY 10 FAQs with detailed answers (total 1,000 words) for " ++ cityName ++ ", " ++ state ++ ".";
       "";
       "Topics: accepted items, prohibited items, weight limits, street placement, size selection, dumpster differences, neighborhood delivery, booking, date changes, waste hauling";
       "";
       "Return ONLY valid JSON:";
       dq "{'faqs': [{'question': '...', 'answer': '...'}], 'wordCount': 1000}"]));
   ("testimonials_cta", (join_lines
      ["Write EXACTLY 500 words for closing section of " ++ cityName ++ ", " ++ state ++ " dumpster rental page.";
       "";
       "Include testimonials section and final CTA.";
       "";
       "Return ONLY valid JSON:";
       dq "{'content': 'the full 500 word text', 'wordCount': 500}"]))
  ].

(** The number that the literal [0.7] denotes. *)
Definition sampling_temperature : Qc := finite64 (7 # 10).

(** The argument of [anthropic.messages.create] in [generateMainSection]. *)
Definition main_request (city : City.t) (section : string) (maxTokens : Z) : Request :=
  {| model := "claude-sonnet-4-20250514";
     max_tokens := maxTokens;
     temperature := sampling_temperature;
     messages := [("user", lookup (main_prompts city) section)] |}.

Definition generateMainSection (city : City.t) (section : string) (maxTokens : Z)
  : M value :=
  response <- anthropic_messages_create (main_request city section maxTokens) ;;
  fun env => lift (extract_payload (syntax_error env) response) env.

(** The [prompts] object of [generateNeighborhoodSection]. *)
Definition neighborhood_prompts (city : City.t) (neighborhood : string)
  : list (string * string) :=
  let cityName := City.city city in
  let state := City.state_code city in
  [
   ("intro_projects", (join_lines
      ["Write EXACTLY 800 words introducing dumpster rental in " ++ neighborhood ++ ", " ++ cityName ++ ", " ++ state ++ ".";
       "";
       "Return ONLY valid JSON:";
       dq "{'content': 'the full 800 word text', 'wordCount': 800}"]));
   ("service_details", (join_lines
      ["Write EXACTLY 600 words about service details for " ++ neighborhood ++ ", " ++ cityName ++ ", " ++ state ++ ".";
       "";
       "Return ONLY valid JSON:";
       dq "{'content': 'the full 600 word text', 'wordCount': 600}"]));
   ("faqs_cta", (join_lines
      ["Write EXACTLY 10 FAQs (total 700 words) + CTA (100 words) for " ++ neighborhood ++ ", " ++ cityName ++ ", " ++ state ++ ".";
       "";
       "Return ONLY valid JSON:";
       dq "{'faqs': [{'question': '...', 'answer': '...'}], 'cta': 'cta text', 'wordCount': 800}"]))
  ].

(** The argument of [anthropic.messages.create] in
    [generateNeighborhoodSection]. *)
Definition neighborhood_request
  (city : City.t) (neighborhood : string) (section : string) (maxTokens : Z)
  : Request :=
  {| model := "claude-sonnet-4-20250514";
     max_tokens := maxTokens;
     temperature := sampling_temperature;
     messages := [("user", lookup (neighborhood_prompts city neighborhood) section)] |}.

Definition generateNeighborhoodSection
  (city : City.t) (neighborhood : string) (section : string) (maxTokens : Z)
  : M value :=
  response <- anthropic_messages_create
                (neighborhood_request city neighborhood section maxTokens) ;;
  fun env => lift (extract_payload (syntax_error env) response) env.

(** ** [assemblePagesFromSections] *)

(** [v[k] = x]: on [undefined] and [null] it throws; the program assigns
    only into objects, and a property set on any other value is dropped. *)
Definition set_member (v : value) (k : string) (x : value) : outcome value :=
  match v with
  | VUndefined =>
      Throw (TypeError ("Cannot set properties of undefined (setting '" ++ k ++ "')"))
  | VNull =>
      Throw (TypeError ("Cannot set properties of null (setting '" ++ k ++ "')"))
  | VObj o => Return (VObj (set_prop o k x))
  | _ => Return v
  end.

(** [o.section?.field] *)
Definition section_field (o : value) (section field : string) : outcome value :=
  match get_prop o section with
  | Return s => Return (opt_get s field)
  | Throw e => Throw e
  end.

Definition num (z : Z) : Qc := Q2Qc (inject_Z z).

Definition mainPage (city : City.t) (sections : value) : M Page.t :=
  main <- lift (get_prop sections "main") ;;
  let mainSections := js_or main (VObj []) in
  heroServices <- lift (section_field mainSections "hero_services" "content") ;;
  areasWhyChoose <- lift (section_field mainSections "areas_whychoose" "content") ;;
  neighborhoods <- lift (section_field mainSections "areas_whychoose" "neighborhoods") ;;
  pricingProcess <- lift (section_field mainSections "pricing_process" "content") ;;
  faqsPart1 <- lift (section_field mainSections "faqs_part1" "faqs") ;;
  faqsPart2 <- lift (section_field mainSections "faqs_part2" "faqs") ;;
  testimonialsCta <- lift (section_field mainSections "testimonials_cta" "content") ;;
  wc1 <- lift (section_field mainSections "hero_services" "wordCount") ;;
  wc2 <- lift (section_field mainSections "areas_whychoose" "wordCount") ;;
  wc3 <- lift (section_field mainSections "pricing_process" "wordCount") ;;
  wc4 <- lift (section_field mainSections "faqs_part1" "wordCount") ;;
  wc5 <- lift (section_field mainSections "faqs_part2" "wordCount") ;;
  wc6 <- lift (section_field mainSections "testimonials_cta" "wordCount") ;;
  sum2 <- lift (js_add (js_or wc1 (VNum (num 0))) (js_or wc2 (VNum (num 0)))) ;;
  sum3 <- lift (js_add sum2 (js_or wc3 (VNum (num 0)))) ;;
  sum4 <- lift (js_add sum3 (js_or wc4 (VNum (num 0)))) ;;
  sum5 <- lift (js_add sum4 (js_or wc5 (VNum (num 0)))) ;;
  wordCount <- lift (js_add sum5 (js_or wc6 (VNum (num 0)))) ;;
  generatedAt <- new_Date_toISOString ;;
  ret {| Page.type := "main";
         Page.neighborhoodName := None;
         Page.title :=
           "Dumpster Rental in " ++ City.city city ++ ", " ++ City.state_code city
             ++ " - Affordable Roll-Off Rentals";
         Page.metaDescription :=
           "Professional dumpster rental in " ++ City.city city ++ ", "
             ++ City.state_code city ++ ". Fast delivery, transparent pricing.";
         Page.h1 :=
           "Dumpster Rental in " ++ City.city city ++ ", " ++ City.state_code city;
         Page.content :=
           VObj [("heroServices", js_or heroServices (VStr ""));
                 ("areasWhyChoose", js_or areasWhyChoose (VStr ""));
                 ("neighborhoods", js_or neighborhoods (VArr []));
                 ("pricingProcess", js_or pricingProcess (VStr ""));
                 ("faqsPart1", js_or faqsPart1 (VArr []));
                 ("faqsPart2", js_or faqsPart2 (VArr []));
                 ("testimonialsCta", js_or testimonialsCta (VStr ""))];
         Page.wordCount := wordCount;
         Page.generatedAt := generatedAt |}.

(** The function given to [neighborhoods.map]. *)
Definition neighborhoodPage (city : City.t) (sections : value) (neighborhood : string)
  : M Page.t :=
  let key := "neighborhood_" ++ neighborhood in
  own <- lift (get_prop sections key) ;;
  let nSections := js_or own (VObj []) in
  introProjects <- lift (section_field nSections "intro_projects" "content") ;;
  serviceDetails <- lift (section_field nSections "service_details" "content") ;;
  faqs <- lift (section_field nSections "faqs_cta" "faqs") ;;
  cta <- lift (section_field nSections "faqs_cta" "cta") ;;
  wc1 <- lift (section_field nSections "intro_projects" "wordCount") ;;
  wc2 <- lift (section_field nSections "service_details" "wordCount") ;;
  wc3 <- lift (section_field nSections "faqs_cta" "wordCount") ;;
  sum2 <- lift (js_add (js_or wc1 (VNum (num 0))) (js_or wc2 (VNum (num 0)))) ;;
  wordCount <- lift (js_add sum2 (js_or wc3 (VNum (num 0)))) ;;
  generatedAt <- new_Date_toISOString ;;
  ret {| Page.type := "neighborhood";
         Page.neighborhoodName := Some neighborhood;
         Page.title := "Dumpster Rental in " ++ neighborhood ++ ", " ++ City.city city;
         Page.metaDescription :=
           "Dumpster rental in " ++ neighborhood ++ ", " ++ City.city city
             ++ ". Same-day delivery available.";
         Page.h1 := "Dumpster Rental in " ++ neighborhood ++ ", " ++ City.city city;
         Page.content :=
           VObj [("introProjects", js_or introProjects (VStr ""));
                 ("serviceDetails", js_or serviceDetails (VStr ""));
                 ("faqs", js_or faqs (VArr []));
                 ("cta", js_or cta (VStr ""))];
         Page.wordCount := wordCount;
         Page.generatedAt := generatedAt |}.

Definition assemblePagesFromSections
  (city : City.t) (neighborhoods : list string) (sections : value)
  : M (list Page.t) :=
  main <- mainPage city sections ;;
  neighborhoodPages <- mapM (neighborhoodPage city sections) neighborhoods ;;
  ret (main :: neighborhoodPages).

(** ** [generateContent] *)

Module MainSpec.
Record t : Type := { key : string; label : string; progress : Qc; tokens : Z }.
End MainSpec.

Module NeighborhoodSpec.
Record t : Type := { key : string; label : string; tokens : Z }.
End NeighborhoodSpec.

Definition log_report (progress : Qc) (step : string) : M unit :=
  fun _ w =>
    (Return tt,
     {| research_jobs := research_jobs w;
        clock := clock w;
        requests := requests w;
        reported := reported w ++ [(progress, step)] |}).

Definition updateProgress (jobId : nat) (progress : Qc) (step : string) : M unit :=
  log_report progress step ;;;
  update_research_jobs
    {| set_status := None;
       set_progress := Some (Math_round progress);
       set_current_step := Some step;
       set_completed_at := None;
       set_error_message := None;
       set_results_json := None |}
    jobId.

Definition neighborhoods : list string :=
  ["Downtown"; "Northside"; "Westside"; "Eastside"].

Definition mainSections : list MainSpec.t :=
  [ {| MainSpec.key := "hero_services"; MainSpec.label := "Hero & Services";
       MainSpec.progress := num 5; MainSpec.tokens := 3000 |};
    {| MainSpec.key := "areas_whychoose"; MainSpec.label := "Areas & Why Choose Us";
       MainSpec.progress := num 15; MainSpec.tokens := 2500 |};
    {| MainSpec.key := "pricing_process"; MainSpec.label := "Pricing & Process";
       MainSpec.progress := num 25; MainSpec.tokens := 2000 |};
    {| MainSpec.key := "faqs_part1"; MainSpec.label := "FAQs Part 1";
       MainSpec.progress := num 35; MainSpec.tokens := 2500 |};
    {| MainSpec.key := "faqs_part2"; MainSpec.label := "FAQs Part 2";
       MainSpec.progress := num 45; MainSpec.tokens := 2500 |};
    {| MainSpec.key := "testimonials_cta"; MainSpec.label := "Testimonials & CTA";
       MainSpec.progress := num 50; MainSpec.tokens := 1500 |} ].

Definition neighborhoodSections : list NeighborhoodSpec.t :=
  [ {| NeighborhoodSpec.key := "intro_projects";
       NeighborhoodSpec.label := "Intro & Projects";
       NeighborhoodSpec.tokens := 2000 |};
    {| NeighborhoodSpec.key := "service_details";
       NeighborhoodSpec.label := "Service Details";
       NeighborhoodSpec.tokens := 1500 |};
    {| NeighborhoodSpec.key := "faqs_cta";
       NeighborhoodSpec.label := "FAQs & CTA";
       NeighborhoodSpec.tokens := 2000 |} ].

Definition baseProgress : Qc := num 50.
Definition progressPerNeighborhood : Qc := Q2Qc (25 # 2).

(** What a log line makes of a payload: the text [${content.wordCount}]
    of a template literal. *)
Definition logged (content : value) : outcome string :=
  match get_prop content "wordCount" with
  | Return wordCount => to_string wordCount
  | Throw e => Throw e
  end.

(** The loop over [mainSections], from the section [l] starts with. *)
Fixpoint main_loop (jobId : nat) (city : City.t) (l : list MainSpec.t) (sections : value)
  : M value :=
  match l with
  | [] => ret sections
  | section :: rest =>
      updateProgress jobId (MainSpec.progress section)
        ("Main page: " ++ MainSpec.label section ++ "...") ;;;
      content <- generateMainSection city (MainSpec.key section)
                   (MainSpec.tokens section) ;;
      main <- lift (get_prop sections "main") ;;
      main' <- lift (set_member main (MainSpec.key section) content) ;;
      sections' <- lift (set_member sections "main" main') ;;
      _ <- lift (logged content) ;;
      main_loop jobId city rest sections'
  end.

(** The loop over [neighborhoodSections] for one neighborhood, from index
    [j]. *)
Fixpoint section_loop (jobId : nat) (city : City.t) (neighborhood : string)
  (neighborhoodProgress : Qc) (key : string)
  (j : nat) (l : list NeighborhoodSpec.t) (sections : value) : M value :=
  match l with
  | [] => ret sections
  | section :: rest =>
      let sectionProgress :=
        plus64 neighborhoodProgress
          (times64 (num (Z.of_nat j)) (over64 progressPerNeighborhood (num 3))) in
      updateProgress jobId sectionProgress
        (neighborhood ++ ": " ++ NeighborhoodSpec.label section ++ "...") ;;;
      content <- generateNeighborhoodSection city neighborhood
                   (NeighborhoodSpec.key section) (NeighborhoodSpec.tokens section) ;;
      own <- lift (get_prop sections key) ;;
      own' <- lift (set_member own (NeighborhoodSpec.key section) content) ;;
      sections' <- lift (set_member sections key own') ;;
      _ <- lift (logged content) ;;
      section_loop jobId city neighborhood neighborhoodProgress key (S j) rest sections'
  end.

(** The loop over the neighborhoods, from index [i]. *)
Fixpoint neighborhood_loop (jobId : nat) (city : City.t)
  (i : nat) (l : list string) (sections : value) : M value :=
  match l with
  | [] => ret sections
  | neighborhood :: rest =>
      let neighborhoodProgress :=
        plus64 baseProgress (times64 (num (Z.of_nat i)) progressPerNeighborhood) in
      let key := "neighborhood_" ++ neighborhood in
      sections1 <- lift (set_member sections key (VObj [])) ;;
      sections2 <- section_loop jobId city neighborhood neighborhoodProgress key
                     0 neighborhoodSections sections1 ;;
      neighborhood_loop jobId city (S i) rest sections2
  end.

Definition generateContent (jobId : nat) (cityId : value) (city : City.t) : M unit :=
  try_catch
    (sections0 <- lift (set_member (VObj []) "main" (VObj [])) ;;
     sections1 <- main_loop jobId city mainSections sections0 ;;
     sections2 <- neighborhood_loop jobId city 0 neighborhoods sections1 ;;
     updateProgress jobId (num 95) "Assembling pages..." ;;;
     pages <- assemblePagesFromSections city neighborhoods sections2 ;;
     completed_at <- new_Date_toISOString ;;
     update_research_jobs
       {| set_status := Some "completed";
          set_progress := Some 100;
          set_current_step := Some "Complete!";
          set_completed_at := Some completed_at;
          set_error_message := None;
          set_results_json := Some {| pages := Some pages; sections := sections2 |} |}
       jobId)
    (fun error => throw error).

(** ** [POST /research] *)

Record Response : Type := { code : Z; json : value }.

(** The handler given to [.catch] on the promise of [generateContent].
    Unlike every other query of the program, the update that it builds is
    neither awaited nor returned.  Whether such a query reaches the store
    is up to the client of the store, which is not part of the program:
    [sent] says whether it does.  A client whose queries are sent when
    they are awaited, and only then, has [sent = false]: the handler then
    reads the clock and changes nothing. *)
Definition generation_failed (sent : bool) (jobId : nat) (err : exn) : M unit :=
  completed_at <- new_Date_toISOString ;;
  if sent then
    update_research_jobs
      {| set_status := Some "failed";
         set_progress := None;
         set_current_step := None;
         set_completed_at := Some completed_at;
         set_error_message := Some (message err);
         set_results_json := None |}
      jobId
  else ret tt.

(** [generateContent(jobId, cityId, city).catch(...)], the detached task. *)
Definition background (sent : bool) (jobId : nat) (cityId : value) (city : City.t)
  : M unit :=
  try_catch (generateContent jobId cityId city) (generation_failed sent jobId).

Definition select_single (cityId : value) : M (option City.t * option string) :=
  fun env w => (Return (select_city env cityId), w).

Definition next_id (rows : list Job.t) : nat :=
  fold_right (fun j m => Nat.max (S (Job.id j)) m) O rows.

(** [from('research_jobs').insert(row).select().single()]: the [data] and
    the [error]. *)
Definition insert_research_job
  (city_id : value) (status : string) (progress : Z) (current_step : string)
  (started_at : string) (results_json : Results)
  : M (option Job.t * option string) :=
  fun env w =>
    match insert_error env (List.length (research_jobs w)) with
    | Some e => (Return (None, Some e), w)
    | None =>
        let job :=
          {| Job.id := next_id (research_jobs w);
             Job.city_id := city_id;
             Job.status := status;
             Job.progress := progress;
             Job.current_step := current_step;
             Job.started_at := started_at;
             Job.completed_at := None;
             Job.error_message := None;
             Job.results_json := results_json |} in
        (Return (Some job, None),
         {| research_jobs := research_jobs w ++ [job];
            clock := clock w;
            requests := requests w;
            reported := reported w |})
    end.

Definition error_body (m : string) : value := VObj [("error", VStr m)].

(** [const { k } = v] with [v] the body of the request. *)
Definition destructure (v : value) (k : string) : outcome value :=
  match v with
  | VUndefined =>
      Throw (TypeError ("Cannot destructure property '" ++ k
                          ++ "' of 'req.body' as it is undefined."))
  | VNull =>
      Throw (TypeError ("Cannot destructure property '" ++ k
                          ++ "' of 'req.body' as it is null."))
  | _ => get_prop v k
  end.

(** The handler up to its response, with the task it has started, if any.
    The log line that follows the check of [cityId] builds the text
    [${cityId}] outside the [try] block. *)
Definition post_research (sent : bool) (body : value)
  : M (Response * option (M unit)) :=
  cityId <- lift (destructure body "cityId") ;;
  if negb (truthy cityId) then
    ret ({| code := 400; json := error_body "City ID required" |}, None)
  else
    _ <- lift (to_string cityId) ;;
    try_catch
      (found <- select_single cityId ;;
       match found with
       | (Some city, None) =>
           started_at <- new_Date_toISOString ;;
           inserted <- insert_research_job cityId "processing" 0 "Starting..."
                         started_at {| pages := None; sections := VObj [] |} ;;
           match inserted with
           | (_, Some jobError) =>
               ret ({| code := 500; json := error_body "Failed to create job" |}, None)
           | (None, None) =>
               throw (TypeError "Cannot read properties of null (reading 'id')")
           | (Some job, None) =>
               let jobId := Job.id job in
               ret ({| code := 200;
                       json := VObj [("success", VBool true);
                                     ("jobId", VNum (num (Z.of_nat jobId)));
                                     ("message", VStr "Content generation started")] |},
                    Some (background sent jobId cityId city))
           end
       | _ =>
           ret ({| code := 404; json := error_body "City not found" |}, None)
       end)
      (fun error => ret ({| code := 500; json := error_body (message error) |}, None)).

(** A request served to the end: the response, and the state once the
    task that the handler started has run. *)
Definition serve (sent : bool) (body : value) : M Response :=
  started <- post_research sent body ;;
  match snd started with
  | Some task => task ;;; ret (fst started)
  | None => ret (fst started)
  end.

(** ** Vocabulary of the properties *)

(** Whether the character [c] occurs in [s]. *)
Fixpoint occurs (c : ascii) (s : string) : bool :=
  match s with
  | "" => false
  | String a r => Ascii.eqb a c || occurs c r
  end.

(** A response whose first content block is the text [text]. *)
Definition text_response (text : string) : list Block.t :=
  [ {| Block.type := "text"; Block.text := text |} ].

(** [undefined] and [null], the values without properties. *)
Definition nullish (v : value) : bool :=
  match v with
  | VUndefined | VNull => true
  | _ => false
  end.

(** A page without its generation timestamp. *)
Definition erase_generatedAt (p : Page.t) : Page.t :=
  {| Page.type := Page.type p;
     Page.neighborhoodName := Page.neighborhoodName p;
     Page.title := Page.title p;
     Page.metaDescription := Page.metaDescription p;
     Page.h1 := Page.h1 p;
     Page.content := Page.content p;
     Page.wordCount := Page.wordCount p;
     Page.generatedAt := "" |}.

(** The state after [n] more readings of the clock. *)
Definition tick (w : World) : World :=
  {| research_jobs := research_jobs w;
     clock := S (clock w);
     requests := requests w;
     reported := reported w |}.

Fixpoint ticks (n : nat) (w : World) : World :=
  match n with
  | O => w
  | S k => ticks k (tick w)
  end.

(** The patch that [updateProgress] writes for a report. *)
Definition progress_patch (r : Qc * string) : Patch :=
  {| set_status := None;
     set_progress := Some (Math_round (fst r));
     set_current_step := Some (snd r);
     set_completed_at := None;
     set_error_message := None;
     set_results_json := None |}.

(** The table once the reports [l] have been written for the job. *)
Definition written (rows : list Job.t) (jobId : nat) (l : list (Qc * string))
  : list Job.t :=
  fold_left (fun rows r => update_eq_id rows (progress_patch r) jobId) l rows.

(** The state after a stretch of the pipeline that has made the reports
    [reps] and sent the requests [reqs]. *)
Definition advanced (jobId : nat) (reps : list (Qc * string)) (reqs : list Request)
  (w : World) : World :=
  {| research_jobs := written (research_jobs w) jobId reps;
     clock := clock w;
     requests := requests w ++ reqs;
     reported := reported w ++ reps |}.

(** What the loops report and request when every section is generated. *)
Definition main_plan (l : list MainSpec.t) : list (Qc * string) :=
  map (fun s => (MainSpec.progress s, "Main page: " ++ MainSpec.label s ++ "...")) l.

Definition main_requests (city : City.t) (l : list MainSpec.t) : list Request :=
  map (fun s => main_request city (MainSpec.key s) (MainSpec.tokens s)) l.

Fixpoint section_plan (neighborhood : string) (neighborhoodProgress : Qc)
  (j : nat) (l : list NeighborhoodSpec.t) : list (Qc * string) :=
  match l with
  | [] => []
  | s :: r =>
      (plus64 neighborhoodProgress
         (times64 (num (Z.of_nat j)) (over64 progressPerNeighborhood (num 3))),
       neighborhood ++ ": " ++ NeighborhoodSpec.label s ++ "...")
        :: section_plan neighborhood neighborhoodProgress (S j) r
  end.

Definition section_requests (city : City.t) (neighborhood : string)
  (l : list NeighborhoodSpec.t) : list Request :=
  map (fun s => neighborhood_request city neighborhood
                  (NeighborhoodSpec.key s) (NeighborhoodSpec.tokens s)) l.

Fixpoint neighborhood_plan (i : nat) (l : list string) : list (Qc * string) :=
  match l with
  | [] => []
  | n :: r =>
      section_plan n (plus64 baseProgress (times64 (num (Z.of_nat i)) progressPerNeighborhood))
        0 neighborhoodSections
        ++ neighborhood_plan (S i) r
  end.

Definition neighborhood_requests (city : City.t) (l : list string) : list Request :=
  flat_map (fun n => section_requests city n neighborhoodSections) l.

Definition full_plan : list (Qc * string) :=
  main_plan mainSections ++ neighborhood_plan 0 neighborhoods
    ++ [(num 95, "Assembling pages...")].

Definition all_requests (city : City.t) : list Request :=
  main_requests city mainSections ++ neighborhood_requests city neighborhoods.

(** The patch of the final update of a successful run. *)
Definition completed_patch (completed_at : string) (pages : list Page.t) (sections : value)
  : Patch :=
  {| set_status := Some "completed";
     set_progress := Some 100;
     set_current_step := Some "Complete!";
     set_completed_at := Some completed_at;
     set_error_message := None;
     set_results_json := Some {| pages := Some pages; sections := sections |} |}.

(** The patch of the failure handler. *)
Definition failed_patch (completed_at : string) (err : exn) : Patch :=
  {| set_status := Some "failed";
     set_progress := None;
     set_current_step := None;
     set_completed_at := Some completed_at;
     set_error_message := Some (message err);
     set_results_json := None |}.

Definition with_rows (rows : list Job.t) (w : World) : World :=
  {| research_jobs := rows;
     clock := clock w;
     requests := requests w;
     reported := reported w |}.

(** ** Sample inputs *)

Definition springfield : City.t :=
  {| City.id := VStr "c1"; City.city := "Springfield"; City.state_code := "IL" |}.

Definition sample_text : string :=
  dq "noise {'content':'x','wordCount':1} trailing".

Definition sample_clock (k : nat) : string :=
  "2024-01-01T00:00:" ++ digits_of (Z.of_nat k) ++ "Z".

Definition sample_cities (id : value) : option City.t * option string :=
  match id with
  | VStr "c1" => (Some springfield, None)
  | _ => (None, Some "JSON object requested, multiple (or no) rows returned")
  end.

(** A wording for the syntax errors of the samples. *)
Definition sample_wording (text : string) : string :=
  "Unexpected token in JSON: " ++ text.

(** A provider that answers every request with [sample_text]. *)
Definition steady_env : Env :=
  {| now := sample_clock;
     create_message := fun _ _ => Return (text_response sample_text);
     select_city := sample_cities;
     insert_error := fun _ => None;
     syntax_error := sample_wording |}.

(** A provider whose second answer is no JSON inside its braces. *)
Definition faulty_env : Env :=
  {| now := sample_clock;
     create_message := fun k _ =>
       Return (text_response (if Nat.eqb k 1 then "{not json}" else sample_text));
     select_city := sample_cities;
     insert_error := fun _ => None;
     syntax_error := sample_wording |}.

Definition empty_world : World :=
  {| research_jobs := []; clock := 0; requests := []; reported := [] |}.

(** The row that the handler inserts for [springfield] into an empty
    table, and the state with that row. *)
Definition fresh_job : Job.t :=
  {| Job.id := 0;
     Job.city_id := VStr "c1";
     Job.status := "processing";
     Job.progress := 0;
     Job.current_step := "Starting...";
     Job.started_at := sample_clock 0;
     Job.completed_at := None;
     Job.error_message := None;
     Job.results_json := {| pages := None; sections := VObj [] |} |}.

Definition started_world : World :=
  {| research_jobs := [fresh_job]; clock := 1; requests := []; reported := [] |}.

(** ** Vocabulary of the parser

    What may follow a number or a value in a text, and what a value
    starts with. *)

(** The text [rest] does not go on with a digit. *)
Definition no_digit (rest : string) : Prop :=
  match rest with
  | "" => True
  | String c _ => digit_val c = None
  end.

(** What may follow a number: no digit, point or exponent mark. *)
Definition number_ends (rest : string) : Prop :=
  no_digit rest /\ expect "." rest = None /\ expect "e" rest = None
  /\ expect "E" rest = None.

(** What may follow a value in a JSON text: nothing, white space, a comma,
    a closing bracket or a closing brace. *)
Definition value_ends (rest : string) : Prop :=
  match rest with
  | "" => True
  | String c _ => is_ws c = true \/ c = ","%char \/ c = "]"%char \/ c = "}"%char
  end.

(** The first character of a value. *)
Definition opens (c : ascii) : Prop :=
  is_ws c = false /\ Ascii.eqb c "]" = false /\ Ascii.eqb c "}" = false
  /\ Ascii.eqb c "," = false.

(** The parser reads [v] and leaves [rest], if its fuel allows. *)
Definition agrees (p : parsed value) (v : value) (rest : string) : Prop :=
  p = Parsed v rest \/ p = OutOfFuel.

(** ** Vocabulary of the run of a job *)

(** What the provider and the extraction make of the [k]-th request. *)
Definition payload_at (env : Env) (k : nat) (req : Request) : outcome value :=
  match create_message env k req with
  | Return response => extract_payload (syntax_error env) response
  | Throw e => Throw e
  end.

(** One turn of a loop: the payload of the [k]-th request, once the log
    line has been written for it. *)
Definition turn_at (env : Env) (k : nat) (req : Request) : outcome value :=
  match payload_at env k req with
  | Return content =>
      match logged content with
      | Return _ => Return content
      | Throw e => Throw e
      end
  | Throw e => Throw e
  end.

(** The payloads of the requests [reqs], sent in this order from call
    number [k] on, up to the first turn that fails, and that failure. *)
Fixpoint collect (env : Env) (k : nat) (reqs : list Request)
  : list value * option exn :=
  match reqs with
  | [] => ([], None)
  | req :: rest =>
      match turn_at env k req with
      | Return content =>
          let '(cs, failure) := collect env (S k) rest in (content :: cs, failure)
      | Throw e => ([], Some e)
      end
  end.

(** ** Vocabulary of the conversions *)

(** The values that have a string: every value but an object that has a
    property [toString] of its own, and an array that holds a value
    without a string. *)
Fixpoint convertible (v : value) : bool :=
  match v with
  | VArr l => forallb convertible l
  | VObj o =>
      match own_prop o "toString" with
      | Some _ => false
      | None => true
      end
  | _ => true
  end.

Definition primitive (v : value) : bool :=
  match v with
  | VArr _ | VObj _ => false
  | _ => true
  end.

(** ** Vocabulary of the assembler *)

Definition main_keys : list string := map MainSpec.key mainSections.

Definition neighborhood_keys : list string :=
  map NeighborhoodSpec.key neighborhoodSections.

(** The sum [sum + x1 + ... + xn], taken from left to right. *)
Fixpoint add_all (sum : value) (rest : list value) : outcome value :=
  match rest with
  | [] => Return sum
  | x :: r =>
      match js_add sum x with
      | Return s => add_all s r
      | Throw e => Throw e
      end
  end.

(** The word counts that the sections [keys] of [own] report, zero for a
    section that reports none, and their sum. *)
Definition word_counts (own : value) (keys : list string) : list value :=
  map (fun k => js_or (opt_get (opt_get own k) "wordCount") (VNum (num 0))) keys.

Definition total_words (own : value) (keys : list string) : outcome value :=
  match word_counts own keys with
  | [] => Return (VNum (num 0))
  | x :: r => add_all x r
  end.

(** The sections of the main page and of a neighborhood in a sections
    object. *)
Definition main_of (sections : value) : value :=
  js_or (opt_get sections "main") (VObj []).

Definition neighborhood_of (sections : value) (neighborhood : string) : value :=
  js_or (opt_get sections ("neighborhood_" ++ neighborhood)) (VObj []).

Definition main_content (ms : value) : value :=
  VObj [("heroServices", js_or (opt_get (opt_get ms "hero_services") "content") (VStr ""));
        ("areasWhyChoose", js_or (opt_get (opt_get ms "areas_whychoose") "content") (VStr ""));
        ("neighborhoods",
         js_or (opt_get (opt_get ms "areas_whychoose") "neighborhoods") (VArr []));
        ("pricingProcess", js_or (opt_get (opt_get ms "pricing_process") "content") (VStr ""));
        ("faqsPart1", js_or (opt_get (opt_get ms "faqs_part1") "faqs") (VArr []));
        ("faqsPart2", js_or (opt_get (opt_get ms "faqs_part2") "faqs") (VArr []));
        ("testimonialsCta",
         js_or (opt_get (opt_get ms "testimonials_cta") "content") (VStr ""))].

Definition neighborhood_content (ns : value) : value :=
  VObj [("introProjects", js_or (opt_get (opt_get ns "intro_projects") "content") (VStr ""));
        ("serviceDetails", js_or (opt_get (opt_get ns "service_details") "content") (VStr ""));
        ("faqs", js_or (opt_get (opt_get ns "faqs_cta") "faqs") (VArr []));
        ("cta", js_or (opt_get (opt_get ns "faqs_cta") "cta") (VStr ""))].

(** The main page and the page of a neighborhood, given their word count
    and their timestamp. *)
Definition main_page (city : City.t) (ms wordCount : value) (generatedAt : string)
  : Page.t :=
  {| Page.type := "main";
     Page.neighborhoodName := None;
     Page.title :=
       "Dumpster Rental in " ++ City.city city ++ ", " ++ City.state_code city
         ++ " - Affordable Roll-Off Rentals";
     Page.metaDescription :=
       "Professional dumpster rental in " ++ City.city city ++ ", "
         ++ City.state_code city ++ ". Fast delivery, transparent pricing.";
     Page.h1 := "Dumpster Rental in " ++ City.city city ++ ", " ++ City.state_code city;
     Page.content := main_content ms;
     Page.wordCount := wordCount;
     Page.generatedAt := generatedAt |}.

Definition neighborhood_page (city : City.t) (neighborhood : string)
  (ns wordCount : value) (generatedAt : string) : Page.t :=
  {| Page.type := "neighborhood";
     Page.neighborhoodName := Some neighborhood;
     Page.title := "Dumpster Rental in " ++ neighborhood ++ ", " ++ City.city city;
     Page.metaDescription :=
       "Dumpster rental in " ++ neighborhood ++ ", " ++ City.city city
         ++ ". Same-day delivery available.";
     Page.h1 := "Dumpster Rental in " ++ neighborhood ++ ", " ++ City.city city;
     Page.content := neighborhood_content ns;
     Page.wordCount := wordCount;
     Page.generatedAt := generatedAt |}.

(** The word count of a page whose sum exists. *)
Definition returned (o : outcome value) : value :=
  match o with
  | Return v => v
  | Throw _ => VUndefined
  end.

(** The pages of the neighborhoods [l], stamped with the clock readings
    from the [k]-th on. *)
Fixpoint neighborhood_pages (city : City.t) (sections : value) (stamp : nat -> string)
  (k : nat) (l : list string) : list Page.t :=
  match l with
  | [] => []
  | n :: r =>
      neighborhood_page city n (neighborhood_of sections n)
        (returned (total_words (neighborhood_of sections n) neighborhood_keys)) (stamp k)
        :: neighborhood_pages city sections stamp (S k) r
  end.

(** The word counts of the sections convert to primitives, so that the
    sum exists. *)
Definition summable (own : value) (keys : list string) : Prop :=
  exists wordCount, total_words own keys = Return wordCount.

(** Two outcomes of the assembler agree: the same error, or the same
    pages up to their timestamps. *)
Definition same_pages (a b : outcome (list Page.t)) : Prop :=
  match a, b with
  | Return p, Return q => map erase_generatedAt p = map erase_generatedAt q
  | Throw e, Throw e' => e = e'
  | _, _ => False
  end.

(** ** Vocabulary of the run of a job, continued *)

(** The object [m] after the assignments [m[k] = c] of the list. *)
Definition store (m : list (string * value)) (kcs : list (string * value))
  : list (string * value) :=
  fold_left (fun m kc => set_prop m (fst kc) (snd kc)) kcs m.

(** The [sections] object after the loop over the neighborhoods [l] has
    stored the payloads [cs], three for each neighborhood. *)
Fixpoint stored_neighborhoods (o : list (string * value)) (l : list string)
  (cs : list value) : list (string * value) :=
  match l with
  | [] => o
  | n :: r =>
      stored_neighborhoods
        (set_prop o ("neighborhood_" ++ n)
           (VObj (store [] (combine neighborhood_keys (firstn 3 cs)))))
        r (skipn 3 cs)
  end.

(** The [sections] object of a run whose eighteen payloads are [cs]. *)
Definition sections_of (cs : list value) : value :=
  VObj (stored_neighborhoods
          [("main", VObj (store [] (combine main_keys (firstn 6 cs))))]
          neighborhoods (skipn 6 cs)).

(** The first [length cs] requests of [reqs], sent in this order from call
    number [k] on, have the payloads [cs]. *)
Fixpoint answered (env : Env) (k : nat) (reqs : list Request) (cs : list value)
  : Prop :=
  match cs, reqs with
  | [], _ => True
  | c :: cs', req :: rest => payload_at env k req = Return c /\ answered env (S k) rest cs'
  | _ :: _, [] => False
  end.

(** The progress values as [updateProgress] writes them. *)
Definition rounded (reps : list (Qc * string)) : list Z :=
  map (fun r => Math_round (fst r)) reps.

(** [t] occurs in [s]. *)
Definition mentions (t s : string) : Prop :=
  exists pre post, s = pre ++ t ++ post.

(** The request [r] is one user message whose text names every string of
    [names], for the fixed model and the sampling temperature that is
    written 0.7. *)
Definition prompt_naming (names : list string) (r : Request) : Prop :=
  model r = "claude-sonnet-4-20250514"
  /\ temperature r = sampling_temperature
  /\ number_to_string (temperature r) = "0.7"
  /\ exists prompt,
       messages r = [("user", Prompt prompt)]
       /\ Forall (fun t => mentions t prompt) names.

(** A row of another job is untouched; a row keeps what a run never
    writes. *)
Definition same_job_elsewhere (jobId : nat) (j j' : Job.t) : Prop :=
  Job.id j' = Job.id j
  /\ Job.city_id j' = Job.city_id j
  /\ Job.started_at j' = Job.started_at j
  /\ (Job.id j <> jobId -> j' = j).

(** The content bundles and word counts of pages without any section. *)
Definition empty_main_content : value :=
  VObj [("heroServices", VStr ""); ("areasWhyChoose", VStr "");
        ("neighborhoods", VArr []); ("pricingProcess", VStr "");
        ("faqsPart1", VArr []); ("faqsPart2", VArr []);
        ("testimonialsCta", VStr "")].

Definition empty_neighborhood_content : value :=
  VObj [("introProjects", VStr ""); ("serviceDetails", VStr "");
        ("faqs", VArr []); ("cta", VStr "")].

(** The word count that a section payload reports: its [wordCount] when
    that is a finite number, zero when there is none. *)
Definition counted (section : value) : Qc :=
  match opt_get section "wordCount" with
  | VNum q => q
  | _ => num 0
  end.

Definition counts_words (section : value) : Prop :=
  match opt_get section "wordCount" with
  | VNum _ | VUndefined => True
  | _ => False
  end.

(** The values of type number. *)
Definition is_number (v : value) : bool :=
  match v with
  | VNum _ | VNaN | VInfinity _ => true
  | _ => false
  end.

(** The sum of finite numbers, taken from left to right, each addition
    rounding its result. *)
Definition sum64 (qs : list Qc) : value :=
  match qs with
  | [] => VNum (num 0)
  | q :: r => fold_left (fun sum x => number_add sum (VNum x)) r (VNum q)
  end.

(** The sections [keys] of [own] report the whole numbers [zs], none of
    them negative, with a total of at most [2^53]. *)
Definition total (zs : list Z) : Z := fold_right Z.add 0 zs.

Definition whole_counts (own : value) (keys : list string) (zs : list Z) : Prop :=
  map (fun k => counted (opt_get own k)) keys = map num zs
  /\ Forall (fun z => 0 <= z) zs
  /\ total zs <= 2 ^ 53.

(** Six main sections reporting 1200, 1000, 700, 1000, 1000 and 500
    words, and a sections object whose first section reports its word
    count as the string "1200". *)
Definition counting (n : Z) : value := VObj [("wordCount", VNum (num n))].

Definition sample_sections : list (string * value) :=
  [("main",
    VObj [("hero_services", counting 1200); ("areas_whychoose", counting 1000);
          ("pricing_process", counting 700); ("faqs_part1", counting 1000);
          ("faqs_part2", counting 1000); ("testimonials_cta", counting 500)])].

Definition stringly_sections : list (string * value) :=
  [("main", VObj [("hero_services", VObj [("wordCount", VStr "1200")])])].

(** The three sections of Downtown reporting 800, 600 and 800 words. *)
Definition sample_neighborhood : list (string * value) :=
  [("neighborhood_Downtown",
    VObj [("intro_projects", counting 800); ("service_details", counting 600);
          ("faqs_cta", counting 800)])].

(** A sections object whose first two main sections report 2^53 words and
    one word. *)
Definition large_sections : list (string * value) :=
  [("main", VObj [("hero_services", counting (2 ^ 53)); ("areas_whychoose", counting 1)])].

(** ** Vocabulary of the claims *)

(** No value of the sequence is below the one before it. *)
Definition non_decreasing (l : list Z) : Prop :=
  forall i a b, nth_error l i = Some a -> nth_error l (S i) = Some b -> a <= b.


(** A sections object whose first main section reports its word count as
    the string "1200" and the others as the numbers 1000.5, 0.1, 1e21,
    1e-7 and 0. *)
Definition spelled_sections : list (string * value) :=
  [("main",
    VObj [("hero_services", VObj [("wordCount", VStr "1200")]);
          ("areas_whychoose", VObj [("wordCount", VNum (finite64 (2001 # 2)))]);
          ("pricing_process", VObj [("wordCount", VNum (finite64 (1 # 10)))]);
          ("faqs_part1", VObj [("wordCount", VNum (finite64 (pow10 21)))]);
          ("faqs_part2", VObj [("wordCount", VNum (finite64 (pow10 (-7))))]);
          ("testimonials_cta", VObj [("wordCount", VNum (num 0))])])].

(** * Lemmas *)

(** ** Strings *)

Lemma string_app_assoc (a b c : string) : (a ++ b) ++ c = a ++ b ++ c.
Proof.
  induction a as [|x a IH]; [reflexivity|].
  cbn [append]. rewrite IH. reflexivity.
Qed.

Lemma string_app_nil_r (a : string) : a ++ "" = a.
Proof.
  induction a as [|x a IH]; [reflexivity|].
  cbn [append]. rewrite IH. reflexivity.
Qed.

Lemma string_app_length (a b : string) :
  String.length (a ++ b) = (String.length a + String.length b)%nat.
Proof.
  induction a as [|x a IH]; [reflexivity|].
  cbn [append String.length]. rewrite IH. reflexivity.
Qed.

Lemma string_app_inv_head (a b c : string) : a ++ b = a ++ c -> b = c.
Proof.
  induction a as [|x a IH]; [exact (fun H => H)|].
  cbn [append]. intros H. injection H as H. exact (IH H).
Qed.

Lemma pair_eq_inv {A B : Type} (a c : A) (b d : B) :
  (a, b) = (c, d) -> a = c /\ b = d.
Proof. intros [= -> ->]. auto. Qed.

(** ** The pattern *)

Lemma greedy_to_close_none (s : string) :
  occurs "}" s = false -> greedy_to_close s = None.
Proof.
  induction s as [|c r IH]; simpl; intros H; [reflexivity|].
  apply orb_false_iff in H as [Hc Hr].
  rewrite (IH Hr), Hc. reflexivity.
Qed.

Lemma greedy_to_close_some (s : string) :
  occurs "}" s = true -> greedy_to_close s <> None.
Proof.
  induction s as [|c r IH]; simpl; intros H; [discriminate|].
  destruct (greedy_to_close r) as [m|] eqn:E; [discriminate|].
  destruct (Ascii.eqb c "}") eqn:Ec; [discriminate|].
  simpl in H. apply IH in H. congruence.
Qed.

Lemma greedy_to_close_last (mid post : string) :
  occurs "}" post = false ->
  greedy_to_close (mid ++ String "}" post) = Some (mid ++ "}").
Proof.
  intros Hpost. induction mid as [|c r IH]; simpl.
  - rewrite (greedy_to_close_none post Hpost). reflexivity.
  - rewrite IH. reflexivity.
Qed.

Lemma greedy_to_close_inv (s m : string) :
  greedy_to_close s = Some m ->
  exists mid post,
    s = mid ++ String "}" post /\ m = mid ++ "}" /\ occurs "}" post = false.
Proof.
  revert m. induction s as [|c r IH]; simpl; intros m H; [discriminate|].
  destruct (greedy_to_close r) as [m'|] eqn:E.
  - injection H as <-. destruct (IH m' eq_refl) as (mid & post & -> & -> & Hp).
    exists (String c mid), post. auto.
  - destruct (Ascii.eqb c "}") eqn:Ec; [|discriminate].
    injection H as <-. apply Ascii.eqb_eq in Ec as ->.
    exists "", r. repeat split.
    destruct (occurs "}" r) eqn:Ho; [|reflexivity].
    exfalso. exact (greedy_to_close_some r Ho E).
Qed.

Lemma occurs_app (c : ascii) (a b : string) :
  occurs c (a ++ b) = occurs c a || occurs c b.
Proof.
  induction a as [|x r IH]; simpl; [reflexivity|].
  rewrite IH. apply orb_assoc.
Qed.

Lemma occurs_close_span (a mid post : string) :
  occurs "}" (a ++ String "{" (mid ++ String "}" post)) = true.
Proof.
  rewrite occurs_app. simpl. rewrite occurs_app. simpl.
  rewrite !orb_true_r. reflexivity.
Qed.

Lemma match_braces_span (pre mid post : string) :
  occurs "{" pre = false -> occurs "}" post = false ->
  match_braces (pre ++ String "{" (mid ++ String "}" post))
  = Some (String "{" (mid ++ "}")).
Proof.
  intros Hpre Hpost. induction pre as [|c r IH]; simpl.
  - rewrite (greedy_to_close_last mid post Hpost). reflexivity.
  - simpl in Hpre. apply orb_false_iff in Hpre as [Hc Hr].
    rewrite Hc. exact (IH Hr).
Qed.

Lemma match_braces_inv (text m : string) :
  match_braces text = Some m ->
  exists pre mid post,
    text = pre ++ String "{" (mid ++ String "}" post)
    /\ m = String "{" (mid ++ "}")
    /\ occurs "{" pre = false /\ occurs "}" post = false.
Proof.
  induction text as [|c r IH]; simpl; intros H; [discriminate|].
  destruct (Ascii.eqb c "{") eqn:Ec.
  - destruct (greedy_to_close r) as [m'|] eqn:E.
    + injection H as <-. apply Ascii.eqb_eq in Ec as ->.
      destruct (greedy_to_close_inv r m' E) as (mid & post & -> & -> & Hp).
      exists "", mid, post. auto.
    + exfalso. destruct (IH H) as (pre & mid & post & -> & _ & _ & _).
      exact (greedy_to_close_some _ (occurs_close_span pre mid post) E).
  - destruct (IH H) as (pre & mid & post & -> & -> & Hpre & Hpost).
    exists (String c pre), mid, post. simpl. rewrite Ec, Hpre. auto.
Qed.

Lemma match_braces_found (pre mid post : string) :
  match_braces (pre ++ String "{" (mid ++ String "}" post)) <> None.
Proof.
  induction pre as [|c r IH]; simpl.
  - destruct (greedy_to_close (mid ++ String "}" post)) eqn:E; [discriminate|].
    exfalso. apply (greedy_to_close_some (mid ++ String "}" post)); [|exact E].
    rewrite occurs_app. simpl. apply orb_true_r.
  - destruct (Ascii.eqb c "{"); [|exact IH].
    destruct (greedy_to_close (r ++ String "{" (mid ++ String "}" post))) eqn:E;
      [discriminate|].
    exfalso. exact (greedy_to_close_some _ (occurs_close_span r mid post) E).
Qed.

Lemma match_braces_none_iff (text : string) :
  match_braces text = None <->
  ~ exists pre mid post, text = pre ++ "{" ++ mid ++ "}" ++ post.
Proof.
  split.
  - intros H (pre & mid & post & ->). exact (match_braces_found pre mid post H).
  - intros H. destruct (match_braces text) as [m|] eqn:E; [|reflexivity].
    exfalso. apply H. destruct (match_braces_inv text m E) as (pre & mid & post & Ht & _).
    exists pre, mid, post. exact Ht.
Qed.

(** ** [JSON.parse]: the reader never lacks fuel *)

Lemma skip_ws_le (s : string) : (String.length (skip_ws s) <= String.length s)%nat.
Proof.
  induction s as [|c r IH]; simpl; [lia|].
  destruct (is_ws c); simpl; lia.
Qed.

Lemma expect_length (c : ascii) (s r : string) :
  expect c s = Some r -> String.length s = S (String.length r).
Proof.
  destruct s as [|a t]; simpl; [discriminate|].
  destruct (Ascii.eqb a c); [|discriminate].
  intros [= ->]. reflexivity.
Qed.

Lemma strip_prefix_le (p s r : string) :
  strip_prefix p s = Some r -> (String.length r <= String.length s)%nat.
Proof.
  revert s. induction p as [|a p IH]; simpl; intros s H.
  - injection H as ->. lia.
  - destruct s as [|b s']; [discriminate|].
    destruct (Ascii.eqb a b); [|discriminate].
    apply IH in H. simpl. lia.
Qed.

Arguments cons_item : simpl never.

Lemma cons_item_inv (i : option str_item) (x : option (list str_item * string))
  (l : list str_item) (rest : string) :
  cons_item i x = Some (l, rest) -> exists l', x = Some (l', rest).
Proof.
  unfold cons_item. destruct i; [|discriminate].
  destruct x as [[l' r']|]; [|discriminate].
  intros [= _ ->]. eauto.
Qed.

Lemma string_items_le (n : nat) :
  forall s l rest,
    (String.length s <= n)%nat ->
    string_items s = Some (l, rest) ->
    (String.length rest <= String.length s)%nat.
Proof.
  induction n as [|n IH]; intros s l rest Hn H.
  - destruct s; [discriminate|simpl in Hn; lia].
  - destruct s as [|c r]; [discriminate|]. simpl in Hn, H.
    destruct (Ascii.eqb c dquote).
    { injection H as _ ->. simpl. lia. }
    destruct (Ascii.eqb c "\").
    + destruct r as [|e r1]; [discriminate|]. simpl in Hn.
      destruct (Ascii.eqb e "u").
      * destruct r1 as [|x [|y [|z [|w r2]]]]; try discriminate.
        apply cons_item_inv in H as (l' & H). simpl in Hn.
        apply IH in H; simpl; lia.
      * apply cons_item_inv in H as (l' & H).
        apply IH in H; simpl; lia.
    + destruct (nat_of_ascii c <? 32)%nat; [discriminate|].
      apply cons_item_inv in H as (l' & H).
      apply IH in H; simpl; lia.
Qed.

Lemma parse_string_body_le (s str rest : string) :
  parse_string_body s = Some (str, rest) ->
  (String.length rest <= String.length s)%nat.
Proof.
  unfold parse_string_body.
  destruct (string_items s) as [[l r]|] eqn:E; [|discriminate].
  intros [= _ <-]. exact (string_items_le _ s l r (le_n _) E).
Qed.

Lemma span_digits_le (s : string) :
  forall acc count m n r,
    span_digits s acc count = (m, n, r) ->
    (String.length r <= String.length s)%nat.
Proof.
  induction s as [|c t IH]; simpl; intros acc count m n r H.
  - injection H as _ _ <-. simpl. lia.
  - destruct (digit_val c).
    + apply IH in H. lia.
    + injection H as _ _ <-. simpl. lia.
Qed.

Lemma some_digits_le (s : string) (acc m n : Z) (r : string) :
  some_digits s acc = Some (m, n, r) ->
  (String.length r <= String.length s)%nat.
Proof.
  unfold some_digits.
  destruct (span_digits s acc 0) as [[m' n'] r'] eqn:E.
  destruct (n' =? 0); [discriminate|].
  intros [= _ _ <-]. exact (span_digits_le s _ _ _ _ _ E).
Qed.

Ltac split_match :=
  match goal with
  | H : context [match ?x with _ => _ end] |- _ =>
      let E := fresh "E" in destruct x eqn:E
  end.

Lemma parse_number_le (s : string) (q : value) (r : string) :
  parse_number s = Some (q, r) ->
  (String.length r <= String.length s)%nat.
Proof.
  unfold parse_number, optional_minus, read_integer, read_fraction, read_exponent.
  intros H.
  repeat split_match; try discriminate;
    repeat match goal with
      | H : (_, _) = (_, _) |- _ => inversion H; subst; clear H
      | H : Some _ = Some _ |- _ => inversion H; subst; clear H
      | H : expect _ _ = Some _ |- _ => apply expect_length in H
      | H : some_digits _ _ = Some _ |- _ => apply some_digits_le in H
      end;
    lia.
Qed.

Ltac split_goal_match :=
  match goal with
  | |- context [match ?x with _ => _ end] =>
      let E := fresh "E" in destruct x eqn:E
  end.

Ltac lengths :=
  repeat match goal with
    | H : expect _ _ = Some _ |- _ => apply expect_length in H
    | H : strip_prefix _ _ = Some _ |- _ => apply strip_prefix_le in H
    | H : parse_string_body _ = Some _ |- _ => apply parse_string_body_le in H
    | H : parse_number _ = Some _ |- _ => apply parse_number_le in H
    | |- context [skip_ws ?s] =>
        lazymatch goal with
        | _ : (String.length (skip_ws s) <= String.length s)%nat |- _ => fail
        | _ => pose proof (skip_ws_le s)
        end
    | _ : context [skip_ws ?s] |- _ =>
        lazymatch goal with
        | _ : (String.length (skip_ws s) <= String.length s)%nat |- _ => fail
        | _ => pose proof (skip_ws_le s)
        end
    end.

(** What a reader leaves unread is no longer than what it was given. *)
Lemma parse_rest_le (fuel : nat) :
  (forall s v r, parse_value fuel s = Parsed v r ->
                 (String.length r <= String.length s)%nat)
  /\ (forall s acc v r, parse_members fuel s acc = Parsed v r ->
                        (String.length r <= String.length s)%nat)
  /\ (forall s acc v r, parse_elements fuel s acc = Parsed v r ->
                        (String.length r <= String.length s)%nat).
Proof.
  induction fuel as [|f (IHv & IHm & IHe)]; [repeat split; discriminate|].
  repeat split.
  - intros s v r H. cbn [parse_value] in H. cbv zeta in H.
    repeat split_match; try discriminate;
      try (injection H as _ <-);
      try (apply IHm in H); try (apply IHe in H);
      lengths; lia.
  - intros s acc v r H. cbn [parse_members] in H.
    repeat split_match; try discriminate;
      try (injection H as _ <-);
      try (apply IHm in H);
      repeat match goal with
        | H : parse_value f _ = Parsed _ _ |- _ => apply IHv in H
        end;
      lengths; lia.
  - intros s acc v r H. cbn [parse_elements] in H.
    repeat split_match; try discriminate;
      try (injection H as _ <-);
      try (apply IHe in H);
      repeat match goal with
        | H : parse_value f _ = Parsed _ _ |- _ => apply IHv in H
        end;
      lengths; lia.
Qed.

(** With fuel above twice the length of the text (one more for the
    elements of an array) no reader runs out of it. *)
Lemma parse_fuel (fuel : nat) :
  (forall s, (2 * String.length s < fuel)%nat -> parse_value fuel s <> OutOfFuel)
  /\ (forall s acc, (2 * String.length s < fuel)%nat ->
                    parse_members fuel s acc <> OutOfFuel)
  /\ (forall s acc, (2 * String.length s + 1 < fuel)%nat ->
                    parse_elements fuel s acc <> OutOfFuel).
Proof.
  induction fuel as [|f (IHv & IHm & IHe)]; [repeat split; intros; lia|].
  assert (Hrest := proj1 (parse_rest_le f)).
  repeat split.
  - intros s Hf. cbn [parse_value]. cbv zeta.
    repeat split_goal_match; try discriminate;
      (apply IHm || apply IHe); lengths; lia.
  - intros s acc Hf. cbn [parse_members].
    repeat split_goal_match; try discriminate;
      repeat match goal with
        | H : parse_value f _ = Parsed _ _ |- _ => apply Hrest in H
        end.
    + apply IHm. lengths. lia.
    + match goal with
      | H : parse_value f ?x = OutOfFuel |- _ => exfalso; apply (IHv x); [|exact H]
      end.
      lengths. lia.
  - intros s acc Hf. cbn [parse_elements].
    repeat split_goal_match; try discriminate;
      repeat match goal with
        | H : parse_value f _ = Parsed _ _ |- _ => apply Hrest in H
        end.
    + apply IHe. lengths. lia.
    + match goal with
      | H : parse_value f ?x = OutOfFuel |- _ => exfalso; apply (IHv x); [|exact H]
      end.
      lia.
Qed.

(** One more unit of fuel does not change an answer. *)
Lemma parse_fuel_more (fuel : nat) :
  (forall s, parse_value fuel s <> OutOfFuel ->
             parse_value (S fuel) s = parse_value fuel s)
  /\ (forall s acc, parse_members fuel s acc <> OutOfFuel ->
                    parse_members (S fuel) s acc = parse_members fuel s acc)
  /\ (forall s acc, parse_elements fuel s acc <> OutOfFuel ->
                    parse_elements (S fuel) s acc = parse_elements fuel s acc).
Proof.
  induction fuel as [|f (IHv & IHm & IHe)];
    [repeat split; intros; exfalso; auto|].
  repeat split.
  - intros s. cbn [parse_value]. cbv zeta.
    repeat split_goal_match; intros H; try reflexivity; auto.
  - intros s acc. cbn [parse_members].
    destruct (expect dquote s) as [r|]; [|reflexivity].
    destruct (parse_string_body r) as [[k r1]|]; [|reflexivity].
    destruct (expect ":" (skip_ws r1)) as [r2|]; [|reflexivity].
    destruct (parse_value f r2) as [v r3| |] eqn:E; intros H.
    + rewrite (IHv r2), E by (rewrite E; discriminate).
      destruct (expect "," (skip_ws r3)); [|reflexivity].
      exact (IHm _ _ H).
    + rewrite (IHv r2), E by (rewrite E; discriminate). reflexivity.
    + exfalso. auto.
  - intros s acc. cbn [parse_elements].
    destruct (parse_value f s) as [v r1| |] eqn:E; intros H.
    + rewrite (IHv s), E by (rewrite E; discriminate).
      destruct (expect "," (skip_ws r1)); [|reflexivity].
      exact (IHe _ _ H).
    + rewrite (IHv s), E by (rewrite E; discriminate). reflexivity.
    + exfalso. auto.
Qed.

Lemma parse_value_more (extra fuel : nat) (s : string) :
  parse_value fuel s <> OutOfFuel ->
  parse_value (extra + fuel) s = parse_value fuel s.
Proof.
  intros H. induction extra as [|k IH]; [reflexivity|].
  change (S k + fuel)%nat with (S (k + fuel)).
  rewrite (proj1 (parse_fuel_more (k + fuel))); [exact IH|].
  rewrite IH. exact H.
Qed.

(** [JSON_parse] gives its reader enough fuel: no answer of it is due to
    the bound, and any larger bound gives the same answer. *)
Lemma JSON_parse_fuel (text : string) :
  parse_value (2 * String.length text + 1) text <> OutOfFuel
  /\ forall extra,
       parse_value (extra + (2 * String.length text + 1)) text
       = parse_value (2 * String.length text + 1) text.
Proof.
  assert (H : parse_value (2 * String.length text + 1) text <> OutOfFuel)
    by (apply (proj1 (parse_fuel _)); lia).
  split; [exact H|].
  intros extra. exact (parse_value_more extra _ text H).
Qed.

(** ** The reader and the grammar *)

Lemma blank_app (a b : string) : blank a -> blank b -> blank (a ++ b).
Proof.
  induction 1 as [|c s Hc _ IH]; intros Hb; [exact Hb|].
  cbn [append]. apply blank_cons; [exact Hc|exact (IH Hb)].
Qed.

Lemma skip_ws_blank (w s : string) : blank w -> skip_ws (w ++ s) = skip_ws s.
Proof.
  induction 1 as [|c w Hc _ IH]; [reflexivity|].
  cbn [append skip_ws]. rewrite Hc. exact IH.
Qed.

Lemma skip_ws_split (s : string) : exists w, blank w /\ s = w ++ skip_ws s.
Proof.
  induction s as [|c s (w & Hw & IH)].
  - exists "". split; [constructor|reflexivity].
  - cbn [skip_ws]. destruct (is_ws c) eqn:Hc.
    + exists (String c w). split; [constructor; assumption|].
      cbn [append]. rewrite <- IH. reflexivity.
    + exists "". split; [constructor|reflexivity].
Qed.

Lemma skip_ws_nil_blank (s : string) : skip_ws s = "" -> blank s.
Proof.
  intros H. destruct (skip_ws_split s) as (w & Hw & E).
  rewrite H, string_app_nil_r in E. rewrite E. exact Hw.
Qed.

Lemma blank_skip_ws (w : string) : blank w -> skip_ws w = "".
Proof.
  intros H. rewrite <- (string_app_nil_r w). rewrite (skip_ws_blank w "" H). reflexivity.
Qed.

Lemma skip_ws_stays (c : ascii) (s : string) :
  is_ws c = false -> skip_ws (String c s) = String c s.
Proof. intros H. cbn [skip_ws]. rewrite H. reflexivity. Qed.

Lemma skip_ws_idem (s : string) : skip_ws (skip_ws s) = skip_ws s.
Proof.
  induction s as [|c s IH]; [reflexivity|].
  cbn [skip_ws]. destruct (is_ws c) eqn:Hc; [exact IH|].
  cbn [skip_ws]. rewrite Hc. reflexivity.
Qed.

Lemma expect_app (c : ascii) (s : string) : expect c (String c s) = Some s.
Proof. unfold expect. rewrite Ascii.eqb_refl. reflexivity. Qed.

Lemma expect_inv (c : ascii) (s r : string) : expect c s = Some r -> s = String c r.
Proof.
  destruct s as [|a s]; [discriminate|]. unfold expect.
  destruct (Ascii.eqb a c) eqn:E; [|discriminate].
  apply Ascii.eqb_eq in E. intros H. injection H as <-. rewrite E. reflexivity.
Qed.

Lemma expect_other (c a : ascii) (s : string) :
  Ascii.eqb a c = false -> expect c (String a s) = None.
Proof. intros H. unfold expect. rewrite H. reflexivity. Qed.

Lemma strip_prefix_inv (p s r : string) : strip_prefix p s = Some r -> s = p ++ r.
Proof.
  revert s. induction p as [|a p IH]; intros s H.
  - injection H as <-. reflexivity.
  - destruct s as [|b s]; [discriminate|]. cbn [strip_prefix] in H.
    destruct (Ascii.eqb a b) eqn:E; [|discriminate].
    apply Ascii.eqb_eq in E. subst b. cbn [append]. rewrite (IH _ H). reflexivity.
Qed.

(** *** Digits *)

Lemma digit_val_range (c : ascii) (d : Z) :
  digit_val c = Some d -> 48 <= Z.of_nat (nat_of_ascii c) <= 57.
Proof.
  unfold digit_val. intros H.
  destruct ((48 <=? Z.of_nat (nat_of_ascii c)) && (Z.of_nat (nat_of_ascii c) <=? 57)) eqn:E;
    [|discriminate].
  apply andb_true_iff in E as [E1 E2]. lia.
Qed.

Lemma digit_not (c a : ascii) (d : Z) :
  digit_val c = Some d ->
  (Z.of_nat (nat_of_ascii a) < 48 \/ 57 < Z.of_nat (nat_of_ascii a)) ->
  Ascii.eqb c a = false.
Proof.
  intros H Ha. apply digit_val_range in H.
  apply Ascii.eqb_neq. intros ->. lia.
Qed.

Lemma span_digits_stop (rest : string) (acc n : Z) :
  no_digit rest -> span_digits rest acc n = (acc, n, rest).
Proof.
  destruct rest as [|c r]; [reflexivity|]. cbn [no_digit span_digits].
  intros ->. reflexivity.
Qed.

Lemma span_digits_digits (ds : string) :
  digits ds ->
  forall rest acc n,
    no_digit rest ->
    span_digits (ds ++ rest) acc n
    = (digits_value ds acc, n + Z.of_nat (String.length ds), rest).
Proof.
  induction 1 as [c d Hc|c d s Hc _ IH]; intros rest acc n Hr.
  - cbn [append span_digits digits_value String.length]. rewrite Hc.
    rewrite (span_digits_stop rest _ _ Hr). reflexivity.
  - cbn [append span_digits digits_value String.length]. rewrite Hc.
    rewrite (IH rest _ _ Hr). f_equal. f_equal. lia.
Qed.

Lemma span_digits_inv (s : string) :
  forall acc n m n' r,
    span_digits s acc n = (m, n', r) ->
    (m = acc /\ n' = n /\ r = s)
    \/ exists ds,
         digits ds /\ s = ds ++ r /\ m = digits_value ds acc
         /\ n' = n + Z.of_nat (String.length ds).
Proof.
  induction s as [|c s IH]; intros acc n m n' r H.
  - left. injection H as <- <- <-. auto.
  - cbn [span_digits] in H. destruct (digit_val c) as [d|] eqn:Hc.
    + right. destruct (IH _ _ _ _ _ H) as [(-> & -> & ->)|(ds & Hd & -> & -> & ->)].
      * exists (String c ""). split; [exact (digits_one c d Hc)|].
        cbn [append digits_value String.length]. rewrite Hc. repeat split; lia.
      * exists (String c ds). split; [exact (digits_more c d ds Hc Hd)|].
        cbn [append digits_value String.length]. rewrite Hc. repeat split; lia.
    + left. injection H as <- <- <-. auto.
Qed.

Lemma digits_value_app (a : string) :
  digits a -> forall b acc, digits_value (a ++ b) acc = digits_value b (digits_value a acc).
Proof.
  induction 1 as [c d Hc|c d s Hc _ IH]; intros b acc.
  - cbn [append digits_value]. rewrite Hc. reflexivity.
  - cbn [append digits_value]. rewrite Hc. apply IH.
Qed.

Lemma digits_length (s : string) : digits s -> (0 < String.length s)%nat.
Proof. destruct 1; cbn; lia. Qed.

Lemma some_digits_digits (ds rest : string) (acc : Z) :
  digits ds -> no_digit rest ->
  some_digits (ds ++ rest) acc
  = Some (digits_value ds acc, Z.of_nat (String.length ds), rest).
Proof.
  intros Hd Hr. unfold some_digits. rewrite (span_digits_digits ds Hd rest acc 0 Hr).
  pose proof (digits_length ds Hd).
  cbn [Z.add]. destruct (Z.of_nat (String.length ds) =? 0) eqn:E; [|reflexivity].
  apply Z.eqb_eq in E. lia.
Qed.

Lemma some_digits_inv (s : string) (acc m n : Z) (r : string) :
  some_digits s acc = Some (m, n, r) ->
  exists ds,
    digits ds /\ s = ds ++ r /\ m = digits_value ds acc /\ n = Z.of_nat (String.length ds).
Proof.
  unfold some_digits. destruct (span_digits s acc 0) as [[m' n'] r'] eqn:E.
  destruct (n' =? 0) eqn:En; [discriminate|]. intros H. injection H as <- <- <-.
  apply span_digits_inv in E. destruct E as [(_ & -> & _)|(ds & Hd & Hs & Hm & Hn)].
  - discriminate.
  - exists ds. repeat split; assumption || lia.
Qed.

(** *** Numbers *)

Lemma digits_expect (ds r : string) (c : ascii) :
  digits ds -> digit_val c = None -> expect c (ds ++ r) = None.
Proof.
  intros Hd Hc. destruct Hd as [a d Ha|a d s Ha _]; cbn [append];
    apply expect_other; apply Ascii.eqb_neq; intros ->; congruence.
Qed.

Lemma expect_head (c a : ascii) (s1 s2 : string) :
  expect c (String a s1) = None -> expect c (String a s2) = None.
Proof. unfold expect. destruct (Ascii.eqb a c); [discriminate|reflexivity]. Qed.

Lemma digits_no_digit_app (a b : string) : a <> "" -> no_digit a -> no_digit (a ++ b).
Proof. destruct a as [|c a]; [congruence|]. intros _ H. exact H. Qed.

Lemma integer_part_digits (int : string) : integer_part int -> digits int.
Proof.
  destruct 1 as [|s Hs _]; [|exact Hs].
  exact (digits_one "0" 0 eq_refl).
Qed.

Lemma optional_minus_sound (s s1 : string) (neg : bool) :
  optional_minus s = (neg, s1) ->
  exists minus,
    (minus = "" \/ minus = "-") /\ s = minus ++ s1 /\ neg = String.eqb minus "-".
Proof.
  unfold optional_minus. destruct (expect "-" s) as [r|] eqn:E; intros H; injection H as <- <-.
  - exists "-". apply expect_inv in E. auto.
  - exists "". auto.
Qed.

Lemma optional_minus_complete (minus u : string) :
  minus = "" \/ minus = "-" ->
  expect "-" u = None ->
  optional_minus (minus ++ u) = (String.eqb minus "-", u).
Proof.
  intros [->| ->] Hu; unfold optional_minus; cbn [append].
  - rewrite Hu. reflexivity.
  - rewrite expect_app. reflexivity.
Qed.

Lemma read_integer_sound (s r : string) (m : Z) :
  read_integer s = Some (m, r) ->
  exists int, integer_part int /\ s = int ++ r /\ m = digits_value int 0.
Proof.
  unfold read_integer. destruct (expect "0" s) as [r0|] eqn:E.
  - intros H. injection H as <- <-. exists "0". apply expect_inv in E.
    split; [constructor|]. auto.
  - destruct (some_digits s 0) as [[[m' n'] r']|] eqn:Ed; [|discriminate].
    intros H. injection H as <- <-.
    apply some_digits_inv in Ed as (ds & Hd & Hs & Hm & _).
    exists ds. split; [|auto]. apply integer_digits; [exact Hd|].
    subst s. destruct Hd; cbn [append] in E; exact (expect_head _ _ _ _ E).
Qed.

Lemma read_integer_complete (int rest : string) :
  integer_part int -> no_digit rest ->
  read_integer (int ++ rest) = Some (digits_value int 0, rest).
Proof.
  intros Hi Hr. unfold read_integer. destruct Hi as [|ds Hd Hz].
  - cbn [append]. rewrite expect_app. reflexivity.
  - assert (E : expect "0" (ds ++ rest) = None)
      by (destruct Hd; cbn [append] in *; exact (expect_head _ _ _ _ Hz)).
    rewrite E, (some_digits_digits ds rest 0 Hd Hr). reflexivity.
Qed.

Lemma read_fraction_sound (m : Z) (s r : string) (m' nf : Z) :
  read_fraction m s = Some (m', nf, r) ->
  exists frac fs,
    fraction_part frac fs /\ s = frac ++ r /\ m' = digits_value fs m
    /\ nf = Z.of_nat (String.length fs).
Proof.
  unfold read_fraction. destruct (expect "." s) as [r0|] eqn:E.
  - intros H. apply some_digits_inv in H as (ds & Hd & Hs & Hm & Hn).
    apply expect_inv in E. exists (String "." ds), ds.
    split; [constructor; exact Hd|]. subst. auto.
  - intros H. injection H as <- <- <-. exists "", "". split; [constructor|]. auto.
Qed.

Lemma read_fraction_complete (m : Z) (frac fs rest : string) :
  fraction_part frac fs -> no_digit rest -> expect "." rest = None ->
  read_fraction m (frac ++ rest)
  = Some (digits_value fs m, Z.of_nat (String.length fs), rest).
Proof.
  intros Hf Hr Hp. unfold read_fraction. destruct Hf as [|ds Hd].
  - cbn [append]. rewrite Hp. reflexivity.
  - cbn [append]. rewrite expect_app. exact (some_digits_digits ds rest m Hd Hr).
Qed.

Lemma read_exponent_sound (s r : string) (x : Z) :
  read_exponent s = Some (x, r) ->
  exists expo, exponent_part expo x /\ s = expo ++ r.
Proof.
  unfold read_exponent.
  assert (Hmark : forall r0,
             match expect "e" s with Some r => Some r | None => expect "E" s end = Some r0 ->
             exists e, (e = "e"%char \/ e = "E"%char) /\ s = String e r0).
  { intros r0 H. destruct (expect "e" s) as [r1|] eqn:E.
    - injection H as <-. apply expect_inv in E. exists "e"%char. auto.
    - apply expect_inv in H. exists "E"%char. auto. }
  destruct (match expect "e" s with Some r => Some r | None => expect "E" s end) as [r0|];
    [|intros H; injection H as <- <-; exists ""; split; [constructor|reflexivity]].
  destruct (Hmark r0 eq_refl) as (e & He & ->). clear Hmark.
  assert (Hsign : exists sign r1,
             (sign = "" \/ sign = "+" \/ sign = "-") /\ r0 = sign ++ r1
             /\ match expect "-" r0 with
                | Some r2 => (true, r2)
                | None => match expect "+" r0 with
                          | Some r2 => (false, r2)
                          | None => (false, r0)
                          end
                end = (String.eqb sign "-", r1)).
  { destruct (expect "-" r0) as [r2|] eqn:E1.
    - apply expect_inv in E1. exists "-", r2. auto.
    - destruct (expect "+" r0) as [r2|] eqn:E2.
      + apply expect_inv in E2. exists "+", r2. auto.
      + exists "", r0. auto. }
  destruct Hsign as (sign & r1 & Hs & -> & ->).
  destruct (some_digits r1 0) as [[[x' n'] r2]|] eqn:Ed; [|discriminate].
  intros H. injection H as <- <-.
  apply some_digits_inv in Ed as (ds & Hd & -> & -> & _).
  exists (String e (sign ++ ds)). split.
  - exact (exponent_some e sign ds He Hs Hd).
  - cbn [append]. rewrite string_app_assoc. reflexivity.
Qed.

Lemma read_exponent_complete (expo rest : string) (x : Z) :
  exponent_part expo x ->
  no_digit rest -> expect "e" rest = None -> expect "E" rest = None ->
  read_exponent (expo ++ rest) = Some (x, rest).
Proof.
  intros Hx Hr He HE. unfold read_exponent. destruct Hx as [|e sign ds Hm Hs Hd].
  - cbn [append]. rewrite He, HE. reflexivity.
  - cbn [append]. rewrite string_app_assoc.
    assert (Hno : forall c, digit_val c = None -> expect c (ds ++ rest) = None)
      by (intros c Hc; exact (digits_expect ds rest c Hd Hc)).
    destruct Hm as [-> | ->]; destruct Hs as [-> | [-> | ->]];
      cbn [append expect Ascii.eqb Bool.eqb String.eqb];
      rewrite ?(Hno "-"%char eq_refl), ?(Hno "+"%char eq_refl);
      rewrite (some_digits_digits ds rest 0 Hd Hr); reflexivity.
Qed.

Lemma parse_number_sound (s r : string) (x : value) :
  parse_number s = Some (x, r) -> exists t, json_number t x /\ s = t ++ r.
Proof.
  unfold parse_number. destruct (optional_minus s) as [neg s1] eqn:E1.
  apply optional_minus_sound in E1 as (minus & Hm & -> & ->).
  destruct (read_integer s1) as [[m s2]|] eqn:E2; [|discriminate].
  apply read_integer_sound in E2 as (int & Hi & -> & ->).
  destruct (read_fraction (digits_value int 0) s2) as [[[m' nf] s3]|] eqn:E3; [|discriminate].
  apply read_fraction_sound in E3 as (frac & fs & Hf & -> & -> & ->).
  destruct (read_exponent s3) as [[e s4]|] eqn:E4; [|discriminate].
  apply read_exponent_sound in E4 as (expo & He & ->).
  intros H. injection H as <- <-.
  exists (minus ++ int ++ frac ++ expo). split.
  - rewrite <- (digits_value_app int (integer_part_digits int Hi) fs 0).
    exact (json_number_intro minus int frac fs expo e Hm Hi Hf He).
  - rewrite !string_app_assoc. reflexivity.
Qed.

Lemma fraction_starts (frac fs rest : string) (c : ascii) :
  fraction_part frac fs -> Ascii.eqb "." c = false -> expect c rest = None ->
  expect c (frac ++ rest) = None.
Proof.
  intros Hf Hc Hr. destruct Hf; cbn [append]; [exact Hr|].
  apply expect_other. exact Hc.
Qed.

Lemma exponent_starts (expo rest : string) (x : Z) (c : ascii) :
  exponent_part expo x -> Ascii.eqb "e" c = false -> Ascii.eqb "E" c = false ->
  expect c rest = None -> expect c (expo ++ rest) = None.
Proof.
  intros Hx Hc HC Hr. destruct Hx as [|e sign ds [-> | ->] _ _]; cbn [append];
    [exact Hr| |]; apply expect_other; assumption.
Qed.

Lemma fraction_no_digit (frac fs rest : string) :
  fraction_part frac fs -> no_digit rest -> no_digit (frac ++ rest).
Proof. intros Hf Hr. destruct Hf; cbn [append]; [exact Hr|reflexivity]. Qed.

Lemma exponent_no_digit (expo rest : string) (x : Z) :
  exponent_part expo x -> no_digit rest -> no_digit (expo ++ rest).
Proof.
  intros Hx Hr. destruct Hx as [|e sign ds [-> | ->] _ _]; cbn [append];
    [exact Hr| |]; reflexivity.
Qed.

Lemma parse_number_complete (t rest : string) (x : value) :
  json_number t x -> number_ends rest -> parse_number (t ++ rest) = Some (x, rest).
Proof.
  intros Hn (Hd & Hp & He & HE).
  destruct Hn as [minus int frac fs expo e Hm Hi Hf Hx].
  unfold parse_number. rewrite !string_app_assoc.
  pose proof (integer_part_digits int Hi) as Hid.
  rewrite (optional_minus_complete minus _ Hm (digits_expect int _ "-" Hid eq_refl)).
  rewrite (read_integer_complete int _ Hi
             (fraction_no_digit frac fs _ Hf (exponent_no_digit expo rest e Hx Hd))).
  rewrite (read_fraction_complete _ frac fs _ Hf (exponent_no_digit expo rest e Hx Hd)
             (exponent_starts expo rest e "." Hx eq_refl eq_refl Hp)).
  rewrite (read_exponent_complete expo rest e Hx Hd He HE).
  rewrite <- (digits_value_app int Hid fs 0). reflexivity.
Qed.

(** *** String literals *)

Lemma string_items_complete (t : string) (l : list str_item) :
  json_chars t l ->
  forall rest, string_items (t ++ String dquote rest) = Some (l, rest).
Proof.
  induction 1 as [|c s l Hq Hb Hc _ IH|e c s l Hu He _ IH|x y z w u s l Hh _ IH];
    intros rest.
  - cbn [append string_items]. rewrite Ascii.eqb_refl. reflexivity.
  - cbn [append string_items]. rewrite Hq, Hb, Hc, IH. reflexivity.
  - cbn [append string_items]. rewrite Hu, He, IH. reflexivity.
  - cbn [append string_items]. rewrite Hh, IH. reflexivity.
Qed.

Lemma string_items_sound (n : nat) :
  forall s l r,
    (String.length s <= n)%nat ->
    string_items s = Some (l, r) ->
    exists t, json_chars t l /\ s = t ++ String dquote r.
Proof.
  induction n as [|n IH]; intros s l r Hn H.
  - destruct s; [discriminate|cbn in Hn; lia].
  - destruct s as [|c s]; [discriminate|]. cbn [string_items] in H.
    cbn [String.length] in Hn.
    destruct (Ascii.eqb c dquote) eqn:Hq.
    { injection H as <- <-. apply Ascii.eqb_eq in Hq. subst c.
      exists "". split; [constructor|reflexivity]. }
    destruct (Ascii.eqb c "\") eqn:Hb.
    { apply Ascii.eqb_eq in Hb. subst c.
      destruct s as [|e s]; [discriminate|]. cbn [String.length] in Hn.
      destruct (Ascii.eqb e "u") eqn:Hu.
      - apply Ascii.eqb_eq in Hu. subst e.
        destruct s as [|x [|y [|z [|w s]]]]; try discriminate.
        cbn [String.length] in Hn.
        destruct (hex4 x y z w) as [u|] eqn:Hh; [|discriminate].
        destruct (string_items s) as [[l' r']|] eqn:Hs; [|discriminate].
        injection H as <- <-.
        destruct (IH s l' r' ltac:(lia) Hs) as (t & Ht & ->).
        exists (String "\" (String "u" (String x (String y (String z (String w t)))))).
        split; [exact (chars_unicode x y z w u t l' Hh Ht)|reflexivity].
      - destruct (simple_escape e) as [c|] eqn:He; [|discriminate].
        destruct (string_items s) as [[l' r']|] eqn:Hs; [|discriminate].
        injection H as <- <-.
        destruct (IH s l' r' ltac:(lia) Hs) as (t & Ht & ->).
        exists (String "\" (String e t)).
        split; [exact (chars_escape e c t l' Hu He Ht)|reflexivity]. }
    destruct (nat_of_ascii c <? 32)%nat eqn:Hc; [discriminate|].
    destruct (string_items s) as [[l' r']|] eqn:Hs; [|discriminate].
    injection H as <- <-.
    destruct (IH s l' r' ltac:(lia) Hs) as (t & Ht & ->).
    exists (String c t). split; [exact (chars_raw c t l' Hq Hb Hc Ht)|reflexivity].
Qed.

Lemma parse_string_body_sound (s str r : string) :
  parse_string_body s = Some (str, r) ->
  exists t l, json_chars t l /\ str = encode_items l /\ s = t ++ String dquote r.
Proof.
  unfold parse_string_body. destruct (string_items s) as [[l r']|] eqn:E; [|discriminate].
  intros H. injection H as <- <-.
  destruct (string_items_sound _ s l r' (Nat.le_refl _) E) as (t & Ht & ->).
  exists t, l. auto.
Qed.

Lemma parse_string_body_complete (t rest : string) (l : list str_item) :
  json_chars t l ->
  parse_string_body (t ++ String dquote rest) = Some (encode_items l, rest).
Proof.
  intros H. unfold parse_string_body. rewrite (string_items_complete t l H rest).
  reflexivity.
Qed.

(** *** Values: what the reader returns is in the grammar *)

Ltac strings :=
  repeat (progress (rewrite ?string_app_assoc; cbn [append])); try reflexivity.

Lemma json_element_blank_l (w t : string) (v : value) :
  blank w -> json_element t v -> json_element (w ++ t) v.
Proof.
  intros Hw [w1 t1 w2 v1 H1 Ht H2].
  rewrite <- string_app_assoc. exact (json_element_intro _ _ _ _ (blank_app _ _ Hw H1) Ht H2).
Qed.

Lemma json_elements_blank_l (w t : string) (acc l : list value) :
  blank w -> json_elements t acc l -> json_elements (w ++ t) acc l.
Proof.
  intros Hw [t1 v acc1 He|t1 t2 v acc1 l1 He Hr].
  - exact (json_elements_last _ _ _ (json_element_blank_l _ _ _ Hw He)).
  - rewrite <- string_app_assoc.
    exact (json_elements_more _ _ _ _ _ (json_element_blank_l _ _ _ Hw He) Hr).
Qed.

Lemma json_members_blank_l (w t : string) (acc o : list (string * value)) :
  blank w -> json_members t acc o -> json_members (w ++ t) acc o.
Proof.
  intros Hw [w1 k w2 t1 items v acc1 H1 Hk H2 He
            |w1 k w2 t1 t2 items v acc1 o1 H1 Hk H2 He Hr].
  - rewrite <- string_app_assoc.
    exact (json_members_last _ _ _ _ _ _ _ (blank_app _ _ Hw H1) Hk H2 He).
  - rewrite <- string_app_assoc.
    exact (json_members_more _ _ _ _ _ _ _ _ _ (blank_app _ _ Hw H1) Hk H2 He Hr).
Qed.

Lemma parse_sound (fuel : nat) :
  (forall s v r,
      parse_value fuel s = Parsed v r ->
      exists w t, blank w /\ json_value t v /\ s = w ++ t ++ r)
  /\ (forall s acc v r,
        parse_members fuel s acc = Parsed v r ->
        exists t o, v = VObj o /\ json_members t acc o /\ s = t ++ String "}" r)
  /\ (forall s acc v r,
        parse_elements fuel s acc = Parsed v r ->
        exists t l, v = VArr l /\ json_elements t acc l /\ s = t ++ String "]" r).
Proof.
  induction fuel as [|f (IHv & IHm & IHe)];
    [repeat split; intros; discriminate|].
  split; [|split].
  - intros s v r H. cbn [parse_value] in H. cbv zeta in H.
    destruct (skip_ws_split s) as (w & Hw & Hs). exists w.
    destruct (expect "{" (skip_ws s)) as [r1|] eqn:E1.
    { apply expect_inv in E1.
      destruct (skip_ws_split r1) as (w1 & Hw1 & Hr1).
      destruct (expect "}" (skip_ws r1)) as [r2|] eqn:E2.
      - injection H as <- <-. apply expect_inv in E2.
        exists ("{" ++ w1 ++ "}"). split; [exact Hw|]. split; [constructor; exact Hw1|].
        rewrite Hs, E1, Hr1, E2 at 1. strings.
      - destruct (IHm _ _ _ _ H) as (t & o & -> & Ht & E).
        exists ("{" ++ (w1 ++ t) ++ "}"). split; [exact Hw|].
        split; [exact (json_object _ _ (json_members_blank_l _ _ _ _ Hw1 Ht))|].
        rewrite Hs, E1, Hr1, E at 1. strings. }
    destruct (expect "[" (skip_ws s)) as [r1|] eqn:E2.
    { apply expect_inv in E2.
      destruct (skip_ws_split r1) as (w1 & Hw1 & Hr1).
      destruct (expect "]" (skip_ws r1)) as [r2|] eqn:E3.
      - injection H as <- <-. apply expect_inv in E3.
        exists ("[" ++ w1 ++ "]"). split; [exact Hw|]. split; [constructor; exact Hw1|].
        rewrite Hs, E2, Hr1, E3 at 1. strings.
      - destruct (IHe _ _ _ _ H) as (t & l & -> & Ht & E).
        exists ("[" ++ (w1 ++ t) ++ "]"). split; [exact Hw|].
        split; [exact (json_array _ _ (json_elements_blank_l _ _ _ _ Hw1 Ht))|].
        rewrite Hs, E2, Hr1, E at 1. strings. }
    destruct (expect dquote (skip_ws s)) as [r1|] eqn:E3.
    { apply expect_inv in E3.
      destruct (parse_string_body r1) as [[str r2]|] eqn:E4; [|discriminate].
      injection H as <- <-.
      apply parse_string_body_sound in E4 as (t & l & Ht & -> & ->).
      exists (String dquote (t ++ String dquote "")). split; [exact Hw|].
      split; [exact (json_str _ _ Ht)|].
      rewrite Hs, E3 at 1. strings. }
    destruct (strip_prefix "true" (skip_ws s)) as [r1|] eqn:E4.
    { injection H as <- <-. apply strip_prefix_inv in E4.
      exists "true". split; [exact Hw|]. split; [constructor|].
      rewrite Hs, E4 at 1. reflexivity. }
    destruct (strip_prefix "false" (skip_ws s)) as [r1|] eqn:E5.
    { injection H as <- <-. apply strip_prefix_inv in E5.
      exists "false". split; [exact Hw|]. split; [constructor|].
      rewrite Hs, E5 at 1. reflexivity. }
    destruct (strip_prefix "null" (skip_ws s)) as [r1|] eqn:E6.
    { injection H as <- <-. apply strip_prefix_inv in E6.
      exists "null". split; [exact Hw|]. split; [constructor|].
      rewrite Hs, E6 at 1. reflexivity. }
    destruct (parse_number (skip_ws s)) as [[x r1]|] eqn:E7; [|discriminate].
    injection H as <- <-. apply parse_number_sound in E7 as (t & Ht & E7).
    exists t. split; [exact Hw|]. split; [exact (json_num _ _ Ht)|].
    rewrite Hs, E7 at 1. reflexivity.
  - intros s acc v r H. cbn [parse_members] in H.
    destruct (expect dquote s) as [r0|] eqn:E0; [|discriminate].
    apply expect_inv in E0.
    destruct (parse_string_body r0) as [[k r1]|] eqn:E1; [|discriminate].
    apply parse_string_body_sound in E1 as (kt & items & Hk & -> & E1).
    destruct (skip_ws_split r1) as (w1 & Hw1 & Hr1).
    destruct (expect ":" (skip_ws r1)) as [r2|] eqn:E2; [|discriminate].
    apply expect_inv in E2.
    destruct (parse_value f r2) as [v1 r3| |] eqn:E3; try discriminate.
    destruct (IHv _ _ _ E3) as (wv & tv & Hwv & Htv & Hr2).
    destruct (skip_ws_split r3) as (w3 & Hw3 & Hr3).
    pose proof (json_element_intro wv tv w3 v1 Hwv Htv Hw3) as He.
    destruct (expect "," (skip_ws r3)) as [r4|] eqn:E4.
    + apply expect_inv in E4.
      destruct (skip_ws_split r4) as (w4 & Hw4 & Hr4).
      destruct (IHm _ _ _ _ H) as (t' & o & -> & Ht' & E5).
      exists (String dquote (kt ++ String dquote
                (w1 ++ ":" ++ (wv ++ tv ++ w3) ++ "," ++ (w4 ++ t')))), o.
      split; [reflexivity|]. split.
      * exact (json_members_more "" _ _ _ _ _ _ _ _ blank_nil Hk Hw1 He
                 (json_members_blank_l _ _ _ _ Hw4 Ht')).
      * rewrite E0, E1, Hr1, E2, Hr2, Hr3, E4, Hr4, E5 at 1. strings.
    + destruct (expect "}" (skip_ws r3)) as [r4|] eqn:E5; [|discriminate].
      injection H as <- <-. apply expect_inv in E5.
      exists (String dquote (kt ++ String dquote (w1 ++ ":" ++ (wv ++ tv ++ w3)))).
      eexists. split; [reflexivity|]. split.
      * exact (json_members_last "" _ _ _ _ _ _ blank_nil Hk Hw1 He).
      * rewrite E0, E1, Hr1, E2, Hr2, Hr3, E5 at 1. strings.
  - intros s acc v r H. cbn [parse_elements] in H.
    destruct (parse_value f s) as [v1 r1| |] eqn:E1; try discriminate.
    destruct (IHv _ _ _ E1) as (wv & tv & Hwv & Htv & Hs).
    destruct (skip_ws_split r1) as (w1 & Hw1 & Hr1).
    pose proof (json_element_intro wv tv w1 v1 Hwv Htv Hw1) as He.
    destruct (expect "," (skip_ws r1)) as [r2|] eqn:E2.
    + apply expect_inv in E2.
      destruct (IHe _ _ _ _ H) as (t' & l & -> & Ht' & E3).
      exists ((wv ++ tv ++ w1) ++ "," ++ t'), l. split; [reflexivity|].
      split; [exact (json_elements_more _ _ _ _ _ He Ht')|].
      rewrite Hs, Hr1, E2, E3 at 1. strings.
    + destruct (expect "]" (skip_ws r1)) as [r2|] eqn:E3; [|discriminate].
      injection H as <- <-. apply expect_inv in E3.
      exists (wv ++ tv ++ w1). eexists. split; [reflexivity|].
      split; [exact (json_elements_last _ _ _ He)|].
      rewrite Hs, Hr1, E3 at 1. strings.
Qed.

(** *** Values: what is in the grammar is read *)

Lemma is_ws_cases (c : ascii) :
  is_ws c = true -> c = " "%char \/ c = "009"%char \/ c = "010"%char \/ c = "013"%char.
Proof.
  unfold is_ws. intros H.
  repeat (apply orb_true_iff in H as [H|H]);
    apply Ascii.eqb_eq in H; auto.
Qed.

Lemma value_ends_number (rest : string) : value_ends rest -> number_ends rest.
Proof.
  destruct rest as [|c r]; [repeat split|].
  cbn [value_ends]. intros [H|[-> |[-> | ->]]]; [|repeat split..].
  apply is_ws_cases in H as [-> |[-> |[-> | ->]]]; repeat split.
Qed.

Lemma value_ends_comma (r : string) : value_ends (String "," r).
Proof. right. left. reflexivity. Qed.

Lemma value_ends_bracket (r : string) : value_ends (String "]" r).
Proof. right. right. left. reflexivity. Qed.

Lemma value_ends_brace (r : string) : value_ends (String "}" r).
Proof. right. right. right. reflexivity. Qed.

Lemma value_ends_blank (w rest : string) :
  blank w -> value_ends rest -> value_ends (w ++ rest).
Proof. intros [|c s Hc _] Hr; [exact Hr|]. left. exact Hc. Qed.

Lemma digit_opens (c : ascii) (d : Z) : digit_val c = Some d -> opens c.
Proof.
  intros H. unfold opens, is_ws.
  rewrite (digit_not c " " d H), (digit_not c "009" d H), (digit_not c "010" d H),
    (digit_not c "013" d H), (digit_not c "]" d H), (digit_not c "}" d H),
    (digit_not c "," d H) by (cbn; lia).
  repeat split.
Qed.

Lemma digits_opens (ds : string) :
  digits ds -> exists c r d, ds = String c r /\ digit_val c = Some d.
Proof. destruct 1 as [c d Hc|c d s Hc _]; eauto. Qed.

Lemma json_number_opens (t : string) (x : value) :
  json_number t x ->
  exists c r, t = String c r /\ (c = "-"%char \/ exists d, digit_val c = Some d).
Proof.
  destruct 1 as [minus int frac fs expo e Hm Hi Hf Hx].
  destruct (digits_opens int (integer_part_digits int Hi)) as (c & r & d & -> & Hc).
  destruct Hm as [-> | ->]; cbn [append].
  - eexists. eexists. split; [reflexivity|]. right. exists d. exact Hc.
  - eexists. eexists. split; [reflexivity|]. left. reflexivity.
Qed.

Lemma json_value_opens (t : string) (v : value) :
  json_value t v -> exists c r, t = String c r /\ opens c.
Proof.
  destruct 1 as [| | |t x Hn|t l Hc|w Hw|t l He|w Hw|t o Hm];
    try (eexists; eexists; split; [reflexivity|repeat split]).
  destruct (json_number_opens t x Hn) as (c & r & -> & [-> |(d & Hd)]).
  - eexists; eexists; split; [reflexivity|repeat split].
  - eexists; eexists; split; [reflexivity|exact (digit_opens c d Hd)].
Qed.

Lemma skip_ws_value (w t rest : string) (v : value) :
  blank w -> json_value t v -> skip_ws (w ++ t ++ rest) = t ++ rest.
Proof.
  intros Hw Ht. rewrite (skip_ws_blank _ _ Hw).
  destruct (json_value_opens t v Ht) as (c & r & -> & Hc & _).
  cbn [append]. exact (skip_ws_stays c _ Hc).
Qed.

Lemma skip_ws_mark (w rest : string) (c : ascii) :
  blank w -> is_ws c = false -> skip_ws (w ++ String c rest) = String c rest.
Proof. intros Hw Hc. rewrite (skip_ws_blank _ _ Hw). exact (skip_ws_stays c _ Hc). Qed.

Lemma parse_value_skip_ws (fuel : nat) (s : string) :
  parse_value fuel (skip_ws s) = parse_value fuel s.
Proof.
  destruct fuel as [|f]; [reflexivity|].
  cbn [parse_value]. cbv zeta. rewrite skip_ws_idem. reflexivity.
Qed.

Lemma parse_elements_skip_ws (fuel : nat) (s : string) (acc : list value) :
  parse_elements fuel (skip_ws s) acc = parse_elements fuel s acc.
Proof.
  destruct fuel as [|f]; [reflexivity|].
  cbn [parse_elements]. rewrite parse_value_skip_ws. reflexivity.
Qed.

(** The number reader is reached only by a text that starts like a
    number. *)
Lemma parse_value_number (f : nat) (t rest : string) (x : value) :
  json_number t x -> number_ends rest ->
  parse_value (S f) (t ++ rest) = Parsed x rest.
Proof.
  intros Hn Hr. pose proof (parse_number_complete t rest x Hn Hr) as Hp.
  destruct (json_number_opens t x Hn) as (c & r & -> & Hc).
  cbn [append] in *. cbn [parse_value]. cbv zeta.
  assert (Hws : is_ws c = false /\ Ascii.eqb c "{" = false /\ Ascii.eqb c "[" = false
                /\ Ascii.eqb c dquote = false /\ Ascii.eqb "t" c = false
                /\ Ascii.eqb "f" c = false /\ Ascii.eqb "n" c = false).
  { destruct Hc as [-> |(d & Hd)]; [repeat split|].
    unfold is_ws.
    rewrite (digit_not c " " d Hd), (digit_not c "009" d Hd), (digit_not c "010" d Hd),
      (digit_not c "013" d Hd), (digit_not c "{" d Hd), (digit_not c "[" d Hd),
      (digit_not c dquote d Hd) by (cbn; lia).
    rewrite (Ascii.eqb_sym "t" c), (Ascii.eqb_sym "f" c), (Ascii.eqb_sym "n" c).
    rewrite (digit_not c "t" d Hd), (digit_not c "f" d Hd), (digit_not c "n" d Hd)
      by (cbn; lia).
    repeat split. }
  destruct Hws as (H0 & H1 & H2 & H3 & H4 & H5 & H6).
  rewrite (skip_ws_stays c _ H0).
  rewrite (expect_other "{" c _ H1), (expect_other "[" c _ H2), (expect_other dquote c _ H3).
  cbn [strip_prefix]. rewrite H4, H5, H6, Hp. reflexivity.
Qed.

Lemma parse_complete (fuel : nat) :
  (forall w t v rest,
      blank w -> json_value t v -> value_ends rest ->
      agrees (parse_value fuel (w ++ t ++ rest)) v rest)
  /\ (forall t acc o rest,
        json_members t acc o ->
        agrees (parse_members fuel (skip_ws (t ++ String "}" rest)) acc) (VObj o) rest)
  /\ (forall t acc l rest,
        json_elements t acc l ->
        agrees (parse_elements fuel (t ++ String "]" rest) acc) (VArr l) rest).
Proof.
  induction fuel as [|f (IHv & IHm & IHe)];
    [repeat split; intros; right; reflexivity|].
  split; [|split].
  - intros w t v rest Hw Ht Hr.
    assert (Hskip : parse_value (S f) (w ++ t ++ rest) = parse_value (S f) (t ++ rest)).
    { rewrite <- (parse_value_skip_ws (S f) (w ++ t ++ rest)).
      rewrite (skip_ws_value w t rest v Hw Ht). reflexivity. }
    rewrite Hskip. clear Hskip w Hw.
    destruct Ht as [| | |t x Hn|t l Hc|w Hw|t l He|w Hw|t o Hm].
    + left. reflexivity.
    + left. reflexivity.
    + left. reflexivity.
    + left. exact (parse_value_number f t rest x Hn (value_ends_number rest Hr)).
    + left. cbn [append]. rewrite string_app_assoc. cbn [append].
      cbn [parse_value]. cbv zeta. rewrite (skip_ws_stays dquote _ eq_refl).
      rewrite (expect_other "{" dquote _ eq_refl), (expect_other "[" dquote _ eq_refl).
      rewrite expect_app, (parse_string_body_complete t rest l Hc). reflexivity.
    + left. strings. cbn [parse_value]. cbv zeta.
      rewrite (skip_ws_stays "[" _ eq_refl), (expect_other "{" "[" _ eq_refl), expect_app.
      rewrite (skip_ws_mark w rest "]" Hw eq_refl), expect_app. reflexivity.
    + strings. cbn [parse_value]. cbv zeta.
      rewrite (skip_ws_stays "[" _ eq_refl), (expect_other "{" "[" _ eq_refl), expect_app.
      assert (Hno : expect "]" (skip_ws (t ++ String "]" rest)) = None).
      { destruct He as [t1 v acc [w1 t2 w2 v2 H1 Ht2 H2]
                       |t1 t3 v acc l1 [w1 t2 w2 v2 H1 Ht2 H2] _];
          destruct (json_value_opens t2 v2 Ht2) as (c & r & -> & Hc & Hb & _);
          rewrite ?string_app_assoc; rewrite (skip_ws_blank _ _ H1);
          cbn [append]; rewrite (skip_ws_stays c _ Hc);
          exact (expect_other "]" c _ Hb). }
      rewrite Hno, parse_elements_skip_ws. exact (IHe t [] l rest He).
    + left. strings. cbn [parse_value]. cbv zeta.
      rewrite (skip_ws_stays "{" _ eq_refl), expect_app.
      rewrite (skip_ws_mark w rest "}" Hw eq_refl), expect_app. reflexivity.
    + strings. cbn [parse_value]. cbv zeta.
      rewrite (skip_ws_stays "{" _ eq_refl), expect_app.
      assert (Hno : expect "}" (skip_ws (t ++ String "}" rest)) = None).
      { destruct Hm as [w1 k w2 t1 items v acc H1 _ _ _
                       |w1 k w2 t1 t2 items v acc o1 H1 _ _ _ _];
          rewrite ?string_app_assoc; rewrite (skip_ws_blank _ _ H1);
          cbn [append]; reflexivity. }
      rewrite Hno. exact (IHm t [] o rest Hm).
  - intros t acc o rest Hm.
    destruct Hm as [w1 k w2 t1 items v acc H1 Hk H2 [wv tv wv' v' Hwv Htv Hwv']
                   |w1 k w2 t1 t2 items v acc o1 H1 Hk H2 [wv tv wv' v' Hwv Htv Hwv'] Hr].
    + strings. rewrite (skip_ws_blank _ _ H1).
      rewrite (skip_ws_stays dquote _ eq_refl).
      cbn [parse_members]. rewrite expect_app.
      rewrite (parse_string_body_complete k _ items Hk).
      rewrite (skip_ws_mark w2 _ ":" H2 eq_refl), expect_app.
      destruct (IHv wv tv v' (wv' ++ String "}" rest) Hwv Htv
                  (value_ends_blank _ _ Hwv' (value_ends_brace _)))
        as [E|E]; rewrite E; [|right; reflexivity].
      rewrite (skip_ws_mark wv' rest "}" Hwv' eq_refl).
      left. reflexivity.
    + strings. rewrite (skip_ws_blank _ _ H1).
      rewrite (skip_ws_stays dquote _ eq_refl).
      cbn [parse_members]. rewrite expect_app.
      rewrite (parse_string_body_complete k _ items Hk).
      rewrite (skip_ws_mark w2 _ ":" H2 eq_refl), expect_app.
      destruct (IHv wv tv v' (wv' ++ String "," (t2 ++ String "}" rest)) Hwv Htv
                  (value_ends_blank _ _ Hwv' (value_ends_comma _)))
        as [E|E]; rewrite E; [|right; reflexivity].
      rewrite (skip_ws_mark wv' _ "," Hwv' eq_refl), expect_app.
      exact (IHm t2 _ o1 rest Hr).
  - intros t acc l rest He.
    destruct He as [t1 v acc [wv tv wv' v' Hwv Htv Hwv']
                   |t1 t3 v acc l1 [wv tv wv' v' Hwv Htv Hwv'] Hr].
    + strings. cbn [parse_elements].
      destruct (IHv wv tv v' (wv' ++ String "]" rest) Hwv Htv
                  (value_ends_blank _ _ Hwv' (value_ends_bracket _)))
        as [E|E]; rewrite E; [|right; reflexivity].
      rewrite (skip_ws_mark wv' rest "]" Hwv' eq_refl).
      left. reflexivity.
    + strings. cbn [parse_elements].
      destruct (IHv wv tv v' (wv' ++ String "," (t3 ++ String "]" rest)) Hwv Htv
                  (value_ends_blank _ _ Hwv' (value_ends_comma _)))
        as [E|E]; rewrite E; [|right; reflexivity].
      rewrite (skip_ws_mark wv' _ "," Hwv' eq_refl), expect_app.
      exact (IHe t3 _ l1 rest Hr).
Qed.

(** *** [JSON.parse] and the grammar *)

Lemma blank_value_ends (w : string) : blank w -> value_ends w.
Proof. intros [|c s Hc _]; [exact I|]. left. exact Hc. Qed.

Lemma JSON_parse_outcome (wording : string -> string) (text : string) :
  (exists v, JSON_parse wording text = Return v)
  \/ JSON_parse wording text = Throw (SyntaxError (wording text)).
Proof.
  unfold JSON_parse.
  destruct (parse_value _ text) as [v rest| |]; [|right; reflexivity..].
  destruct (skip_ws rest); [left; exists v|right]; reflexivity.
Qed.

Lemma JSON_parse_throws (wording : string -> string) (text : string) (e : exn) :
  JSON_parse wording text = Throw e -> e = SyntaxError (wording text).
Proof.
  intros H. destruct (JSON_parse_outcome wording text) as [(v & E)|E];
    rewrite E in H; [discriminate|]. injection H as <-. reflexivity.
Qed.

Lemma JSON_parse_sound (wording : string -> string) (text : string) (v : value) :
  JSON_parse wording text = Return v -> json_text text v.
Proof.
  unfold JSON_parse.
  destruct (parse_value _ text) as [v' rest| |] eqn:E; try discriminate.
  destruct (skip_ws rest) eqn:Er; [|discriminate].
  intros H. injection H as ->.
  destruct (proj1 (parse_sound _) _ _ _ E) as (w & t & Hw & Ht & ->).
  exact (json_element_intro w t rest v Hw Ht (skip_ws_nil_blank rest Er)).
Qed.

Lemma JSON_parse_complete (wording : string -> string) (text : string) (v : value) :
  json_text text v -> JSON_parse wording text = Return v.
Proof.
  intros [w t w' v' Hw Ht Hw']. unfold JSON_parse.
  destruct (proj1 (parse_complete (2 * String.length (w ++ t ++ w') + 1)) w t v' w' Hw Ht
              (blank_value_ends w' Hw'))
    as [E|E].
  - rewrite E, (blank_skip_ws w' Hw'). reflexivity.
  - exfalso. exact (proj1 (JSON_parse_fuel (w ++ t ++ w')) E).
Qed.

(** The texts that [JSON.parse] accepts are the texts of the grammar,
    with the values that the grammar gives them; on every other text it
    throws a [SyntaxError]. *)
Lemma JSON_parse_spec (wording : string -> string) (text : string) :
  (forall v, JSON_parse wording text = Return v <-> json_text text v)
  /\ ((forall v, ~ json_text text v) <->
      JSON_parse wording text = Throw (SyntaxError (wording text))).
Proof.
  split.
  - intros v. split; [apply JSON_parse_sound|apply JSON_parse_complete].
  - split.
    + intros Hno. destruct (JSON_parse_outcome wording text) as [(v & E)|E]; [|exact E].
      exfalso. exact (Hno v (JSON_parse_sound wording text v E)).
    + intros E v Hv. rewrite (JSON_parse_complete wording text v Hv) in E. discriminate.
Qed.

(** ** Numbers *)

Lemma pow2_pos (e : Z) : (0 < pow2 e)%Q.
Proof.
  unfold pow2. destruct (0 <=? e) eqn:E.
  - apply Z.leb_le in E. unfold Qlt. cbn. rewrite Z.mul_1_r.
    apply Z.pow_pos_nonneg; lia.
  - reflexivity.
Qed.

Lemma pow2_nonneg_exponent (e : Z) : 0 <= e -> pow2 e = inject_Z (2 ^ e).
Proof. intros H. unfold pow2. apply Z.leb_le in H. rewrite H. reflexivity. Qed.

Lemma pow2_nonpos_exponent (e : Z) :
  e <= 0 -> (pow2 e * inject_Z (2 ^ (- e)) == 1)%Q.
Proof.
  intros H. unfold pow2. destruct (0 <=? e) eqn:E.
  - apply Z.leb_le in E. assert (e = 0) as -> by lia. reflexivity.
  - assert (Hp : 0 < 2 ^ (- e)) by (apply Z.pow_pos_nonneg; lia).
    unfold Qeq, Qmult, inject_Z. cbn [Qnum Qden].
    rewrite Pos.mul_1_r, Z2Pos.id by exact Hp. lia.
Qed.

Lemma round_half_even_integer (x : Q) (k : Z) :
  (x == inject_Z k)%Q -> round_half_even x = k.
Proof.
  intros H. unfold round_half_even.
  assert (Hf : Qfloor x = k) by (rewrite H; apply Qfloor_Z).
  rewrite Hf.
  assert (Hc : ((x - inject_Z k) ?= (1 # 2))%Q = Lt).
  { rewrite H. apply Qlt_alt. setoid_replace (inject_Z k - inject_Z k)%Q with 0%Q by ring.
    reflexivity. }
  rewrite Hc. reflexivity.
Qed.

Lemma Qle_bool_false (a b : Q) : (b < a)%Q -> Qle_bool a b = false.
Proof.
  intros H. destruct (Qle_bool a b) eqn:E; [|reflexivity].
  apply Qle_bool_iff in E. exfalso. exact (Qlt_not_le _ _ H E).
Qed.

(** An integer of at most 53 bits is a binary64 number. *)
Lemma nearest_natural (n : Z) :
  0 < n <= 2 ^ 53 ->
  exists x, (x == inject_Z n)%Q
            /\ (let e := Z.max (binary_exponent (inject_Z n) - 52) (-1074) in
                inject_Z (round_half_even (inject_Z n / pow2 e)) * pow2 e)%Q = x.
Proof.
  intros Hn. eexists. split; [|reflexivity]. cbv zeta.
  assert (Hl : 0 <= Z.log2 n <= 53).
  { split; [apply Z.log2_nonneg|].
    rewrite <- (Z.log2_pow2 53) by lia. apply Z.log2_le_mono. lia. }
  assert (He : binary_exponent (inject_Z n) = Z.log2 n).
  { unfold binary_exponent. cbn [Qnum Qden inject_Z]. change (Z.log2 1) with 0.
    rewrite Z.sub_0_r.
    assert (E : Qle_bool (pow2 (Z.log2 n)) (inject_Z n) = true).
    { apply Qle_bool_iff. rewrite pow2_nonneg_exponent by lia.
      rewrite <- Zle_Qle. apply Z.log2_spec. lia. }
    rewrite E. reflexivity. }
  rewrite He. rewrite Z.max_l by lia.
  set (e := Z.log2 n - 52).
  assert (Hk : exists k, (inject_Z k * pow2 e == inject_Z n)%Q).
  { destruct (Z_le_gt_dec e 0) as [Hle|Hgt].
    - exists (n * 2 ^ (- e)). rewrite inject_Z_mult.
      rewrite <- Qmult_assoc, (Qmult_comm (inject_Z (2 ^ (- e)))).
      rewrite (pow2_nonpos_exponent e Hle). ring.
    - assert (e = 1) by (unfold e in *; lia).
      assert (Hn53 : n = 2 ^ 53).
      { assert (2 ^ Z.log2 n <= n) by (apply Z.log2_spec; lia).
        assert (Z.log2 n = 53) as E53 by (unfold e in *; lia).
        rewrite E53 in *. lia. }
      exists (2 ^ 52). rewrite H, Hn53. reflexivity. }
  destruct Hk as (k & Hk).
  assert (Hdiv : (inject_Z n / pow2 e == inject_Z k)%Q).
  { rewrite <- Hk. field. pose proof (pow2_pos e) as Hp.
    intros E. rewrite E in Hp. discriminate. }
  rewrite (round_half_even_integer _ k Hdiv). exact Hk.
Qed.

Lemma nearest_integer (z : Z) : Z.abs z <= 2 ^ 53 -> nearest (inject_Z z) = Some (num z).
Proof.
  intros Hz. unfold nearest.
  destruct (Z.eq_dec z 0) as [-> |Hne]; [reflexivity|].
  assert (E0 : Qeq_bool (inject_Z z) 0 = false).
  { destruct (Qeq_bool (inject_Z z) 0) eqn:E; [|reflexivity].
    apply Qeq_bool_iff in E. unfold Qeq in E. cbn in E. lia. }
  rewrite E0. cbv zeta.
  assert (Ha : Qabs (inject_Z z) = inject_Z (Z.abs z)) by reflexivity.
  rewrite Ha.
  destruct (nearest_natural (Z.abs z) ltac:(lia)) as (x & Hx & Ex).
  cbv zeta in Ex. rewrite Ex.
  assert (Hov : Qle_bool (pow2 1024) x = false).
  { apply Qle_bool_false. rewrite Hx. rewrite pow2_nonneg_exponent by lia.
    rewrite <- Zlt_Qlt. apply Z.le_lt_trans with (2 ^ 53); [exact Hz|].
    apply Z.pow_lt_mono_r; lia. }
  rewrite Hov. f_equal. unfold num. apply Q2Qc_eq_iff. rewrite Qred_correct.
  destruct (Qle_bool 0 (inject_Z z)) eqn:Es.
  - apply Qle_bool_iff in Es. change (inject_Z 0 <= inject_Z z)%Q in Es.
    rewrite <- Zle_Qle in Es.
    rewrite Hx, Z.abs_eq by exact Es. reflexivity.
  - assert (z < 0).
    { destruct (Z_lt_ge_dec z 0) as [H|H]; [exact H|].
      assert (Qle_bool 0 (inject_Z z) = true) as E
        by (apply Qle_bool_iff; change (inject_Z 0 <= inject_Z z)%Q;
            rewrite <- Zle_Qle; lia).
      congruence. }
    rewrite Hx, Z.abs_neq by lia. rewrite inject_Z_opp. ring.
Qed.

Lemma binary64_integer (z : Z) : Z.abs z <= 2 ^ 53 -> binary64 (inject_Z z) = VNum (num z).
Proof. intros H. unfold binary64. rewrite (nearest_integer z H). reflexivity. Qed.

Lemma num_this (z : Z) : this (num z) = inject_Z z.
Proof.
  unfold num. cbn [this Q2Qc]. apply Qred_identity. apply Z.gcd_1_r.
Qed.

Lemma num_plus (a b : Z) : (num a + num b)%Qc = num (a + b).
Proof.
  apply Qc_is_canon. unfold num. cbn [this Qcplus Q2Qc].
  rewrite !Qred_correct, inject_Z_plus. reflexivity.
Qed.

(** Integers add exactly as long as the sum has at most 53 bits. *)
Lemma number_add_integers (a b : Z) :
  Z.abs (a + b) <= 2 ^ 53 ->
  number_add (VNum (num a)) (VNum (num b)) = VNum (num (a + b)).
Proof.
  intros H. cbn [number_add]. rewrite num_plus, num_this.
  exact (binary64_integer (a + b) H).
Qed.

(** ** Running the monad *)

Lemma advanced_nothing (jobId : nat) (w : World) : advanced jobId [] [] w = w.
Proof. destruct w. unfold advanced. simpl. rewrite !app_nil_r. reflexivity. Qed.

Lemma advanced_advanced (jobId : nat) (r1 r2 : list (Qc * string))
  (q1 q2 : list Request) (w : World) :
  advanced jobId r2 q2 (advanced jobId r1 q1 w) = advanced jobId (r1 ++ r2) (q1 ++ q2) w.
Proof.
  unfold advanced, written. simpl.
  rewrite fold_left_app, !app_assoc. reflexivity.
Qed.

Lemma updateProgress_run (jobId : nat) (p : Qc) (s : string) (env : Env) (w : World) :
  updateProgress jobId p s env w = (Return tt, advanced jobId [(p, s)] [] w).
Proof.
  unfold updateProgress, bind, log_report, update_research_jobs, advanced. simpl.
  rewrite app_nil_r. reflexivity.
Qed.

Lemma anthropic_messages_create_run (jobId : nat) (req : Request) (env : Env) (w : World) :
  anthropic_messages_create req env w
  = (create_message env (List.length (requests w)) req, advanced jobId [] [req] w).
Proof.
  unfold anthropic_messages_create, advanced. simpl.
  rewrite app_nil_r. reflexivity.
Qed.

Lemma tick_ticks (n : nat) : forall w, tick (ticks n w) = ticks (S n) w.
Proof.
  induction n as [|n IH]; intros w; [reflexivity|].
  change (ticks (S n) w) with (ticks n (tick w)). rewrite IH. reflexivity.
Qed.

Lemma clock_ticks (n : nat) : forall w, clock (ticks n w) = (n + clock w)%nat.
Proof.
  induction n as [|n IH]; intros w; [reflexivity|].
  change (ticks (S n) w) with (ticks n (tick w)). rewrite IH. simpl. lia.
Qed.

Lemma rows_ticks (n : nat) : forall w, research_jobs (ticks n w) = research_jobs w.
Proof.
  induction n as [|n IH]; intros w; [reflexivity|].
  change (ticks (S n) w) with (ticks n (tick w)). rewrite IH. reflexivity.
Qed.

Lemma reported_ticks (n : nat) : forall w, reported (ticks n w) = reported w.
Proof.
  induction n as [|n IH]; intros w; [reflexivity|].
  change (ticks (S n) w) with (ticks n (tick w)). rewrite IH. reflexivity.
Qed.

Lemma requests_ticks (n : nat) : forall w, requests (ticks n w) = requests w.
Proof.
  induction n as [|n IH]; intros w; [reflexivity|].
  change (ticks (S n) w) with (ticks n (tick w)). rewrite IH. reflexivity.
Qed.

Lemma ticks_ticks (a b : nat) (w : World) : ticks a (ticks b w) = ticks (a + b) w.
Proof.
  revert w. induction b as [|b IH]; intros w.
  - rewrite Nat.add_0_r. reflexivity.
  - rewrite Nat.add_succ_r. cbn [ticks]. apply IH.
Qed.

(** ** Reading properties *)

Lemma js_or_object (v : value) : nullish (js_or v (VObj [])) = false.
Proof.
  unfold js_or. destruct v; simpl; try reflexivity.
  - destruct b; reflexivity.
  - destruct (negb (Qeq_bool q 0)); reflexivity.
  - destruct (negb (s =? "")%string); reflexivity.
Qed.

Lemma get_prop_defined (v : value) (k : string) :
  nullish v = false -> get_prop v k = Return (opt_get v k).
Proof. destruct v; simpl; intros H; try discriminate; reflexivity. Qed.

Lemma section_field_defined (v : value) (section field : string) :
  nullish v = false ->
  section_field v section field = Return (opt_get (opt_get v section) field).
Proof.
  intros H. unfold section_field. rewrite (get_prop_defined v section H). reflexivity.
Qed.

Lemma bind_lift_return {A B : Type} (a : A) (k : A -> M B) (env : Env) (w : World) :
  bind (lift (Return a)) k env w = k a env w.
Proof. reflexivity. Qed.

Lemma bind_lift {A B : Type} (o : outcome A) (k : A -> M B) (env : Env) (w : World) :
  bind (lift o) k env w
  = match o with
    | Return a => k a env w
    | Throw e => (Throw e, w)
    end.
Proof. destruct o; reflexivity. Qed.

(** ** The Page Assembler, page by page *)

Lemma mainPage_eq (city : City.t) (o : list (string * value)) (env : Env) (w : World) :
  mainPage city (VObj o) env w
  = match total_words (main_of (VObj o)) main_keys with
    | Return wordCount =>
        (Return (main_page city (main_of (VObj o)) wordCount (now env (clock w))), tick w)
    | Throw e => (Throw e, w)
    end.
Proof.
  unfold mainPage.
  change (get_prop (VObj o) "main") with (Return (opt_get (VObj o) "main")).
  rewrite bind_lift_return.
  pose proof (js_or_object (opt_get (VObj o) "main")) as Hm.
  fold (main_of (VObj o)) in *.
  set (ms := main_of (VObj o)) in *.
  rewrite !(section_field_defined ms _ _ Hm). rewrite !bind_lift_return.
  unfold total_words, word_counts, main_keys. cbn [map mainSections MainSpec.key add_all].
  rewrite bind_lift.
  destruct (js_add _ _) as [s2|e]; [|reflexivity]. rewrite bind_lift.
  destruct (js_add s2 _) as [s3|e]; [|reflexivity]. rewrite bind_lift.
  destruct (js_add s3 _) as [s4|e]; [|reflexivity]. rewrite bind_lift.
  destruct (js_add s4 _) as [s5|e]; [|reflexivity]. rewrite bind_lift.
  destruct (js_add s5 _) as [s6|e]; [|reflexivity].
  reflexivity.
Qed.

Lemma neighborhoodPage_eq (city : City.t) (o : list (string * value))
  (neighborhood : string) (env : Env) (w : World) :
  neighborhoodPage city (VObj o) neighborhood env w
  = match total_words (neighborhood_of (VObj o) neighborhood) neighborhood_keys with
    | Return wordCount =>
        (Return (neighborhood_page city neighborhood (neighborhood_of (VObj o) neighborhood)
                   wordCount (now env (clock w))),
         tick w)
    | Throw e => (Throw e, w)
    end.
Proof.
  unfold neighborhoodPage. cbv zeta.
  set (key := "neighborhood_" ++ neighborhood).
  change (get_prop (VObj o) key) with (Return (opt_get (VObj o) key)).
  rewrite bind_lift_return.
  pose proof (js_or_object (opt_get (VObj o) key)) as Hn.
  fold (neighborhood_of (VObj o) neighborhood) in *.
  set (ns := neighborhood_of (VObj o) neighborhood) in *.
  rewrite !(section_field_defined ns _ _ Hn). rewrite !bind_lift_return.
  unfold total_words, word_counts, neighborhood_keys.
  cbn [map neighborhoodSections NeighborhoodSpec.key add_all].
  rewrite bind_lift.
  destruct (js_add _ _) as [s2|e]; [|reflexivity]. rewrite bind_lift.
  destruct (js_add s2 _) as [s3|e]; [|reflexivity].
  reflexivity.
Qed.

(** ** The pages of the neighborhoods *)

Lemma neighborhoodPages_return (city : City.t) (o : list (string * value))
  (l : list string) :
  Forall (fun n => summable (neighborhood_of (VObj o) n) neighborhood_keys) l ->
  forall env w,
    mapM (neighborhoodPage city (VObj o)) l env w
    = (Return (neighborhood_pages city (VObj o) (now env) (clock w) l),
       ticks (List.length l) w).
Proof.
  induction 1 as [|n r (wc & Hn) _ IH]; intros env w; [reflexivity|].
  cbn [mapM neighborhood_pages List.length ticks]. unfold bind at 1.
  rewrite neighborhoodPage_eq, Hn. unfold bind at 1. rewrite IH. reflexivity.
Qed.

Lemma neighborhoodPages_throw (city : City.t) (o : list (string * value))
  (l : list string) :
  forall env w e w',
    mapM (neighborhoodPage city (VObj o)) l env w = (Throw e, w') ->
    exists i n,
      nth_error l i = Some n
      /\ total_words (neighborhood_of (VObj o) n) neighborhood_keys = Throw e
      /\ Forall (fun n => summable (neighborhood_of (VObj o) n) neighborhood_keys)
           (firstn i l)
      /\ w' = ticks i w.
Proof.
  induction l as [|n r IH]; intros env w e w' H; [discriminate|].
  cbn [mapM] in H. unfold bind at 1 in H. rewrite neighborhoodPage_eq in H.
  destruct (total_words (neighborhood_of (VObj o) n) neighborhood_keys) as [wc|e0] eqn:En.
  - unfold bind at 1 in H.
    destruct (mapM (neighborhoodPage city (VObj o)) r env (tick w)) as [[ps|e1] w1] eqn:Er;
      [discriminate|].
    apply pair_eq_inv in H as [H <-]. injection H as <-.
    destruct (IH _ _ _ _ Er) as (i & m & Hi & Hm & Hf & ->).
    exists (S i), m. split; [exact Hi|]. split; [exact Hm|]. split; [|reflexivity].
    cbn [firstn]. constructor; [exists wc; exact En|exact Hf].
  - apply pair_eq_inv in H as [H <-]. injection H as <-.
    exists 0%nat, n. repeat split; [exact En|constructor].
Qed.

Lemma neighborhoodPages_returned (city : City.t) (o : list (string * value))
  (l : list string) :
  forall env w ps w',
    mapM (neighborhoodPage city (VObj o)) l env w = (Return ps, w') ->
    Forall (fun n => summable (neighborhood_of (VObj o) n) neighborhood_keys) l.
Proof.
  induction l as [|n r IH]; intros env w ps w' H; [constructor|].
  cbn [mapM] in H. unfold bind at 1 in H. rewrite neighborhoodPage_eq in H.
  destruct (total_words (neighborhood_of (VObj o) n) neighborhood_keys) as [wc|e0] eqn:En;
    [|discriminate].
  unfold bind at 1 in H.
  destruct (mapM (neighborhoodPage city (VObj o)) r env (tick w)) as [[qs|e1] w1] eqn:Er;
    [|discriminate].
  constructor; [exists wc; exact En|exact (IH _ _ _ _ Er)].
Qed.

Lemma neighborhood_pages_length (city : City.t) (sections : value) (stamp : nat -> string)
  (l : list string) :
  forall k, List.length (neighborhood_pages city sections stamp k l) = List.length l.
Proof.
  induction l as [|n r IH]; intros k; [reflexivity|].
  cbn [neighborhood_pages List.length]. rewrite IH. reflexivity.
Qed.

Lemma neighborhood_pages_nth (city : City.t) (sections : value) (stamp : nat -> string)
  (l : list string) :
  forall k i n,
    nth_error l i = Some n ->
    nth_error (neighborhood_pages city sections stamp k l) i
    = Some (neighborhood_page city n (neighborhood_of sections n)
              (returned (total_words (neighborhood_of sections n) neighborhood_keys))
              (stamp (i + k)%nat)).
Proof.
  induction l as [|n0 r IH]; intros k [|i] n H; try discriminate.
  - injection H as <-. reflexivity.
  - cbn [neighborhood_pages nth_error]. rewrite (IH (S k) i n H).
    rewrite Nat.add_succ_r. reflexivity.
Qed.

Lemma neighborhood_pages_erased (city : City.t) (sections : value)
  (stamp stamp' : nat -> string) (l : list string) :
  forall k k',
    map erase_generatedAt (neighborhood_pages city sections stamp k l)
    = map erase_generatedAt (neighborhood_pages city sections stamp' k' l).
Proof.
  induction l as [|n r IH]; intros k k'; [reflexivity|].
  cbn [neighborhood_pages map]. rewrite (IH (S k) (S k')). reflexivity.
Qed.

(** ** The Page Assembler *)

(** The assembler returns when every sum of word counts exists. *)
Lemma assemble_returns (city : City.t) (l : list string) (o : list (string * value))
  (env : Env) (w : World) (wordCount : value) :
  total_words (main_of (VObj o)) main_keys = Return wordCount ->
  Forall (fun n => summable (neighborhood_of (VObj o) n) neighborhood_keys) l ->
  assemblePagesFromSections city l (VObj o) env w
  = (Return (main_page city (main_of (VObj o)) wordCount (now env (clock w))
               :: neighborhood_pages city (VObj o) (now env) (S (clock w)) l),
     ticks (S (List.length l)) w).
Proof.
  intros Hm Hl. unfold assemblePagesFromSections. unfold bind at 1.
  rewrite mainPage_eq, Hm. unfold bind at 1.
  rewrite (neighborhoodPages_return city o l Hl). reflexivity.
Qed.

(** When it returns, every sum exists. *)
Lemma assemble_returned (city : City.t) (l : list string) (o : list (string * value))
  (env : Env) (w w' : World) (pages : list Page.t) :
  assemblePagesFromSections city l (VObj o) env w = (Return pages, w') ->
  summable (main_of (VObj o)) main_keys
  /\ Forall (fun n => summable (neighborhood_of (VObj o) n) neighborhood_keys) l.
Proof.
  unfold assemblePagesFromSections. intros H. unfold bind at 1 in H.
  rewrite mainPage_eq in H.
  destruct (total_words (main_of (VObj o)) main_keys) as [wc|e] eqn:Em; [|discriminate].
  unfold bind at 1 in H.
  destruct (mapM (neighborhoodPage city (VObj o)) l env (tick w)) as [[ps|e1] w1] eqn:Er;
    [|discriminate].
  split; [exists wc; exact Em|exact (neighborhoodPages_returned _ _ _ _ _ _ _ Er)].
Qed.

(** When it throws, a sum does not exist: that of the main page, or that
    of the first neighborhood without one, after the pages before it have
    been stamped. *)
Lemma assemble_thrown (city : City.t) (l : list string) (o : list (string * value))
  (env : Env) (w w' : World) (e : exn) :
  assemblePagesFromSections city l (VObj o) env w = (Throw e, w') ->
  (total_words (main_of (VObj o)) main_keys = Throw e /\ w' = w)
  \/ (summable (main_of (VObj o)) main_keys
      /\ exists i n,
           nth_error l i = Some n
           /\ total_words (neighborhood_of (VObj o) n) neighborhood_keys = Throw e
           /\ Forall (fun n => summable (neighborhood_of (VObj o) n) neighborhood_keys)
                (firstn i l)
           /\ w' = ticks (S i) w).
Proof.
  unfold assemblePagesFromSections. intros H. unfold bind at 1 in H.
  rewrite mainPage_eq in H.
  destruct (total_words (main_of (VObj o)) main_keys) as [wc|e0] eqn:Em.
  - right. split; [exists wc; exact Em|]. unfold bind at 1 in H.
    destruct (mapM (neighborhoodPage city (VObj o)) l env (tick w)) as [[ps|e1] w1] eqn:Er;
      [discriminate|].
    apply pair_eq_inv in H as [H <-]. injection H as <-.
    destruct (neighborhoodPages_throw _ _ _ _ _ _ _ Er) as (i & n & Hi & Hn & Hf & ->).
    exists i, n. auto.
  - left. apply pair_eq_inv in H as [H <-]. injection H as <-. auto.
Qed.

Lemma neighborhoodPages_same (city : City.t) (o : list (string * value)) (l : list string) :
  forall env1 w1 env2 w2,
    same_pages (fst (mapM (neighborhoodPage city (VObj o)) l env1 w1))
      (fst (mapM (neighborhoodPage city (VObj o)) l env2 w2)).
Proof.
  induction l as [|n r IH]; intros env1 w1 env2 w2; [reflexivity|].
  cbn [mapM]. unfold bind at 1 3. rewrite !neighborhoodPage_eq.
  destruct (total_words (neighborhood_of (VObj o) n) neighborhood_keys) as [wc|e];
    [|reflexivity].
  unfold bind at 1 2. specialize (IH env1 (tick w1) env2 (tick w2)).
  destruct (mapM (neighborhoodPage city (VObj o)) r env1 (tick w1)) as [[ps1|e1] v1];
    destruct (mapM (neighborhoodPage city (VObj o)) r env2 (tick w2)) as [[ps2|e2] v2];
    unfold ret; cbn [fst same_pages] in *; try contradiction; [|exact IH].
  cbn [map]. rewrite IH. reflexivity.
Qed.

Lemma assemble_same_pages (city : City.t) (l : list string) (o : list (string * value))
  (env1 env2 : Env) (w1 w2 : World) :
  same_pages (fst (assemblePagesFromSections city l (VObj o) env1 w1))
    (fst (assemblePagesFromSections city l (VObj o) env2 w2)).
Proof.
  unfold assemblePagesFromSections. unfold bind at 1 3. rewrite !mainPage_eq.
  destruct (total_words (main_of (VObj o)) main_keys) as [wc|e]; [|reflexivity].
  unfold bind at 1 2.
  pose proof (neighborhoodPages_same city o l env1 (tick w1) env2 (tick w2)) as H.
  destruct (mapM (neighborhoodPage city (VObj o)) l env1 (tick w1)) as [[ps1|e1] v1];
    destruct (mapM (neighborhoodPage city (VObj o)) l env2 (tick w2)) as [[ps2|e2] v2];
    unfold ret; cbn [fst same_pages] in *; try contradiction; [|exact H].
  cbn [map]. rewrite H. reflexivity.
Qed.

(** The assembler only reads the clock. *)
Lemma assemble_frame (city : City.t) (l : list string) (o : list (string * value))
  (env : Env) (w : World) :
  exists reads,
    snd (assemblePagesFromSections city l (VObj o) env w) = ticks reads w
    /\ (reads <= S (List.length l))%nat.
Proof.
  destruct (assemblePagesFromSections city l (VObj o) env w) as [[pages|e] w'] eqn:E.
  - destruct (assemble_returned _ _ _ _ _ _ _ E) as ((wc & Hm) & Hl).
    rewrite (assemble_returns city l o env w wc Hm Hl) in E.
    apply pair_eq_inv in E as [_ <-]. exists (S (List.length l)). split; [reflexivity|lia].
  - destruct (assemble_thrown _ _ _ _ _ _ _ E)
      as [(_ & ->)|(_ & i & n & Hi & _ & _ & ->)].
    + exists 0%nat. split; [reflexivity|lia].
    + exists (S i). split; [reflexivity|].
      assert (i < List.length l)%nat by (apply nth_error_Some; congruence). lia.
Qed.

(** ** Conversions and sums *)

Lemma value_induction (P : value -> Prop) :
  P VUndefined -> P VNull -> (forall b, P (VBool b)) -> (forall q, P (VNum q)) ->
  P VNaN -> (forall n, P (VInfinity n)) -> (forall s, P (VStr s)) ->
  (forall l, Forall P l -> P (VArr l)) ->
  (forall o, P (VObj o)) ->
  forall v, P v.
Proof.
  intros Hu Hn Hb Hq Ha Hi Hs Hl Ho.
  fix IH 1. intros [| |b|q| |n|s|l|o];
    [exact Hu|exact Hn|exact (Hb b)|exact (Hq q)|exact Ha|exact (Hi n)|exact (Hs s)
    | |exact (Ho o)].
  apply Hl. induction l as [|x r IHl]; constructor; [apply IH|exact IHl].
Qed.

Lemma join_cons (x : value) (r : list value) :
  to_string (VArr (x :: r))
  = match match x with
          | VUndefined | VNull => Return ""
          | _ => to_string x
          end with
    | Throw e => Throw e
    | Return sx =>
        match r with
        | [] => Return sx
        | _ :: _ =>
            match to_string (VArr r) with
            | Throw e => Throw e
            | Return sr => Return (sx ++ "," ++ sr)
            end
        end
    end.
Proof. reflexivity. Qed.

(** A value has a string exactly when it is convertible; otherwise the
    conversion throws the [TypeError] of an object without callable
    [toString] or [valueOf]. *)
Lemma to_string_outcome (v : value) :
  if convertible v then exists s, to_string v = Return s
  else to_string v = Throw cannot_convert.
Proof.
  induction v as [| |b|q| |n|s|l IH|o] using value_induction;
    try (cbn; eauto; fail).
  - destruct b; cbn; eauto.
  - induction IH as [|x r Hx _ IHr]; [cbn; eauto|].
    rewrite join_cons. cbn [convertible forallb].
    change (forallb convertible r) with (convertible (VArr r)).
    destruct (convertible x) eqn:Ex.
    + destruct Hx as (sx & Hx).
      assert (Hx' : match x with
                    | VUndefined | VNull => Return ""
                    | _ => to_string x
                    end = Return (match x with
                                  | VUndefined | VNull => ""
                                  | _ => sx
                                  end))
        by (destruct x; try exact Hx; reflexivity).
      rewrite Hx'. cbn [andb].
      destruct r as [|y r']; [cbn; eauto|].
      destruct (convertible (VArr (y :: r'))).
      * destruct IHr as (sr & ->). eauto.
      * rewrite IHr. reflexivity.
    + cbn [andb].
      assert (Hx' : match x with
                    | VUndefined | VNull => Return ""
                    | _ => to_string x
                    end = Throw cannot_convert)
        by (destruct x; try exact Hx; discriminate Ex).
      rewrite Hx'. reflexivity.
  - cbn [convertible to_string]. destruct (own_prop o "toString"); eauto.
Qed.

Lemma to_string_convertible (v : value) :
  convertible v = true <-> exists s, to_string v = Return s.
Proof.
  pose proof (to_string_outcome v) as H. destruct (convertible v).
  - split; [intros _; exact H|reflexivity].
  - split; [discriminate|]. intros (s & E). rewrite E in H. discriminate.
Qed.

Lemma to_string_throws (v : value) (e : exn) :
  to_string v = Throw e -> e = cannot_convert /\ convertible v = false.
Proof.
  pose proof (to_string_outcome v) as H. destruct (convertible v).
  - destruct H as (s & ->). discriminate.
  - rewrite H. intros E. injection E as <-. auto.
Qed.

Lemma to_primitive_outcome (v : value) :
  if convertible v then exists p, to_primitive v = Return p /\ primitive p = true
  else to_primitive v = Throw cannot_convert.
Proof.
  pose proof (to_string_outcome v) as H.
  destruct v; try (cbn; eauto; fail); cbn [to_primitive];
    destruct (convertible _); try (destruct H as (s & ->); eauto); rewrite H; reflexivity.
Qed.

Lemma number_add_primitive (a b : value) : primitive (number_add a b) = true.
Proof.
  destruct a, b; try reflexivity; cbn [number_add].
  - unfold binary64. destruct (nearest _); reflexivity.
  - destruct (Bool.eqb _ _); reflexivity.
Qed.

(** [a + b] throws exactly when an operand has no string; otherwise its
    result is a primitive. *)
Lemma js_add_outcome (a b : value) :
  if convertible a && convertible b
  then exists r, js_add a b = Return r /\ primitive r = true
  else js_add a b = Throw cannot_convert.
Proof.
  unfold js_add.
  pose proof (to_primitive_outcome a) as Ha. pose proof (to_primitive_outcome b) as Hb.
  destruct (convertible a); [|rewrite Ha; reflexivity].
  destruct Ha as (pa & -> & Hpa).
  destruct (convertible b); [|rewrite Hb; reflexivity].
  destruct Hb as (pb & -> & Hpb). cbn [andb].
  destruct (is_string pa || is_string pb); [eauto|].
  eexists. split; [reflexivity|apply number_add_primitive].
Qed.

Lemma primitive_convertible (v : value) : primitive v = true -> convertible v = true.
Proof. destruct v; try discriminate; reflexivity. Qed.

Lemma add_all_outcome (rest : list value) :
  forall sum,
    convertible sum = true ->
    if forallb convertible rest
    then exists r, add_all sum rest = Return r
    else add_all sum rest = Throw cannot_convert.
Proof.
  induction rest as [|x r IH]; intros sum Hs; [cbn; eauto|].
  cbn [forallb add_all]. pose proof (js_add_outcome sum x) as Hx. rewrite Hs in Hx.
  cbn [andb] in Hx. destruct (convertible x); cbn [andb].
  - destruct Hx as (s & -> & Hp). exact (IH s (primitive_convertible s Hp)).
  - rewrite Hx. reflexivity.
Qed.

(** The sum of the word counts of a page with two sections or more
    exists exactly when every word count has a string. *)
Lemma total_words_outcome (own : value) (keys : list string) :
  (2 <= List.length keys)%nat ->
  if forallb convertible (word_counts own keys)
  then exists r, total_words own keys = Return r
  else total_words own keys = Throw cannot_convert.
Proof.
  intros Hk. unfold total_words.
  assert (Hw : (2 <= List.length (word_counts own keys))%nat)
    by (unfold word_counts; rewrite length_map; exact Hk).
  destruct (word_counts own keys) as [|x [|y r]]; try (cbn in Hw; lia).
  cbn [forallb]. destruct (convertible x) eqn:Hx; cbn [andb].
  - exact (add_all_outcome (y :: r) x Hx).
  - cbn [add_all]. pose proof (js_add_outcome x y) as H. rewrite Hx in H.
    cbn [andb] in H. rewrite H. reflexivity.
Qed.

Lemma summable_iff (own : value) (keys : list string) :
  (2 <= List.length keys)%nat ->
  summable own keys <-> forallb convertible (word_counts own keys) = true.
Proof.
  intros Hk. pose proof (total_words_outcome own keys Hk) as H. unfold summable.
  destruct (forallb convertible (word_counts own keys)).
  - split; [reflexivity|intros _; exact H].
  - split; [|discriminate]. intros (r & E). rewrite E in H. discriminate.
Qed.

Lemma total_words_throws (own : value) (keys : list string) (e : exn) :
  (2 <= List.length keys)%nat ->
  total_words own keys = Throw e ->
  e = cannot_convert /\ forallb convertible (word_counts own keys) = false.
Proof.
  intros Hk E. pose proof (total_words_outcome own keys Hk) as H.
  destruct (forallb convertible (word_counts own keys)).
  - destruct H as (r & H). rewrite H in E. discriminate.
  - rewrite H in E. injection E as <-. auto.
Qed.

Lemma js_or_convertible (a b : value) :
  convertible a = true -> convertible b = true -> convertible (js_or a b) = true.
Proof. intros Ha Hb. unfold js_or. destruct (truthy a); assumption. Qed.

(** ** Objects *)

Lemma own_prop_set_prop (o : list (string * value)) (k : string) (v : value) :
  own_prop (set_prop o k v) k = Some v.
Proof.
  induction o as [|[k' v'] r IH]; simpl.
  - rewrite String.eqb_refl. reflexivity.
  - destruct (String.eqb k' k) eqn:E; simpl; rewrite E; [reflexivity|exact IH].
Qed.

Lemma own_prop_set_prop_other (o : list (string * value)) (k k' : string) (v : value) :
  k <> k' -> own_prop (set_prop o k v) k' = own_prop o k'.
Proof.
  intros Hk. induction o as [|[a x] r IH]; simpl.
  - destruct (String.eqb k k') eqn:E; [apply String.eqb_eq in E; contradiction|reflexivity].
  - destruct (String.eqb a k) eqn:E; simpl.
    + apply String.eqb_eq in E as ->.
      destruct (String.eqb k k') eqn:E'; [apply String.eqb_eq in E'; contradiction|reflexivity].
    + destruct (String.eqb a k'); [reflexivity|exact IH].
Qed.

Lemma set_prop_same (o : list (string * value)) (k : string) (v : value) :
  own_prop o k = Some v -> set_prop o k v = o.
Proof.
  induction o as [|[k' v'] r IH]; simpl; [discriminate|].
  destruct (String.eqb k' k) eqn:E.
  - intros [= ->]. reflexivity.
  - intros H. rewrite (IH H). reflexivity.
Qed.

Lemma set_prop_set_prop (o : list (string * value)) (k : string) (v v' : value) :
  set_prop (set_prop o k v) k v' = set_prop o k v'.
Proof.
  induction o as [|[a x] r IH]; simpl.
  - rewrite String.eqb_refl. reflexivity.
  - destruct (String.eqb a k) eqn:E; simpl; rewrite E; [reflexivity|].
    rewrite IH. reflexivity.
Qed.

(** ** What extraction returns *)

Lemma parse_members_object (fuel : nat) :
  forall s acc v r,
    parse_members fuel s acc = Parsed v r -> exists o, v = VObj o.
Proof.
  induction fuel as [|f IH]; intros s acc v r H; [discriminate|].
  cbn [parse_members] in H.
  destruct (expect dquote s) as [r0|]; [|discriminate].
  destruct (parse_string_body r0) as [[k r1]|]; [|discriminate].
  destruct (expect ":" (skip_ws r1)) as [r2|]; [|discriminate].
  destruct (parse_value f r2) as [x r3| |]; try discriminate.
  destruct (expect "," (skip_ws r3)) as [r4|].
  - exact (IH _ _ _ _ H).
  - destruct (expect "}" (skip_ws r3)) as [r4|]; [|discriminate].
    injection H as <- _. eauto.
Qed.

Lemma JSON_parse_brace_object (wording : string -> string) (rest : string) (v : value) :
  JSON_parse wording (String "{" rest) = Return v -> exists o, v = VObj o.
Proof.
  unfold JSON_parse.
  destruct (parse_value (2 * String.length (String "{" rest) + 1) (String "{" rest))
    as [x r| |] eqn:E; try discriminate.
  destruct (skip_ws r); [|discriminate]. intros [= <-].
  replace (2 * String.length (String "{" rest) + 1)%nat
    with (S (2 * String.length (String "{" rest))) in E by lia.
  cbn [parse_value] in E. cbv zeta in E.
  change (skip_ws (String "{" rest)) with (String "{" rest) in E.
  change (expect "{" (String "{" rest)) with (Some rest) in E.
  cbv iota beta in E.
  destruct (expect "}" (skip_ws rest)) as [r'|].
  - injection E as <- _. eauto.
  - exact (parse_members_object _ _ _ _ _ E).
Qed.

Lemma extract_payload_object (wording : string -> string) (response : list Block.t)
  (v : value) :
  extract_payload wording response = Return v -> exists o, v = VObj o.
Proof.
  unfold extract_payload. destruct response as [|block rest]; [discriminate|].
  destruct (match_braces _) as [m|] eqn:E; [|discriminate].
  apply match_braces_inv in E as (pre & mid & post & _ & -> & _).
  apply JSON_parse_brace_object.
Qed.

Lemma payload_at_object (env : Env) (k : nat) (req : Request) (v : value) :
  payload_at env k req = Return v -> exists o, v = VObj o.
Proof.
  unfold payload_at. destruct (create_message env k req); [|discriminate].
  apply extract_payload_object.
Qed.

(** ** The loops of [generateContent], whatever the provider answers *)

Lemma generateMainSection_run (jobId : nat) (city : City.t) (section : string)
  (maxTokens : Z) (env : Env) (w : World) :
  generateMainSection city section maxTokens env w
  = (payload_at env (List.length (requests w)) (main_request city section maxTokens),
     advanced jobId [] [main_request city section maxTokens] w).
Proof.
  unfold generateMainSection, bind.
  rewrite (anthropic_messages_create_run jobId). unfold payload_at, lift.
  destruct (create_message env _ _); reflexivity.
Qed.

Lemma generateNeighborhoodSection_run (jobId : nat) (city : City.t)
  (neighborhood section : string) (maxTokens : Z) (env : Env) (w : World) :
  generateNeighborhoodSection city neighborhood section maxTokens env w
  = (payload_at env (List.length (requests w))
       (neighborhood_request city neighborhood section maxTokens),
     advanced jobId [] [neighborhood_request city neighborhood section maxTokens] w).
Proof.
  unfold generateNeighborhoodSection, bind.
  rewrite (anthropic_messages_create_run jobId). unfold payload_at, lift.
  destruct (create_message env _ _); reflexivity.
Qed.

Lemma requests_advanced (jobId : nat) (reps : list (Qc * string)) (reqs : list Request)
  (w : World) :
  List.length (requests (advanced jobId reps reqs w))
  = (List.length (requests w) + List.length reqs)%nat.
Proof. unfold advanced. simpl. apply length_app. Qed.

(** One turn of a loop: report, generate, store under [sections[slot]],
    log the word count.  [slot] is ["main"] or the key of a neighborhood. *)
Lemma store_turn (slot key : string) (content : value)
  (o m : list (string * value)) (env : Env) (w : World) {A : Type}
  (k : value -> M A) :
  own_prop o slot = Some (VObj m) ->
  (exists oc, content = VObj oc) ->
  (own <- lift (get_prop (VObj o) slot) ;;
   own' <- lift (set_member own key content) ;;
   sections' <- lift (set_member (VObj o) slot own') ;;
   _ <- lift (logged content) ;;
   k sections') env w
  = match logged content with
    | Return _ => k (VObj (set_prop o slot (VObj (set_prop m key content)))) env w
    | Throw e => (Throw e, w)
    end.
Proof.
  intros Ho (oc & ->). unfold bind, lift. cbn [get_prop]. rewrite Ho.
  cbn [set_member]. destruct (logged (VObj oc)); reflexivity.
Qed.

Lemma main_loop_run (jobId : nat) (city : City.t) (l : list MainSpec.t) :
  forall o m env w,
    own_prop o "main" = Some (VObj m) ->
    main_loop jobId city l (VObj o) env w
    = match collect env (List.length (requests w)) (main_requests city l) with
      | (cs, None) =>
          (Return (VObj (set_prop o "main"
                           (VObj (store m (combine (map MainSpec.key l) cs))))),
           advanced jobId (main_plan l) (main_requests city l) w)
      | (cs, Some e) =>
          (Throw e,
           advanced jobId (firstn (S (List.length cs)) (main_plan l))
             (firstn (S (List.length cs)) (main_requests city l)) w)
      end.
Proof.
  induction l as [|section rest IH]; intros o m env w Ho.
  - cbn. rewrite advanced_nothing, (set_prop_same o "main" (VObj m) Ho). reflexivity.
  - cbn [main_loop main_requests main_plan map collect].
    unfold bind at 1. rewrite updateProgress_run.
    unfold bind at 1. rewrite (generateMainSection_run jobId).
    rewrite requests_advanced, Nat.add_0_r. unfold turn_at.
    destruct (payload_at env (List.length (requests w))
                (main_request city (MainSpec.key section) (MainSpec.tokens section)))
      as [content|e] eqn:E; [|rewrite advanced_advanced; reflexivity].
    rewrite (store_turn "main" (MainSpec.key section) content o m _ _ _ Ho
               (payload_at_object _ _ _ _ E)).
    destruct (logged content) as [text|e]; [|rewrite advanced_advanced; reflexivity].
    + rewrite (IH _ (set_prop m (MainSpec.key section) content) env _
                 (own_prop_set_prop o "main" _)).
      rewrite !requests_advanced. cbn [List.length].
      rewrite Nat.add_0_r, Nat.add_1_r.
      fold (main_requests city rest). fold (main_plan rest).
      destruct (collect env (S (List.length (requests w))) (main_requests city rest))
        as [cs [e|]];
        rewrite ?set_prop_set_prop, !advanced_advanced; reflexivity.
Qed.

Lemma section_loop_run (jobId : nat) (city : City.t) (neighborhood : string)
  (neighborhoodProgress : Qc) (key : string) (l : list NeighborhoodSpec.t) :
  forall j o m env w,
    own_prop o key = Some (VObj m) ->
    section_loop jobId city neighborhood neighborhoodProgress key j l (VObj o) env w
    = match collect env (List.length (requests w))
              (section_requests city neighborhood l) with
      | (cs, None) =>
          (Return (VObj (set_prop o key
                           (VObj (store m (combine (map NeighborhoodSpec.key l) cs))))),
           advanced jobId (section_plan neighborhood neighborhoodProgress j l)
             (section_requests city neighborhood l) w)
      | (cs, Some e) =>
          (Throw e,
           advanced jobId
             (firstn (S (List.length cs))
                (section_plan neighborhood neighborhoodProgress j l))
             (firstn (S (List.length cs)) (section_requests city neighborhood l)) w)
      end.
Proof.
  induction l as [|section rest IH]; intros j o m env w Ho.
  - cbn. rewrite advanced_nothing, (set_prop_same o key (VObj m) Ho). reflexivity.
  - cbn [section_loop section_requests section_plan map collect].
    unfold bind at 1. rewrite updateProgress_run.
    unfold bind at 1. rewrite (generateNeighborhoodSection_run jobId).
    rewrite requests_advanced, Nat.add_0_r. unfold turn_at.
    destruct (payload_at env (List.length (requests w))
                (neighborhood_request city neighborhood
                   (NeighborhoodSpec.key section) (NeighborhoodSpec.tokens section)))
      as [content|e] eqn:E; [|rewrite advanced_advanced; reflexivity].
    rewrite (store_turn key (NeighborhoodSpec.key section) content o m _ _ _ Ho
               (payload_at_object _ _ _ _ E)).
    destruct (logged content) as [text|e]; [|rewrite advanced_advanced; reflexivity].
    + rewrite (IH (S j) _ (set_prop m (NeighborhoodSpec.key section) content) env _
                 (own_prop_set_prop o key _)).
      rewrite !requests_advanced. cbn [List.length].
      rewrite Nat.add_0_r, Nat.add_1_r.
      fold (section_requests city neighborhood rest).
      destruct (collect env (S (List.length (requests w)))
                  (section_requests city neighborhood rest))
        as [cs [e|]];
        rewrite ?set_prop_set_prop, !advanced_advanced; reflexivity.
Qed.

Lemma collect_length (env : Env) (reqs : list Request) :
  forall k cs failure,
    collect env k reqs = (cs, failure) ->
    match failure with
    | None => List.length cs = List.length reqs
    | Some _ => (List.length cs < List.length reqs)%nat
    end.
Proof.
  induction reqs as [|req rest IH]; intros k cs failure H.
  - injection H as <- <-. reflexivity.
  - cbn [collect] in H. destruct (turn_at env k req).
    + destruct (collect env (S k) rest) as [cs' f] eqn:E.
      injection H as <- <-. apply IH in E. cbn [List.length].
      destruct f; lia.
    + injection H as <- <-. cbn [List.length]. lia.
Qed.

Lemma collect_app (env : Env) (a b : list Request) :
  forall k,
    collect env k (a ++ b)%list
    = match collect env k a with
      | (cs, Some e) => (cs, Some e)
      | (cs, None) =>
          let '(cs', failure) := collect env (k + List.length a) b in
          ((cs ++ cs')%list, failure)
      end.
Proof.
  induction a as [|req rest IH]; intros k.
  - cbn. rewrite Nat.add_0_r. destruct (collect env k b). reflexivity.
  - cbn [collect app List.length]. destruct (turn_at env k req); [|reflexivity].
    rewrite IH. rewrite <- Nat.add_succ_comm.
    destruct (collect env (S k) rest) as [cs [e|]]; [reflexivity|].
    destruct (collect env (S k + List.length rest) b). reflexivity.
Qed.

Lemma section_plan_length (n : string) (p : Qc) (l : list NeighborhoodSpec.t) :
  forall j, List.length (section_plan n p j l) = List.length l.
Proof. induction l as [|s r IH]; intros j; cbn; [|rewrite IH]; reflexivity. Qed.

Lemma firstn_app_short {A : Type} (n : nat) (a b : list A) :
  (n <= List.length a)%nat -> firstn n (a ++ b)%list = firstn n a.
Proof.
  intros H. rewrite firstn_app.
  replace (n - List.length a)%nat with O by lia.
  rewrite firstn_O, app_nil_r. reflexivity.
Qed.

Lemma firstn_app_long {A : Type} (n : nat) (a b : list A) :
  firstn (List.length a + n) (a ++ b)%list = (a ++ firstn n b)%list.
Proof.
  rewrite firstn_app. rewrite firstn_all2 by lia.
  replace (List.length a + n - List.length a)%nat with n by lia. reflexivity.
Qed.

Lemma neighborhood_loop_run (jobId : nat) (city : City.t) (l : list string) :
  forall i o env w,
    neighborhood_loop jobId city i l (VObj o) env w
    = match collect env (List.length (requests w)) (neighborhood_requests city l) with
      | (cs, None) =>
          (Return (VObj (stored_neighborhoods o l cs)),
           advanced jobId (neighborhood_plan i l) (neighborhood_requests city l) w)
      | (cs, Some e) =>
          (Throw e,
           advanced jobId (firstn (S (List.length cs)) (neighborhood_plan i l))
             (firstn (S (List.length cs)) (neighborhood_requests city l)) w)
      end.
Proof.
  induction l as [|n rest IH]; intros i o env w.
  - cbn. rewrite advanced_nothing. reflexivity.
  - cbn [neighborhood_loop neighborhood_requests neighborhood_plan flat_map
         stored_neighborhoods].
    fold (neighborhood_requests city rest).
    set (key := "neighborhood_" ++ n).
    set (np := plus64 baseProgress (times64 (num (Z.of_nat i)) progressPerNeighborhood)).
    unfold bind at 1. cbn [lift set_member].
    unfold bind at 1.
    rewrite (section_loop_run jobId city n np key neighborhoodSections 0
               (set_prop o key (VObj [])) [] env w (own_prop_set_prop o key _)).
    rewrite collect_app.
    destruct (collect env (List.length (requests w))
                (section_requests city n neighborhoodSections)) as [cs1 [e|]] eqn:E1.
    + apply collect_length in E1.
      rewrite !firstn_app_short; [reflexivity| |].
      * unfold section_requests in *. rewrite length_map in *. lia.
      * rewrite section_plan_length. unfold section_requests in E1.
        rewrite length_map in E1. lia.
    + apply collect_length in E1.
      rewrite IH, requests_advanced, set_prop_set_prop.
      destruct (collect env
                  (List.length (requests w)
                   + List.length (section_requests city n neighborhoodSections))
                  (neighborhood_requests city rest)) as [cs2 [e|]] eqn:E2.
      * rewrite advanced_advanced. rewrite length_app.
        assert (L1 : List.length cs1
                     = List.length (section_plan n np 0 neighborhoodSections)).
        { rewrite section_plan_length. unfold section_requests in E1.
          rewrite length_map in E1. exact E1. }
        rewrite <- Nat.add_succ_r.
        rewrite L1 at 1. rewrite firstn_app_long.
        rewrite E1, firstn_app_long. reflexivity.
      * rewrite advanced_advanced.
        assert (L3 : List.length cs1 = 3%nat) by exact E1.
        rewrite (firstn_app_short 3 cs1 cs2) by lia.
        rewrite (firstn_all2 (n:=3) cs1) by lia.
        rewrite skipn_app, (skipn_all2 (n:=3) cs1) by lia.
        replace (3 - List.length cs1)%nat with O by lia.
        reflexivity.
Qed.

Lemma neighborhood_plan_length (l : list string) :
  forall i, List.length (neighborhood_plan i l) = (3 * List.length l)%nat.
Proof.
  induction l as [|n r IH]; intros i; [reflexivity|].
  cbn [neighborhood_plan]. rewrite length_app, section_plan_length, IH.
  cbn [List.length neighborhoodSections]. lia.
Qed.

Lemma neighborhood_requests_length (city : City.t) (l : list string) :
  List.length (neighborhood_requests city l) = (3 * List.length l)%nat.
Proof.
  induction l as [|n r IH]; [reflexivity|].
  cbn [neighborhood_requests flat_map]. fold (neighborhood_requests city r).
  rewrite length_app, IH. unfold section_requests. rewrite length_map.
  cbn [List.length neighborhoodSections]. lia.
Qed.

Lemma sections_of_app (cs1 cs2 : list value) :
  List.length cs1 = 6%nat ->
  VObj (stored_neighborhoods
          (set_prop [("main", VObj [])] "main"
             (VObj (store [] (combine (map MainSpec.key mainSections) cs1))))
          neighborhoods cs2)
  = sections_of (cs1 ++ cs2).
Proof.
  intros L6. unfold sections_of, main_keys.
  rewrite (firstn_app_short 6 cs1 cs2) by lia.
  rewrite (firstn_all2 (n:=6) cs1) by lia.
  rewrite skipn_app, (skipn_all2 (n:=6) cs1) by lia.
  replace (6 - List.length cs1)%nat with O by lia. reflexivity.
Qed.

Lemma generateContent_eq (jobId : nat) (cityId : value) (city : City.t)
  (env : Env) (w : World) :
  generateContent jobId cityId city env w
  = match collect env (List.length (requests w)) (all_requests city) with
    | (cs, Some e) =>
        (Throw e,
         advanced jobId (firstn (S (List.length cs)) full_plan)
           (firstn (S (List.length cs)) (all_requests city)) w)
    | (cs, None) =>
        match assemblePagesFromSections city neighborhoods (sections_of cs) env
                (advanced jobId full_plan (all_requests city) w) with
        | (Return pages, w2) =>
            (Return tt,
             with_rows
               (update_eq_id (research_jobs w2)
                  (completed_patch (now env (clock w2)) pages (sections_of cs)) jobId)
               (tick w2))
        | (Throw e, w2) => (Throw e, w2)
        end
    end.
Proof.
  unfold generateContent, try_catch, all_requests.
  rewrite collect_app.
  unfold bind at 1. cbn [lift set_member set_prop].
  unfold bind at 1.
  rewrite (main_loop_run jobId city mainSections [("main", VObj [])] [] env w eq_refl).
  destruct (collect env (List.length (requests w)) (main_requests city mainSections))
    as [cs1 [e|]] eqn:E1; cbv beta iota zeta.
  - apply collect_length in E1. unfold throw, full_plan.
    rewrite !firstn_app_short; [reflexivity| |].
    + unfold main_requests in *. rewrite length_map in *. lia.
    + unfold main_plan. unfold main_requests in E1. rewrite length_map in *. lia.
  - apply collect_length in E1.
    assert (L6 : List.length cs1 = 6%nat) by exact E1.
    unfold bind at 1. rewrite neighborhood_loop_run, requests_advanced.
    destruct (collect env
                (List.length (requests w)
                 + List.length (main_requests city mainSections))
                (neighborhood_requests city neighborhoods)) as [cs2 [e|]] eqn:E2;
      cbv beta iota zeta.
    + apply collect_length in E2. rewrite neighborhood_requests_length in E2.
      unfold throw, full_plan. rewrite advanced_advanced, length_app.
      assert (La : List.length cs1 = List.length (main_plan mainSections))
        by exact L6.
      rewrite <- Nat.add_succ_r. rewrite La at 1. rewrite firstn_app_long.
      rewrite E1, firstn_app_long.
      rewrite firstn_app_short; [reflexivity|].
      rewrite neighborhood_plan_length. lia.
    + rewrite advanced_advanced.
      unfold bind at 1. rewrite updateProgress_run, advanced_advanced.
      rewrite <- app_assoc, app_nil_r. fold full_plan.
      rewrite (sections_of_app cs1 cs2 L6).
      unfold bind at 1.
      destruct (assemblePagesFromSections city neighborhoods (sections_of (cs1 ++ cs2))
                  env _) as [[pages|e] w2]; [|reflexivity].
      reflexivity.
Qed.

(** ** Rows of the table *)

Lemma apply_progress_twice (r1 r2 : Qc * string) (j : Job.t) :
  apply_patch (progress_patch r2) (apply_patch (progress_patch r1) j)
  = apply_patch (progress_patch r2) j.
Proof. reflexivity. Qed.

Lemma apply_completed_after_progress (t : string) (pages : list Page.t) (s : value)
  (r : Qc * string) (j : Job.t) :
  apply_patch (completed_patch t pages s) (apply_patch (progress_patch r) j)
  = apply_patch (completed_patch t pages s) j.
Proof. reflexivity. Qed.

Lemma update_eq_id_twice (rows : list Job.t) (p1 p2 : Patch) (jobId : nat) :
  update_eq_id (update_eq_id rows p1 jobId) p2 jobId
  = map (fun j => if Nat.eqb (Job.id j) jobId
                  then apply_patch p2 (apply_patch p1 j) else j) rows.
Proof.
  unfold update_eq_id. rewrite map_map. apply map_ext. intros j.
  destruct (Nat.eqb (Job.id j) jobId) eqn:E; [|rewrite E; reflexivity].
  change (Job.id (apply_patch p1 j)) with (Job.id j). rewrite E. reflexivity.
Qed.

Lemma written_snoc (rows : list Job.t) (jobId : nat) (reps : list (Qc * string))
  (r : Qc * string) :
  written rows jobId (reps ++ [r])%list = update_eq_id rows (progress_patch r) jobId.
Proof.
  revert rows. induction reps as [|r0 rest IH]; intros rows; [reflexivity|].
  change (written rows jobId ((r0 :: rest) ++ [r])%list)
    with (written (update_eq_id rows (progress_patch r0) jobId) jobId (rest ++ [r])%list).
  rewrite IH, update_eq_id_twice. reflexivity.
Qed.

Lemma update_completed_written (rows : list Job.t) (jobId : nat)
  (reps : list (Qc * string)) (t : string) (pages : list Page.t) (s : value) :
  update_eq_id (written rows jobId reps) (completed_patch t pages s) jobId
  = update_eq_id rows (completed_patch t pages s) jobId.
Proof.
  destruct (rev reps) as [|r rest] eqn:E.
  - apply (f_equal (@rev _)) in E. rewrite rev_involutive in E. subst reps. reflexivity.
  - apply (f_equal (@rev _)) in E. rewrite rev_involutive in E. subst reps.
    cbn [rev]. rewrite written_snoc, update_eq_id_twice. reflexivity.
Qed.

Lemma next_id_fresh (rows : list Job.t) (j : Job.t) :
  In j rows -> (Job.id j < next_id rows)%nat.
Proof.
  induction rows as [|a r IH]; [contradiction|].
  cbn [next_id fold_right]. fold (next_id r). intros [->|H]; [lia|].
  apply IH in H. lia.
Qed.

Lemma update_eq_id_absent (rows : list Job.t) (p : Patch) (jobId : nat) :
  (forall j, In j rows -> Job.id j <> jobId) -> update_eq_id rows p jobId = rows.
Proof.
  intros H. unfold update_eq_id. rewrite <- (map_id rows) at 2.
  apply map_ext_in. intros j Hj.
  destruct (Nat.eqb (Job.id j) jobId) eqn:E; [|reflexivity].
  apply Nat.eqb_eq in E. exfalso. exact (H j Hj E).
Qed.

Lemma update_eq_id_new_row (rows : list Job.t) (job : Job.t) (p : Patch) :
  Job.id job = next_id rows ->
  update_eq_id (rows ++ [job])%list p (next_id rows) = (rows ++ [apply_patch p job])%list.
Proof.
  intros Hid. unfold update_eq_id at 1. rewrite map_app.
  fold (update_eq_id rows p (next_id rows)).
  rewrite update_eq_id_absent.
  - cbn [map]. rewrite Hid, Nat.eqb_refl. reflexivity.
  - intros j Hj E. apply next_id_fresh in Hj. lia.
Qed.

Lemma firstn_S_snoc {A : Type} (d : A) (l : list A) :
  forall k, (k < List.length l)%nat ->
            firstn (S k) l = (firstn k l ++ [nth k l d])%list.
Proof.
  induction l as [|x r IH]; intros k Hk; [simpl in Hk; lia|].
  destruct k as [|k]; [reflexivity|].
  cbn [List.length] in Hk.
  change (x :: firstn (S k) r = x :: (firstn k r ++ [nth k r d])%list).
  rewrite (IH k) by lia. reflexivity.
Qed.

Lemma full_plan_length : List.length full_plan = 19%nat.
Proof. reflexivity. Qed.

Lemma all_requests_length (city : City.t) : List.length (all_requests city) = 18%nat.
Proof. reflexivity. Qed.

(** ** The two outcomes of a run *)

Lemma collect_answered (env : Env) (reqs : list Request) :
  forall k cs failure,
    collect env k reqs = (cs, failure) ->
    answered env k reqs cs
    /\ Forall (fun c => exists text, logged c = Return text) cs
    /\ match failure with
       | None => List.length cs = List.length reqs
       | Some e =>
           exists req,
             nth_error reqs (List.length cs) = Some req
             /\ turn_at env (k + List.length cs) req = Throw e
       end.
Proof.
  induction reqs as [|req rest IH]; intros k cs failure H.
  - injection H as <- <-. repeat split. constructor.
  - cbn [collect] in H. destruct (turn_at env k req) as [c|e'] eqn:E.
    + destruct (collect env (S k) rest) as [cs' f] eqn:E'.
      injection H as <- <-. destruct (IH _ _ _ E') as (Ha & Hlog & Hf).
      unfold turn_at in E.
      destruct (payload_at env k req) as [c'|] eqn:Ep; [|discriminate].
      destruct (logged c') as [text|] eqn:El; [|discriminate].
      injection E as ->.
      split; [split; assumption|]. split; [constructor; [exists text; exact El|exact Hlog]|].
      destruct f as [e|].
      * destruct Hf as (r & Hn & Hp). exists r. cbn [List.length nth_error].
        rewrite <- Nat.add_succ_comm. auto.
      * cbn [List.length]. rewrite Hf. reflexivity.
    + injection H as <- <-. split; [exact I|]. split; [constructor|].
      exists req. cbn [List.length nth_error]. rewrite Nat.add_0_r. auto.
Qed.

Lemma answered_objects (env : Env) (reqs : list Request) :
  forall k cs, answered env k reqs cs -> Forall (fun c => exists o, c = VObj o) cs.
Proof.
  induction reqs as [|req rest IH]; intros k [|c cs] H.
  - constructor.
  - contradiction.
  - constructor.
  - destruct H as [Hc H]. constructor.
    + exact (payload_at_object _ _ _ _ Hc).
    + exact (IH _ _ H).
Qed.

Ltac list_of_18 cs H :=
  do 18 (destruct cs as [|? cs]; [discriminate H|]);
  destruct cs; [|discriminate H].

(** The sections of a run hold its payloads under their keys. *)
Lemma sections_of_lookup (cs : list value) :
  List.length cs = 18%nat ->
  (forall k key,
      nth_error main_keys k = Some key ->
      opt_get (main_of (sections_of cs)) key = nth k cs VUndefined)
  /\ (forall i n j key,
        nth_error neighborhoods i = Some n ->
        nth_error neighborhood_keys j = Some key ->
        opt_get (neighborhood_of (sections_of cs) n) key = nth (6 + 3 * i + j) cs VUndefined).
Proof.
  intros Hl. list_of_18 cs Hl. clear Hl. split.
  - intros k key Hk.
    do 6 (destruct k as [|k]; [injection Hk as <-; reflexivity|]).
    destruct k; discriminate Hk.
  - intros i n j key Hi Hk.
    do 4 (destruct i as [|i];
          [injection Hi as <-;
           do 3 (destruct j as [|j]; [injection Hk as <-; reflexivity|]);
           destruct j; discriminate Hk|]).
    destruct i; discriminate Hi.
Qed.

Lemma logged_convertible (c : value) (text : string) :
  logged c = Return text ->
  convertible (js_or (opt_get c "wordCount") (VNum (num 0))) = true.
Proof.
  unfold logged. intros H. apply js_or_convertible; [|reflexivity].
  apply to_string_convertible. exists text.
  destruct c; try discriminate H; exact H.
Qed.

(** The word counts of the payloads of a run have been written to the log,
    so each of them has a string and the sums of the assembler exist. *)
Lemma run_sections_summable (cs : list value) :
  List.length cs = 18%nat ->
  Forall (fun c => exists text, logged c = Return text) cs ->
  summable (main_of (sections_of cs)) main_keys
  /\ Forall (fun n => summable (neighborhood_of (sections_of cs) n) neighborhood_keys)
       neighborhoods.
Proof.
  intros Hl Hlog. destruct (sections_of_lookup cs Hl) as (Hm & Hn).
  assert (Hc : forall k, (k < 18)%nat ->
                 convertible (js_or (opt_get (nth k cs VUndefined) "wordCount")
                                (VNum (num 0))) = true).
  { intros k Hk. rewrite Forall_forall in Hlog.
    destruct (Hlog (nth k cs VUndefined)) as (text & Ht); [apply nth_In; lia|].
    exact (logged_convertible _ _ Ht). }
  split.
  - apply (summable_iff _ main_keys); [cbn; lia|].
    unfold word_counts. apply forallb_forall. intros x Hx.
    apply in_map_iff in Hx as (key & <- & Hkey).
    apply In_nth_error in Hkey as (k & Hk).
    assert (k < 6)%nat by (apply (nth_error_Some main_keys); congruence).
    rewrite (Hm k key Hk). apply Hc. lia.
  - apply Forall_forall. intros n Hin.
    apply In_nth_error in Hin as (i & Hi).
    assert (i < 4)%nat by (apply (nth_error_Some neighborhoods); congruence).
    apply (summable_iff _ neighborhood_keys); [cbn; lia|].
    unfold word_counts. apply forallb_forall. intros x Hx.
    apply in_map_iff in Hx as (key & <- & Hkey).
    apply In_nth_error in Hkey as (j & Hj).
    assert (j < 3)%nat by (apply (nth_error_Some neighborhood_keys); congruence).
    rewrite (Hn i n j key Hi Hj). apply Hc. lia.
Qed.

(** [generateContent] as a function of the payloads of its requests: it
    throws the first failure of a turn, after the reports and requests
    made up to it; after eighteen turns the assembler returns and the job
    is completed with its pages. *)
Lemma generateContent_run (jobId : nat) (cityId : value) (city : City.t)
  (env : Env) (w : World) :
  match collect env (List.length (requests w)) (all_requests city) with
  | (cs, Some e) =>
      generateContent jobId cityId city env w
      = (Throw e,
         advanced jobId (firstn (S (List.length cs)) full_plan)
           (firstn (S (List.length cs)) (all_requests city)) w)
  | (cs, None) =>
      let w1 := advanced jobId full_plan (all_requests city) w in
      exists pages,
        assemblePagesFromSections city neighborhoods (sections_of cs) env w1
        = (Return pages, ticks 5 w1)
        /\ generateContent jobId cityId city env w
           = (Return tt,
              with_rows
                (update_eq_id (research_jobs w1)
                   (completed_patch (now env (5 + clock w)) pages (sections_of cs))
                   jobId)
                (ticks 6 w1))
  end.
Proof.
  rewrite generateContent_eq.
  destruct (collect env (List.length (requests w)) (all_requests city))
    as [cs [e|]] eqn:E; [reflexivity|].
  apply collect_answered in E as (_ & Hlog & Hl). rewrite all_requests_length in Hl.
  destruct (run_sections_summable cs Hl Hlog) as ((wc & Hm) & Hn).
  cbv zeta. set (w1 := advanced jobId full_plan (all_requests city) w).
  unfold sections_of in *.
  match goal with
  | |- context [assemblePagesFromSections city neighborhoods (VObj ?o) env w1] =>
      pose proof (assemble_returns city neighborhoods o env w1 wc Hm Hn) as Ha
  end.
  change (ticks (S (List.length neighborhoods)) w1) with (ticks 5 w1) in Ha.
  eexists. split; [exact Ha|].
  rewrite Ha. rewrite clock_ticks, rows_ticks, (tick_ticks 5 w1). reflexivity.
Qed.

Lemma generateContent_outcome (jobId : nat) (cityId : value) (city : City.t)
  (env : Env) (w : World) :
  (exists cs pages,
      List.length cs = 18%nat
      /\ answered env (List.length (requests w)) (all_requests city) cs
      /\ assemblePagesFromSections city neighborhoods (sections_of cs) env
           (advanced jobId full_plan (all_requests city) w)
         = (Return pages, ticks 5 (advanced jobId full_plan (all_requests city) w))
      /\ generateContent jobId cityId city env w
         = (Return tt,
            with_rows
              (update_eq_id (research_jobs w)
                 (completed_patch (now env (5 + clock w)) pages (sections_of cs))
                 jobId)
              (ticks 6 (advanced jobId full_plan (all_requests city) w))))
  \/ (exists cs e req rep,
        (List.length cs < 18)%nat
        /\ answered env (List.length (requests w)) (all_requests city) cs
        /\ nth_error (all_requests city) (List.length cs) = Some req
        /\ nth_error full_plan (List.length cs) = Some rep
        /\ turn_at env (List.length (requests w) + List.length cs) req = Throw e
        /\ generateContent jobId cityId city env w
           = (Throw e,
              {| research_jobs :=
                   update_eq_id (research_jobs w) (progress_patch rep) jobId;
                 clock := clock w;
                 requests := requests w ++ firstn (S (List.length cs)) (all_requests city);
                 reported := reported w ++ firstn (S (List.length cs)) full_plan |})).
Proof.
  pose proof (generateContent_run jobId cityId city env w) as H.
  destruct (collect env (List.length (requests w)) (all_requests city))
    as [cs [e|]] eqn:E; apply collect_answered in E as (Ha & _ & Hf).
  - right. destruct Hf as (req & Hn & Hp).
    assert (Hl : (List.length cs < 18)%nat).
    { rewrite <- (all_requests_length city). apply nth_error_Some. congruence. }
    destruct (nth_error full_plan (List.length cs)) as [rep|] eqn:Hr.
    2:{ apply nth_error_None in Hr. rewrite full_plan_length in Hr. lia. }
    exists cs, e, req, rep. repeat (split; [assumption|]).
    rewrite H. f_equal. unfold advanced. f_equal.
    assert (Hk : (List.length cs < List.length full_plan)%nat)
      by (rewrite full_plan_length; lia).
    rewrite (firstn_S_snoc rep full_plan _ Hk), written_snoc.
    rewrite (nth_error_nth _ _ rep Hr). reflexivity.
  - left. cbv zeta in H. destruct H as (pages & Hp & Hg).
    exists cs, pages. split; [exact Hf|]. split; [exact Ha|]. split; [exact Hp|].
    rewrite Hg. f_equal. f_equal.
    change (research_jobs (advanced jobId full_plan (all_requests city) w))
      with (written (research_jobs w) jobId full_plan).
    apply update_completed_written.
Qed.

(** ** Rows, pages and the handler: lemmas for the properties below *)

Lemma find_job_update_eq_id (rows : list Job.t) (p : Patch) (jobId : nat) :
  find_job (update_eq_id rows p jobId) jobId
  = option_map (apply_patch p) (find_job rows jobId).
Proof.
  induction rows as [|j r IH]; [reflexivity|].
  cbn [update_eq_id map find_job]. destruct (Nat.eqb (Job.id j) jobId) eqn:E.
  - change (Job.id (apply_patch p j)) with (Job.id j). rewrite E. reflexivity.
  - rewrite E. exact IH.
Qed.

Lemma find_job_id (rows : list Job.t) (jobId : nat) (j : Job.t) :
  find_job rows jobId = Some j -> Job.id j = jobId.
Proof.
  induction rows as [|a r IH]; [discriminate|].
  cbn [find_job]. destruct (Nat.eqb (Job.id a) jobId) eqn:E; [|exact IH].
  intros [= <-]. apply Nat.eqb_eq. exact E.
Qed.

(** The pages that the assembler returns. *)
Lemma assemble_pages (city : City.t) (l : list string) (o : list (string * value))
  (env : Env) (w w' : World) (pages : list Page.t) :
  assemblePagesFromSections city l (VObj o) env w = (Return pages, w') ->
  exists wordCount,
    total_words (main_of (VObj o)) main_keys = Return wordCount
    /\ Forall (fun n => summable (neighborhood_of (VObj o) n) neighborhood_keys) l
    /\ pages = main_page city (main_of (VObj o)) wordCount (now env (clock w))
                 :: neighborhood_pages city (VObj o) (now env) (S (clock w)) l
    /\ w' = ticks (S (List.length l)) w.
Proof.
  intros H. destruct (assemble_returned _ _ _ _ _ _ _ H) as ((wc & Hm) & Hl).
  rewrite (assemble_returns city l o env w wc Hm Hl) in H.
  apply pair_eq_inv in H as [H <-]. injection H as <-.
  exists wc. auto.
Qed.

Lemma opt_get_non_object (x : value) :
  (forall m, x <> VObj m) -> forall k, opt_get (js_or x (VObj [])) k = VUndefined.
Proof.
  intros H k. unfold js_or. destruct (truthy x); [|reflexivity].
  destruct x; try reflexivity. exfalso. exact (H props eq_refl).
Qed.

Lemma or_zero_counted (section : value) :
  counts_words section ->
  js_or (opt_get section "wordCount") (VNum (num 0)) = VNum (counted section).
Proof.
  unfold counts_words, counted.
  destruct (opt_get section "wordCount") as [| | |q| | | | |]; try contradiction; intros _.
  - reflexivity.
  - unfold js_or. cbn [truthy]. destruct (Qeq_bool q 0) eqn:E; [|reflexivity].
    cbn [negb]. f_equal. apply Qc_is_canon. apply Qeq_bool_eq in E.
    rewrite E. reflexivity.
Qed.

Lemma word_counts_counted (own : value) (keys : list string) :
  Forall (fun k => counts_words (opt_get own k)) keys ->
  word_counts own keys = map VNum (map (fun k => counted (opt_get own k)) keys).
Proof.
  unfold word_counts. induction 1 as [|k r Hk _ IH]; [reflexivity|].
  cbn [map]. rewrite IH, (or_zero_counted _ Hk). reflexivity.
Qed.

Lemma number_add_number (s : value) (x : Qc) : is_number (number_add s (VNum x)) = true.
Proof.
  destruct s; try reflexivity. cbn [number_add]. unfold binary64.
  destruct (nearest _); reflexivity.
Qed.

Lemma add_all_numbers (qs : list Qc) :
  forall s,
    is_number s = true ->
    add_all s (map VNum qs)
    = Return (fold_left (fun sum x => number_add sum (VNum x)) qs s).
Proof.
  induction qs as [|q r IH]; intros s Hs; [reflexivity|].
  cbn [map add_all fold_left].
  assert (E : js_add s (VNum q) = Return (number_add s (VNum q)))
    by (destruct s; try discriminate; reflexivity).
  rewrite E. apply IH. apply number_add_number.
Qed.

Lemma total_words_numbers (own : value) (keys : list string) :
  Forall (fun k => counts_words (opt_get own k)) keys ->
  total_words own keys = Return (sum64 (map (fun k => counted (opt_get own k)) keys)).
Proof.
  intros H. unfold total_words, sum64. rewrite (word_counts_counted own keys H).
  destruct (map (fun k => counted (opt_get own k)) keys) as [|q r]; [reflexivity|].
  cbn [map]. apply add_all_numbers. reflexivity.
Qed.

Lemma sum64_whole (zs : list Z) :
  forall a,
    0 <= a ->
    Forall (fun z => 0 <= z) zs ->
    a + total zs <= 2 ^ 53 ->
    fold_left (fun sum x => number_add sum (VNum x)) (map num zs) (VNum (num a))
    = VNum (num (a + total zs)).
Proof.
  induction zs as [|z r IH]; intros a Ha Hz Hb.
  - cbn [map fold_left total fold_right]. rewrite Z.add_0_r. reflexivity.
  - inversion Hz as [|? ? Hz0 Hr]; subst.
    assert (Ht : 0 <= total r).
    { clear - Hr. induction Hr as [|y r' Hy _ IHr]; [cbn; lia|].
      change (total (y :: r')) with (y + total r'). lia. }
    change (total (z :: r)) with (z + total r) in *.
    cbn [map fold_left]. rewrite number_add_integers by lia.
    rewrite (IH (a + z)) by (auto; lia). f_equal. f_equal. lia.
Qed.

Lemma sum64_total (qs : list Qc) (zs : list Z) :
  qs = map num zs ->
  Forall (fun z => 0 <= z) zs ->
  total zs <= 2 ^ 53 ->
  sum64 qs = VNum (num (total zs)).
Proof.
  intros -> Hz Hb. destruct zs as [|z r]; [reflexivity|].
  inversion Hz; subst. cbn [map sum64].
  apply sum64_whole; assumption.
Qed.

Lemma add_all_string (r : list value) :
  forall (a : string) (v : value),
    add_all (VStr a) r = Return v -> exists rest, v = VStr (a ++ rest).
Proof.
  induction r as [|x r IH]; intros a v H.
  - injection H as <-. exists "". rewrite string_app_nil_r. reflexivity.
  - cbn [add_all] in H. unfold js_add in H. cbn [to_primitive] in H.
    destruct (to_primitive x) as [px|e]; [|discriminate].
    cbn [is_string orb] in H.
    change (primitive_string (VStr a)) with a in H.
    destruct (IH _ _ H) as (rest & ->). rewrite string_app_assoc. eauto.
Qed.

Lemma total_zeros (A : Type) (keys : list A) : total (map (fun _ => 0) keys) = 0.
Proof.
  induction keys as [|k r IH]; [reflexivity|].
  cbn [map]. change (total (0 :: map (fun _ => 0) r)) with (0 + total (map (fun _ => 0) r)).
  rewrite IH. reflexivity.
Qed.

Lemma total_words_undefined (own : value) (keys : list string) :
  (forall k, opt_get own k = VUndefined) ->
  total_words own keys = Return (VNum (num 0)).
Proof.
  intros H. rewrite total_words_numbers.
  - assert (E : map (fun k => counted (opt_get own k)) keys = map num (map (fun _ => 0) keys)).
    { rewrite map_map. apply map_ext. intros k. unfold counted. rewrite H. reflexivity. }
    rewrite (sum64_total _ _ E).
    + rewrite total_zeros. reflexivity.
    + clear. induction keys; constructor; [lia|assumption].
    + rewrite total_zeros. lia.
  - induction keys; constructor; [|assumption].
    unfold counts_words. rewrite H. exact I.
Qed.

Lemma background_eq (sent : bool) (jobId : nat) (cityId : value) (city : City.t)
  (env : Env) (w : World) :
  background sent jobId cityId city env w
  = match generateContent jobId cityId city env w with
    | (Return a, w1) => (Return a, w1)
    | (Throw e, w1) =>
        (Return tt,
         if sent then
           with_rows
             (update_eq_id (research_jobs w1) (failed_patch (now env (clock w1)) e) jobId)
             (tick w1)
         else tick w1)
    end.
Proof.
  unfold background, try_catch.
  destruct (generateContent jobId cityId city env w) as [[a|e] w1]; [reflexivity|].
  destruct sent; reflexivity.
Qed.

Lemma post_research_eq (sent : bool) (body : value) (env : Env) (w : World) :
  post_research sent body env w
  = match destructure body "cityId" with
    | Throw e => (Throw e, w)
    | Return cityId =>
        if truthy cityId then
          match to_string cityId with
          | Throw e => (Throw e, w)
          | Return _ =>
              match select_city env cityId with
              | (Some city, None) =>
                  match insert_error env (List.length (research_jobs w)) with
                  | Some _ =>
                      (Return ({| code := 500; json := error_body "Failed to create job" |},
                               None),
                       tick w)
                  | None =>
                      (Return
                         ({| code := 200;
                             json :=
                               VObj [("success", VBool true);
                                     ("jobId",
                                      VNum (num (Z.of_nat (next_id (research_jobs w)))));
                                     ("message", VStr "Content generation started")] |},
                          Some (background sent (next_id (research_jobs w)) cityId city)),
                       {| research_jobs :=
                            research_jobs w
                              ++ [ {| Job.id := next_id (research_jobs w);
                                      Job.city_id := cityId;
                                      Job.status := "processing";
                                      Job.progress := 0;
                                      Job.current_step := "Starting...";
                                      Job.started_at := now env (clock w);
                                      Job.completed_at := None;
                                      Job.error_message := None;
                                      Job.results_json :=
                                        {| pages := None; sections := VObj [] |} |} ];
                          clock := S (clock w);
                          requests := requests w;
                          reported := reported w |})
                  end
              | _ =>
                  (Return ({| code := 404; json := error_body "City not found" |}, None), w)
              end
          end
        else (Return ({| code := 400; json := error_body "City ID required" |}, None), w)
    end.
Proof.
  unfold post_research, bind at 1, lift.
  destruct (destructure body "cityId") as [cityId|e]; [|reflexivity].
  destruct (truthy cityId); [|reflexivity]. cbn [negb].
  unfold bind at 1, lift. destruct (to_string cityId) as [text|e]; [|reflexivity].
  unfold try_catch, bind at 1, select_single.
  destruct (select_city env cityId) as [[city|] [err|]]; try reflexivity.
  unfold bind at 1, new_Date_toISOString.
  unfold bind at 1, insert_research_job. cbn [research_jobs].
  destruct (insert_error env (List.length (research_jobs w))); reflexivity.
Qed.

Lemma post_research_rejected (sent : bool) (body cityId : value) (env : Env) (w : World) :
  destructure body "cityId" = Return cityId ->
  (truthy cityId = false ->
   post_research sent body env w
   = (Return ({| code := 400; json := error_body "City ID required" |}, None), w))
  /\ (truthy cityId = true ->
      convertible cityId = true ->
      (forall city, select_city env cityId <> (Some city, None)) ->
      post_research sent body env w
      = (Return ({| code := 404; json := error_body "City not found" |}, None), w))
  /\ (truthy cityId = true ->
      convertible cityId = true ->
      forall city err,
        select_city env cityId = (Some city, None) ->
        insert_error env (List.length (research_jobs w)) = Some err ->
        post_research sent body env w
        = (Return ({| code := 500; json := error_body "Failed to create job" |}, None),
           tick w))
  /\ (truthy cityId = true ->
      convertible cityId = false ->
      post_research sent body env w = (Throw cannot_convert, w)).
Proof.
  intros Hb. rewrite post_research_eq, Hb. split; [|split; [|split]].
  - intros ->. reflexivity.
  - intros -> Hc Hno. apply to_string_convertible in Hc as (text & ->).
    destruct (select_city env cityId) as [[city|] [err|]] eqn:E; try reflexivity.
    exfalso. exact (Hno city eq_refl).
  - intros -> Hc city err Hs Hi. apply to_string_convertible in Hc as (text & ->).
    rewrite Hs, Hi. reflexivity.
  - intros -> Hc. pose proof (to_string_outcome cityId) as H. rewrite Hc in H.
    rewrite H. reflexivity.
Qed.

Lemma post_research_accepted (sent : bool) (body cityId : value) (city : City.t)
  (env : Env) (w : World) :
  destructure body "cityId" = Return cityId ->
  truthy cityId = true ->
  convertible cityId = true ->
  select_city env cityId = (Some city, None) ->
  insert_error env (List.length (research_jobs w)) = None ->
  post_research sent body env w
  = (Return
       ({| code := 200;
           json := VObj [("success", VBool true);
                         ("jobId", VNum (num (Z.of_nat (next_id (research_jobs w)))));
                         ("message", VStr "Content generation started")] |},
        Some (background sent (next_id (research_jobs w)) cityId city)),
     {| research_jobs :=
          research_jobs w
            ++ [ {| Job.id := next_id (research_jobs w);
                    Job.city_id := cityId;
                    Job.status := "processing";
                    Job.progress := 0;
                    Job.current_step := "Starting...";
                    Job.started_at := now env (clock w);
                    Job.completed_at := None;
                    Job.error_message := None;
                    Job.results_json := {| pages := None; sections := VObj [] |} |} ];
        clock := S (clock w);
        requests := requests w;
        reported := reported w |}).
Proof.
  intros Hb Ht Hc Hs Hi. rewrite post_research_eq, Hb, Ht.
  apply to_string_convertible in Hc as (text & ->). rewrite Hs, Hi. reflexivity.
Qed.

(** * The claims of the specification *)

(** ** Progress of a successful run *)

(** C1, what the code does.  In every successful run the progress values
    written for the job, each rounded to the nearest integer, are 5, 15,
    25, 35, 45, 50, 50, 54, 58, 63, 67, 71, 75, 79, 83, 88, 92, 96 and 95
    in this order.  The last value written before completion is 95 and
    the completion sets the progress to 100, as the claim says; but the
    sequence is non-decreasing only up to the 96 of the last neighborhood
    section: the 95 of the assembly follows it, so the sequence as a
    whole is not non-decreasing. *)
Theorem successful_run_progress (jobId : nat) (cityId : value) (city : City.t)
  (env : Env) (w w' : World) (job : Job.t) :
  generateContent jobId cityId city env w = (Return tt, w') ->
  find_job (research_jobs w) jobId = Some job ->
  exists reps job',
    reported w' = (reported w ++ reps)%list
    /\ rounded reps
       = [5; 15; 25; 35; 45; 50; 50; 54; 58; 63; 67; 71; 75; 79; 83; 88; 92; 96; 95]
    /\ non_decreasing (removelast (rounded reps))
    /\ ~ non_decreasing (rounded reps)
    /\ last (rounded reps) 0 = 95
    /\ find_job (research_jobs w') jobId = Some job'
    /\ Job.status job' = "completed"
    /\ Job.progress job' = 100.
Proof.
  intros H Hj.
  destruct (generateContent_outcome jobId cityId city env w)
    as [(cs & pages & _ & _ & _ & Hg)|(cs & e & req & rep & _ & _ & _ & _ & _ & Hg)];
    rewrite Hg in H; [|discriminate].
  apply pair_eq_inv in H as [_ <-].
  exists full_plan. eexists.
  split; [unfold with_rows; cbn [reported]; rewrite reported_ticks; reflexivity|].
  assert (Hr : rounded full_plan
               = [5; 15; 25; 35; 45; 50; 50; 54; 58; 63; 67; 71; 75; 79; 83; 88; 92; 96; 95])
    by (vm_compute; reflexivity).
  rewrite Hr. split; [reflexivity|]. split; [|split; [|split; [reflexivity|]]].
  - intros i a b Ha Hb. cbn [removelast] in Ha, Hb.
    do 17 (destruct i as [|i]; [injection Ha as <-; injection Hb as <-; lia|]).
    destruct i; discriminate Hb.
  - intros Hn. specialize (Hn 17%nat 96 95 eq_refl eq_refl). lia.
  - unfold with_rows. cbn [research_jobs]. rewrite find_job_update_eq_id, Hj.
    split; [reflexivity|]. split; reflexivity.
Qed.

Lemma successful_run_progress_witness :
  exists reps job',
    reported (snd (generateContent 0 (VStr "c1") springfield steady_env started_world))
    = (reported started_world ++ reps)%list
    /\ rounded reps
       = [5; 15; 25; 35; 45; 50; 50; 54; 58; 63; 67; 71; 75; 79; 83; 88; 92; 96; 95]
    /\ non_decreasing (removelast (rounded reps))
    /\ ~ non_decreasing (rounded reps)
    /\ last (rounded reps) 0 = 95
    /\ find_job
         (research_jobs (snd (generateContent 0 (VStr "c1") springfield steady_env
                                started_world))) 0
       = Some job'
    /\ Job.status job' = "completed"
    /\ Job.progress job' = 100.
Proof.
  apply (successful_run_progress 0 (VStr "c1") springfield steady_env started_world
           (snd (generateContent 0 (VStr "c1") springfield steady_env started_world))
           fresh_job).
  - vm_compute. reflexivity.
  - reflexivity.
Defined.

(** ** A failure on the second main section *)

Lemma collect_second_fails (env : Env) (k : nat) (city : City.t) (first : value) (e : exn) :
  turn_at env k (main_request city "hero_services" 3000) = Return first ->
  turn_at env (S k) (main_request city "areas_whychoose" 2500) = Throw e ->
  collect env k (all_requests city) = ([first], Some e).
Proof.
  intros H0 H1.
  change (all_requests city)
    with (main_request city "hero_services" 3000
            :: main_request city "areas_whychoose" 2500 :: tl (tl (all_requests city))).
  cbn [collect]. rewrite H0, H1. reflexivity.
Qed.

(** C2, the claim as stated fails: when the second answer of the provider
    is [{not json}], extraction throws the [SyntaxError] of [JSON.parse]
    on the second main section, and the progress that stays in the row of
    the job is 15, the checkpoint of that second section, not 5: the
    report is written before the section is generated. *)
Lemma malformed_second_section_leaves_progress_15 :
  turn_at faulty_env 0 (main_request springfield "hero_services" 3000)
  = Return (VObj [("content", VStr "x"); ("wordCount", VNum (num 1))])
  /\ create_message faulty_env 1 (main_request springfield "areas_whychoose" 2500)
     = Return (text_response "{not json}")
  /\ extract_payload (syntax_error faulty_env) (text_response "{not json}")
     = Throw (SyntaxError (sample_wording "{not json}"))
  /\ forall sent,
       exists w' job',
         background sent 0 (VStr "c1") springfield faulty_env started_world = (Return tt, w')
         /\ find_job (research_jobs w') 0 = Some job'
         /\ Job.progress job' = 15
         /\ Job.progress job' <> 5.
Proof.
  split; [vm_compute; reflexivity|]. split; [reflexivity|].
  split; [vm_compute; reflexivity|].
  intros [|]; eexists; eexists;
    (split; [vm_compute; reflexivity|]);
    (split; [vm_compute; reflexivity|]);
    (split; [reflexivity|discriminate]).
Qed.

(** C2, as amended.  If extraction throws the [SyntaxError] of
    [JSON.parse] (the MalformedPayloadError of the specification) on the
    answer to the request of the second main section, the first section
    having been generated, then the run stops there with that error
    after two requests, and the row of the job keeps the progress 15 and
    the step of the second section, whose report had been written before
    the request, and the results it had before the run: no pages for a
    job that the handler has just created.  If the store receives the
    update of the failure handler, the status becomes "failed", the error
    message is the message of that error and the completion time is
    set. *)
Theorem malformed_second_section (sent : bool) (jobId : nat) (cityId : value)
  (city : City.t) (env : Env) (w : World) (job : Job.t) (first : value)
  (response : list Block.t) (e : exn) :
  find_job (research_jobs w) jobId = Some job ->
  turn_at env (List.length (requests w)) (main_request city "hero_services" 3000)
  = Return first ->
  create_message env (S (List.length (requests w)))
    (main_request city "areas_whychoose" 2500) = Return response ->
  extract_payload (syntax_error env) response = Throw e ->
  name e = "SyntaxError" ->
  exists w1 w2 job',
    generateContent jobId cityId city env w = (Throw e, w1)
    /\ List.length (requests w1) = (2 + List.length (requests w))%nat
    /\ background sent jobId cityId city env w = (Return tt, w2)
    /\ find_job (research_jobs w2) jobId = Some job'
    /\ Job.progress job' = 15
    /\ Job.current_step job' = "Main page: Areas & Why Choose Us..."
    /\ Job.results_json job' = Job.results_json job
    /\ (pages (Job.results_json job) = None -> pages (Job.results_json job') = None)
    /\ (sent = true ->
        Job.status job' = "failed"
        /\ Job.error_message job' = Some (message e)
        /\ Job.completed_at job' = Some (now env (clock w))).
Proof.
  intros Hj H0 Hc He _.
  assert (H1 : turn_at env (S (List.length (requests w)))
                 (main_request city "areas_whychoose" 2500) = Throw e).
  { unfold turn_at, payload_at. rewrite Hc, He. reflexivity. }
  pose proof (generateContent_run jobId cityId city env w) as Hg.
  rewrite (collect_second_fails env _ city first e H0 H1) in Hg.
  cbn [List.length] in Hg.
  change (firstn 2 full_plan)
    with [(num 5, "Main page: Hero & Services...");
          (num 15, "Main page: Areas & Why Choose Us...")] in Hg.
  rewrite background_eq, Hg.
  assert (Hl : List.length (requests (advanced jobId
                 [(num 5, "Main page: Hero & Services...");
                  (num 15, "Main page: Areas & Why Choose Us...")]
                 (firstn 2 (all_requests city)) w))
               = (2 + List.length (requests w))%nat).
  { cbn [advanced requests]. rewrite length_app.
    change (List.length (firstn 2 (all_requests city))) with 2%nat. lia. }
  destruct sent; eexists; eexists; eexists;
    (split; [reflexivity|]); (split; [exact Hl|]); (split; [reflexivity|]);
    unfold advanced, written; cbn [fold_left with_rows tick research_jobs clock];
    rewrite !find_job_update_eq_id, Hj; cbn [option_map];
    (split; [reflexivity|]); (split; [reflexivity|]); (split; [reflexivity|]);
    (split; [reflexivity|]); (split; [intros Hp; exact Hp|]).
  - intros _. repeat split.
  - discriminate.
Qed.

Lemma malformed_second_section_witness :
  exists w1 w2 job',
    generateContent 0 (VStr "c1") springfield faulty_env started_world
    = (Throw (SyntaxError (sample_wording "{not json}")), w1)
    /\ background true 0 (VStr "c1") springfield faulty_env started_world = (Return tt, w2)
    /\ find_job (research_jobs w2) 0 = Some job'
    /\ Job.progress job' = 15
    /\ Job.status job' = "failed"
    /\ Job.error_message job' = Some (sample_wording "{not json}").
Proof.
  destruct (malformed_second_section true 0 (VStr "c1") springfield faulty_env
              started_world fresh_job
              (VObj [("content", VStr "x"); ("wordCount", VNum (num 1))])
              (text_response "{not json}")
              (SyntaxError (sample_wording "{not json}")))
    as (w1 & w2 & job' & Hg & _ & Hb & Hf & Hp & _ & _ & _ & Hs).
  - reflexivity.
  - vm_compute. reflexivity.
  - reflexivity.
  - vm_compute. reflexivity.
  - reflexivity.
  - destruct (Hs eq_refl) as (Hst & Hm & _).
    exists w1, w2, job'. repeat split; assumption.
Defined.

(** ** The checkpoints of the neighborhood sections *)




(** ** The pages of a job for Springfield *)

(** C4, the claim as stated fails: a job has no neighborhood list of its
    own, so a successful job for Springfield completes with five pages,
    not three. *)
Lemma springfield_job_has_five_pages :
  exists w' job' stored,
    generateContent 0 (VStr "c1") springfield steady_env started_world = (Return tt, w')
    /\ find_job (research_jobs w') 0 = Some job'
    /\ Job.status job' = "completed"
    /\ pages (Job.results_json job') = Some stored
    /\ List.length stored = 5%nat
    /\ List.length stored <> 3%nat.
Proof.
  eexists. eexists. eexists.
  split; [vm_compute; reflexivity|].
  split; [vm_compute; reflexivity|].
  split; [reflexivity|]. split; [reflexivity|].
  split; [reflexivity|discriminate].
Qed.

(** C4, as amended.  For the city with id "c1", name "Springfield" and
    state code "IL", a successful job completes with exactly five pages,
    the main page followed by the pages of Downtown, Northside, Westside
    and Eastside: the title of the main page is "Dumpster Rental in
    Springfield, IL - Affordable Roll-Off Rentals" and the title of the
    second neighborhood page is "Dumpster Rental in Northside,
    Springfield".  The assembler itself, given the neighborhood list
    Downtown, Northside, returns exactly three pages whenever it
    returns, the main page and the two neighborhood pages in the order
    of the list, with these titles. *)
Theorem springfield_pages (jobId : nat) (cityId : value) (env : Env) (w w' : World)
  (job : Job.t) :
  generateContent jobId cityId springfield env w = (Return tt, w') ->
  find_job (research_jobs w) jobId = Some job ->
  (exists job' stored,
      find_job (research_jobs w') jobId = Some job'
      /\ Job.status job' = "completed"
      /\ pages (Job.results_json job') = Some stored
      /\ map Page.type stored
         = ["main"; "neighborhood"; "neighborhood"; "neighborhood"; "neighborhood"]
      /\ map Page.neighborhoodName stored
         = [None; Some "Downtown"; Some "Northside"; Some "Westside"; Some "Eastside"]
      /\ map Page.title stored
         = ["Dumpster Rental in Springfield, IL - Affordable Roll-Off Rentals";
            "Dumpster Rental in Downtown, Springfield";
            "Dumpster Rental in Northside, Springfield";
            "Dumpster Rental in Westside, Springfield";
            "Dumpster Rental in Eastside, Springfield"])
  /\ (forall o env0 w0 ps w1,
        assemblePagesFromSections springfield ["Downtown"; "Northside"] (VObj o) env0 w0
        = (Return ps, w1) ->
        map Page.type ps = ["main"; "neighborhood"; "neighborhood"]
        /\ map Page.neighborhoodName ps = [None; Some "Downtown"; Some "Northside"]
        /\ map Page.title ps
           = ["Dumpster Rental in Springfield, IL - Affordable Roll-Off Rentals";
              "Dumpster Rental in Downtown, Springfield";
              "Dumpster Rental in Northside, Springfield"]).
Proof.
  intros H Hj. split.
  - destruct (generateContent_outcome jobId cityId springfield env w)
      as [(cs & stored & _ & _ & Ha & Hg)|(cs & e & req & rep & _ & _ & _ & _ & _ & Hg)];
      rewrite Hg in H; [|discriminate].
    apply pair_eq_inv in H as [_ <-].
    eexists. exists stored. split.
    { unfold with_rows. cbn [research_jobs]. rewrite find_job_update_eq_id, Hj. reflexivity. }
    split; [reflexivity|]. split; [reflexivity|].
    unfold sections_of in Ha.
    destruct (assemble_pages _ _ _ _ _ _ _ Ha) as (wc & _ & _ & -> & _).
    repeat split.
  - intros o env0 w0 ps w1 Ha.
    destruct (assemble_pages _ _ _ _ _ _ _ Ha) as (wc & _ & _ & -> & _).
    repeat split.
Qed.

Lemma springfield_pages_witness :
  exists job' stored,
    find_job
      (research_jobs (snd (generateContent 0 (VStr "c1") springfield steady_env started_world)))
      0 = Some job'
    /\ pages (Job.results_json job') = Some stored
    /\ map Page.title stored
       = ["Dumpster Rental in Springfield, IL - Affordable Roll-Off Rentals";
          "Dumpster Rental in Downtown, Springfield";
          "Dumpster Rental in Northside, Springfield";
          "Dumpster Rental in Westside, Springfield";
          "Dumpster Rental in Eastside, Springfield"].
Proof.
  destruct (springfield_pages 0 (VStr "c1") steady_env started_world
              (snd (generateContent 0 (VStr "c1") springfield steady_env started_world))
              fresh_job)
    as ((job' & stored & Hf & _ & Hp & _ & _ & Ht) & _).
  - vm_compute. reflexivity.
  - reflexivity.
  - exists job', stored. repeat split; assumption.
Defined.

(** ** Extraction of the payload *)

(** C5. Extraction takes the span from the first opening brace to the
    last closing brace of the response text and parses it: it returns the
    value that the JSON grammar gives the span, and on a span that is not
    a JSON text, such as [{not json}], it throws the [SyntaxError] of
    [JSON.parse] (the MalformedPayloadError of the specification).  On the
    text [noise {"content":"x","wordCount":1} trailing] it returns the
    object with [content] "x" and [wordCount] 1.  It throws the error
    "No JSON in response" (NoStructuredPayloadError) exactly on the texts
    without a brace-delimited span.  Both section generators return what
    extraction makes of the provider's response. *)
Theorem extraction_contract (wording : string -> string) :
  (forall pre mid post,
      occurs "{" pre = false -> occurs "}" post = false ->
      match_braces (pre ++ "{" ++ mid ++ "}" ++ post) = Some ("{" ++ mid ++ "}"))
  /\ (forall text span,
        match_braces text = Some span ->
        (forall v,
            json_text span v
            <-> extract_payload wording (text_response text) = Return v)
        /\ ((forall v, ~ json_text span v)
            <-> extract_payload wording (text_response text)
                = Throw (SyntaxError (wording span))))
  /\ extract_payload wording (text_response sample_text)
     = Return (VObj [("content", VStr "x"); ("wordCount", VNum (num 1))])
  /\ (forall text,
        extract_payload wording (text_response text) = Throw (Error "No JSON in response")
        <-> ~ exists pre mid post, text = pre ++ "{" ++ mid ++ "}" ++ post)
  /\ (forall v, ~ json_text "{not json}" v)
  /\ extract_payload wording (text_response "{not json}")
     = Throw (SyntaxError (wording "{not json}"))
  /\ (forall city section maxTokens env w response,
        create_message env (List.length (requests w))
          (main_request city section maxTokens) = Return response ->
        fst (generateMainSection city section maxTokens env w)
        = extract_payload (syntax_error env) response)
  /\ (forall city neighborhood section maxTokens env w response,
        create_message env (List.length (requests w))
          (neighborhood_request city neighborhood section maxTokens) = Return response ->
        fst (generateNeighborhoodSection city neighborhood section maxTokens env w)
        = extract_payload (syntax_error env) response).
Proof.
  assert (Hspan : forall text,
             extract_payload wording (text_response text)
             = match match_braces text with
               | Some span => JSON_parse wording span
               | None => Throw (Error "No JSON in response")
               end) by reflexivity.
  split; [|split; [|split; [|split; [|split; [|split; [|split]]]]]].
  - intros pre mid post Hpre Hpost.
    change (pre ++ "{" ++ mid ++ "}" ++ post)
      with (pre ++ String "{" (mid ++ String "}" post)).
    exact (match_braces_span pre mid post Hpre Hpost).
  - intros text span Hm. rewrite Hspan, Hm.
    destruct (JSON_parse_spec wording span) as (Hv & Hno).
    split; [intros v; symmetry; apply Hv|exact Hno].
  - vm_compute. reflexivity.
  - intros text. rewrite <- match_braces_none_iff, Hspan.
    destruct (match_braces text) as [span|]; split; intros H;
      try reflexivity; try discriminate.
    apply JSON_parse_throws in H. discriminate.
  - intros v Hv. apply (JSON_parse_complete wording) in Hv. vm_compute in Hv. discriminate.
  - vm_compute. reflexivity.
  - intros city section maxTokens env w response H.
    unfold generateMainSection, bind, anthropic_messages_create.
    rewrite H. reflexivity.
  - intros city neighborhood section maxTokens env w response H.
    unfold generateNeighborhoodSection, bind, anthropic_messages_create.
    rewrite H. reflexivity.
Qed.

Lemma extraction_contract_witness :
  match_braces ("a" ++ "{" ++ "b" ++ "}" ++ "c") = Some ("{" ++ "b" ++ "}")
  /\ (json_text (dq "{'n': [1, 2]}") (VObj [("n", VArr [VNum (num 1); VNum (num 2)])])
      <-> extract_payload sample_wording (text_response (dq "so: {'n': [1, 2]}."))
          = Return (VObj [("n", VArr [VNum (num 1); VNum (num 2)])]))
  /\ fst (generateMainSection springfield "hero_services" 3000 steady_env empty_world)
     = extract_payload (syntax_error steady_env) (text_response sample_text).
Proof.
  destruct (extraction_contract sample_wording) as (H1 & H2 & _ & _ & _ & _ & H7 & _).
  split; [apply (H1 "a" "b" "c"); reflexivity|].
  split.
  - apply (H2 (dq "so: {'n': [1, 2]}.") (dq "{'n': [1, 2]}")). reflexivity.
  - apply (H7 springfield "hero_services" 3000 steady_env empty_world). reflexivity.
Defined.

(** ** The word count of the main page *)

(** C6, the claim as stated fails.  Word counts are added with [+]: a
    first main section that reports its word count as the string "1200"
    gives the main page the word count "120000000", a string, the zeros
    of the five other sections being appended to it.  And the sum of
    numbers is rounded: the reports 2^53 and 1 give the word count 2^53,
    not 2^53 + 1. *)
Lemma word_counts_are_not_always_added :
  (exists pages w' main,
      assemblePagesFromSections springfield [] (VObj stringly_sections) steady_env empty_world
      = (Return pages, w')
      /\ nth_error pages 0 = Some main
      /\ Page.wordCount main = VStr "120000000"
      /\ Page.wordCount main <> VNum (num 1200))
  /\ (exists pages w' main,
        assemblePagesFromSections springfield [] (VObj large_sections) steady_env empty_world
        = (Return pages, w')
        /\ nth_error pages 0 = Some main
        /\ Page.wordCount main = VNum (num (2 ^ 53))
        /\ Page.wordCount main <> VNum (num (2 ^ 53 + 1))).
Proof.
  split.
  - eexists. eexists. eexists. split; [vm_compute; reflexivity|].
    split; [reflexivity|]. split; [reflexivity|discriminate].
  - eexists. eexists. eexists. split; [vm_compute; reflexivity|].
    split; [reflexivity|]. split; [reflexivity|].
    intros E. vm_compute in E. discriminate.
Qed.

(** C6, as amended.  Whenever the assembler returns on a sections object
    in which every main section that is present reports a finite number
    as its [wordCount], or none, the word count of the main page is the
    sum of the six reports taken from left to right, an absent section
    or report counting as zero and each addition rounding its result to
    the nearest double.  When the reports are whole numbers, none
    negative, with a total of at most 2^53, no addition rounds and the
    word count is their total: 5400 for the reports 1200, 1000, 700,
    1000, 1000 and 500. *)
Theorem main_page_word_count (city : City.t) (l : list string)
  (o : list (string * value)) (env : Env) (w w' : World) (pages : list Page.t) :
  assemblePagesFromSections city l (VObj o) env w = (Return pages, w') ->
  let ms := js_or (opt_get (VObj o) "main") (VObj []) in
  Forall (fun k => counts_words (opt_get ms k)) main_keys ->
  exists main,
    nth_error pages 0 = Some main
    /\ Page.wordCount main
       = sum64 [counted (opt_get ms "hero_services");
                counted (opt_get ms "areas_whychoose");
                counted (opt_get ms "pricing_process");
                counted (opt_get ms "faqs_part1");
                counted (opt_get ms "faqs_part2");
                counted (opt_get ms "testimonials_cta")]
    /\ (forall zs,
          whole_counts ms main_keys zs -> Page.wordCount main = VNum (num (total zs)))
    /\ (whole_counts ms main_keys [1200; 1000; 700; 1000; 1000; 500] ->
        Page.wordCount main = VNum (num 5400)).
Proof.
  intros H ms Hc. subst ms.
  destruct (assemble_pages _ _ _ _ _ _ _ H) as (wc & Hm & _ & -> & _).
  fold (main_of (VObj o)) in *.
  rewrite (total_words_numbers _ _ Hc) in Hm. injection Hm as <-.
  eexists. split; [reflexivity|]. split; [reflexivity|].
  cbn [main_page Page.wordCount].
  assert (Hz : forall zs,
             whole_counts (main_of (VObj o)) main_keys zs ->
             sum64 (map (fun k => counted (opt_get (main_of (VObj o)) k)) main_keys)
             = VNum (num (total zs))).
  { intros zs (Hz & Hp & Hb). exact (sum64_total _ zs Hz Hp Hb). }
  split; [exact Hz|]. intros Hs. exact (Hz _ Hs).
Qed.

Lemma main_page_word_count_witness :
  exists main,
    nth_error
      (match fst (assemblePagesFromSections springfield [] (VObj sample_sections)
                    steady_env empty_world) with
       | Return pages => pages
       | Throw _ => []
       end) 0 = Some main
    /\ Page.wordCount main = VNum (num 5400).
Proof.
  destruct (assemblePagesFromSections springfield [] (VObj sample_sections)
              steady_env empty_world) as [[pages|e] w'] eqn:E;
    [|vm_compute in E; discriminate].
  destruct (main_page_word_count springfield [] sample_sections
              steady_env empty_world w' pages E) as (main & Hn & _ & _ & Hw).
  - repeat constructor.
  - exists main. cbn [fst]. split; [exact Hn|].
    apply Hw.
    split; [reflexivity|]. split; [repeat constructor; lia|vm_compute; discriminate].
Defined.
(** ** The Page Assembler on every sections object *)

(** C7, the claim as stated fails: on a sections object whose first main
    section reports as its word count an object with a property
    [toString], the assembler throws a [TypeError]. *)
Lemma assembler_throws_on_a_word_count_without_string :
  ~ (forall (city : City.t) (l : list string) (o : list (string * value))
            (env : Env) (w : World),
        exists pages w',
          assemblePagesFromSections city l (VObj o) env w = (Return pages, w')).
Proof.
  intros H.
  destruct (H springfield ["Downtown"]
              [("main",
                VObj [("hero_services",
                       VObj [("wordCount", VObj [("toString", VNum (num 1))])])])]
              steady_env empty_world) as (pages & w' & E).
  vm_compute in E. discriminate.
Qed.

(** C7, as amended.  The Page Assembler returns on every city,
    neighborhood list and sections object all of whose word counts have a
    primitive form: every value but an object with a property [toString]
    of its own and an array that holds such an object.  It then returns
    one page more than there are neighborhoods.  On the other sections
    objects it throws the [TypeError] of the failed conversion.  It is
    deterministic: two invocations on the same inputs throw the same
    error or return the same pages up to their generation timestamps. *)
Theorem assembler_total_deterministic (city : City.t) (l : list string)
  (o : list (string * value)) :
  ((forallb convertible (word_counts (main_of (VObj o)) main_keys) = true
    /\ forall n, In n l ->
         forallb convertible (word_counts (neighborhood_of (VObj o) n) neighborhood_keys)
         = true)
   <-> forall env w,
         exists pages w',
           assemblePagesFromSections city l (VObj o) env w = (Return pages, w')
           /\ List.length pages = S (List.length l))
  /\ (forall env w e w',
        assemblePagesFromSections city l (VObj o) env w = (Throw e, w') ->
        e = TypeError "Cannot convert object to primitive value")
  /\ (forall env1 w1 env2 w2,
        same_pages (fst (assemblePagesFromSections city l (VObj o) env1 w1))
          (fst (assemblePagesFromSections city l (VObj o) env2 w2))).
Proof.
  split; [|split].
  - split.
    + intros (Hm & Hn) env w.
      apply (summable_iff (main_of (VObj o)) main_keys) in Hm as (wc & Hm); [|cbn; lia].
      assert (Hl : Forall (fun n => summable (neighborhood_of (VObj o) n) neighborhood_keys) l).
      { apply Forall_forall. intros n Hin.
        apply (summable_iff _ neighborhood_keys); [cbn; lia|exact (Hn n Hin)]. }
      eexists. eexists. split; [exact (assemble_returns city l o env w wc Hm Hl)|].
      cbn [List.length]. rewrite neighborhood_pages_length. reflexivity.
    + intros H.
      destruct (H {| now := fun _ => ""; create_message := fun _ _ => Return [];
                     select_city := fun _ => (None, None); insert_error := fun _ => None;
                     syntax_error := fun s => s |}
                  {| research_jobs := []; clock := 0; requests := []; reported := [] |})
        as (pages & w' & E & _).
      apply assemble_returned in E as (Hm & Hl). split.
      * apply (summable_iff _ main_keys); [cbn; lia|exact Hm].
      * intros n Hin. rewrite Forall_forall in Hl.
        apply (summable_iff _ neighborhood_keys); [cbn; lia|exact (Hl n Hin)].
  - intros env w e w' E.
    apply assemble_thrown in E as [(E & _)|(_ & i & n & _ & E & _)];
      apply total_words_throws in E as (-> & _); try reflexivity; cbn; lia.
  - intros env1 w1 env2 w2. apply assemble_same_pages.
Qed.

(** ** A city that the store does not return *)

(** C8, the claim as stated fails: the empty string resolves to no city,
    and a request for it is answered 400 "City ID required", not with
    the not-found error. *)
Lemma falsy_city_id_is_answered_400 :
  (forall city, select_city steady_env (VStr "") <> (Some city, None))
  /\ forall sent,
       exists r,
         serve sent (VObj [("cityId", VStr "")]) steady_env started_world
         = (Return r, started_world)
         /\ code r = 400
         /\ json r = error_body "City ID required"
         /\ r <> {| code := 404; json := error_body "City not found" |}.
Proof.
  split; [intros city; discriminate|].
  intros sent. eexists. split; [reflexivity|]. repeat split. discriminate.
Qed.

(** C8, as amended.  For every city identifier that the request carries
    and the log line can print, and that does not resolve to a city (the
    store returns none, or returns an error), the handler itself answers,
    before any task is started, and leaves the store as it was, so that
    no job is inserted: its answer is 404 "City not found" when the
    identifier is truthy, and 400 "City ID required", given without
    looking the city up, when it is missing or falsy. *)
Theorem unresolved_city_is_rejected (sent : bool) (body cityId : value)
  (env : Env) (w : World) :
  destructure body "cityId" = Return cityId ->
  convertible cityId = true ->
  (forall city, select_city env cityId <> (Some city, None)) ->
  exists r,
    post_research sent body env w = (Return (r, None), w)
    /\ serve sent body env w = (Return r, w)
    /\ r = (if truthy cityId
            then {| code := 404; json := error_body "City not found" |}
            else {| code := 400; json := error_body "City ID required" |}).
Proof.
  intros Hb Hc Hno.
  destruct (post_research_rejected sent body cityId env w Hb) as (H4 & H5 & _).
  destruct (truthy cityId) eqn:Ht; eexists.
  - split; [exact (H5 eq_refl Hc Hno)|]. split; [|reflexivity].
    unfold serve, bind at 1. rewrite (H5 eq_refl Hc Hno). reflexivity.
  - split; [exact (H4 eq_refl)|]. split; [|reflexivity].
    unfold serve, bind at 1. rewrite (H4 eq_refl). reflexivity.
Qed.

Lemma unresolved_city_is_rejected_witness :
  serve true (VObj [("cityId", VStr "c2")]) steady_env started_world
  = (Return {| code := 404; json := error_body "City not found" |}, started_world).
Proof.
  destruct (unresolved_city_is_rejected true (VObj [("cityId", VStr "c2")]) (VStr "c2")
              steady_env started_world) as (r & _ & Hs & ->).
  - reflexivity.
  - reflexivity.
  - intros city. discriminate.
  - exact Hs.
Defined.

(** ** The update of the failure handler *)

(** C9, what the code does.  When a run fails with an error, the handler
    of the background task builds an update of status, error message and
    completion time and of nothing else, so that progress, step and
    results of the row, like its identifier, city and start time, are
    what they were at the point of failure.  But the update is not
    awaited, unlike the other updates of the program: if the client of
    the store sends it, the row is marked "failed" with the message of
    the error and the completion time; if the client sends only what is
    awaited, the row is exactly what it was at the point of failure. *)
Theorem failure_finalization (sent : bool) (jobId : nat) (cityId : value)
  (city : City.t) (env : Env) (w w1 : World) (e : exn) (job1 : Job.t) :
  generateContent jobId cityId city env w = (Throw e, w1) ->
  find_job (research_jobs w1) jobId = Some job1 ->
  exists w2 job2,
    background sent jobId cityId city env w = (Return tt, w2)
    /\ find_job (research_jobs w2) jobId = Some job2
    /\ Job.progress job2 = Job.progress job1
    /\ Job.current_step job2 = Job.current_step job1
    /\ Job.results_json job2 = Job.results_json job1
    /\ Job.id job2 = Job.id job1
    /\ Job.city_id job2 = Job.city_id job1
    /\ Job.started_at job2 = Job.started_at job1
    /\ if sent then
         Job.status job2 = "failed"
         /\ Job.error_message job2 = Some (message e)
         /\ Job.completed_at job2 = Some (now env (clock w1))
       else job2 = job1.
Proof.
  intros Hg Hj. rewrite background_eq, Hg.
  destruct sent; eexists; eexists; (split; [reflexivity|]).
  - unfold with_rows. cbn [research_jobs tick].
    rewrite find_job_update_eq_id, Hj. cbn [option_map].
    split; [reflexivity|]. repeat split.
  - cbn [tick research_jobs]. rewrite Hj. split; [reflexivity|]. repeat split.
Qed.

Lemma failure_finalization_witness :
  exists w2 job2,
    background false 0 (VStr "c1") springfield faulty_env started_world = (Return tt, w2)
    /\ find_job (research_jobs w2) 0 = Some job2
    /\ Job.status job2 = "processing"
    /\ Job.error_message job2 = None
    /\ Job.completed_at job2 = None.
Proof.
  destruct (failure_finalization false 0 (VStr "c1") springfield faulty_env started_world
              (snd (generateContent 0 (VStr "c1") springfield faulty_env started_world))
              (SyntaxError (sample_wording "{not json}"))
              {| Job.id := 0;
                 Job.city_id := VStr "c1";
                 Job.status := "processing";
                 Job.progress := 15;
                 Job.current_step := "Main page: Areas & Why Choose Us...";
                 Job.started_at := sample_clock 0;
                 Job.completed_at := None;
                 Job.error_message := None;
                 Job.results_json := {| pages := None; sections := VObj [] |} |})
    as (w2 & job2 & Hb & Hf & _ & _ & _ & _ & _ & _ & ->).
  - vm_compute. reflexivity.
  - vm_compute. reflexivity.
  - eexists. eexists. split; [exact Hb|]. split; [exact Hf|]. repeat split.
Defined.

(** ** The neighborhood list *)

(** C10. Whatever the city, the pipeline works on the fixed list
    Downtown, Northside, Westside, Eastside.  So every successful run
    sends, after the six requests of the main page, the three section
    requests of each of these four neighborhoods in this order, twelve
    in all, stores their twelve payloads under the keys of the
    neighborhoods and their sections, and completes the job with exactly
    five pages: the main page and one page for each of the four
    neighborhoods. *)
Theorem fixed_neighborhood_list (jobId : nat) (cityId : value) (city : City.t)
  (env : Env) (w w' : World) (job : Job.t) :
  generateContent jobId cityId city env w = (Return tt, w') ->
  find_job (research_jobs w) jobId = Some job ->
  neighborhoods = ["Downtown"; "Northside"; "Westside"; "Eastside"]
  /\ exists cs job' stored,
       requests w'
       = (requests w ++ main_requests city mainSections
            ++ flat_map (fun n => section_requests city n neighborhoodSections)
                 ["Downtown"; "Northside"; "Westside"; "Eastside"])%list
       /\ List.length cs = 12%nat
       /\ answered env (List.length (requests w) + 6)
            (flat_map (fun n => section_requests city n neighborhoodSections)
               ["Downtown"; "Northside"; "Westside"; "Eastside"]) cs
       /\ find_job (research_jobs w') jobId = Some job'
       /\ (forall i n j key,
             nth_error neighborhoods i = Some n ->
             nth_error neighborhood_keys j = Some key ->
             opt_get (opt_get (sections (Job.results_json job')) ("neighborhood_" ++ n)) key
             = nth (3 * i + j) cs VUndefined)
       /\ pages (Job.results_json job') = Some stored
       /\ List.length stored = 5%nat
       /\ map Page.type stored
          = ["main"; "neighborhood"; "neighborhood"; "neighborhood"; "neighborhood"]
       /\ map Page.neighborhoodName stored
          = [None; Some "Downtown"; Some "Northside"; Some "Westside"; Some "Eastside"].
Proof.
  intros H Hj. split; [reflexivity|].
  destruct (generateContent_outcome jobId cityId city env w)
    as [(cs & stored & Hl & Hans & Ha & Hg)|(cs & e & req & rep & _ & _ & _ & _ & _ & Hg)];
    rewrite Hg in H; [|discriminate].
  apply pair_eq_inv in H as [_ <-].
  exists (skipn 6 cs). eexists. exists stored.
  split.
  { unfold with_rows. cbn [requests]. rewrite requests_ticks. reflexivity. }
  split; [rewrite length_skipn, Hl; reflexivity|].
  split.
  { clear Ha Hg. list_of_18 cs Hl.
    change (all_requests city)
      with (main_requests city mainSections
              ++ flat_map (fun n => section_requests city n neighborhoodSections)
                   ["Downtown"; "Northside"; "Westside"; "Eastside"])%list in Hans.
    cbn [main_requests mainSections map app answered] in Hans.
    destruct Hans as (_ & _ & _ & _ & _ & _ & Hans).
    replace (List.length (requests w) + 6)%nat
      with (S (S (S (S (S (S (List.length (requests w)))))))) by lia.
    exact Hans. }
  split.
  { unfold with_rows. cbn [research_jobs]. rewrite find_job_update_eq_id, Hj. reflexivity. }
  cbn [option_map apply_patch completed_patch Job.results_json sections pages or_keep
         set_results_json].
  split.
  { destruct (sections_of_lookup cs Hl) as (_ & Ln).
    intros i n j key Hi Hk. unfold neighborhood_of in Ln.
    assert (Ho : exists m, opt_get (sections_of cs) ("neighborhood_" ++ n) = VObj m).
    { clear Ln Ha Hg Hans. list_of_18 cs Hl.
      do 4 (destruct i as [|i]; [injection Hi as <-; eexists; reflexivity|]).
      destruct i; discriminate Hi. }
    destruct Ho as (m & Ho). specialize (Ln i n j key Hi Hk).
    rewrite Ho in Ln |- *. change (js_or (VObj m) (VObj [])) with (VObj m) in Ln.
    rewrite Ln.
    assert (Hij : (3 * i + j < 12)%nat).
    { assert (Hi' : (i < List.length neighborhoods)%nat)
        by (apply nth_error_Some; rewrite Hi; discriminate).
      assert (Hk' : (j < List.length neighborhood_keys)%nat)
        by (apply nth_error_Some; rewrite Hk; discriminate).
      cbn in Hi', Hk'. lia. }
    clear - Hl Hij. list_of_18 cs Hl.
    replace (6 + 3 * i + j)%nat with (6 + (3 * i + j))%nat by lia.
    reflexivity. }
  split; [reflexivity|].
  unfold sections_of in Ha.
  destruct (assemble_pages _ _ _ _ _ _ _ Ha) as (wc & _ & _ & -> & _).
  repeat split.
Qed.

Lemma fixed_neighborhood_list_witness :
  exists (cs : list value) job' stored,
    List.length cs = 12%nat
    /\ find_job
         (research_jobs (snd (generateContent 0 (VStr "c1") springfield steady_env
                                started_world))) 0
       = Some job'
    /\ pages (Job.results_json job') = Some stored
    /\ List.length stored = 5%nat.
Proof.
  destruct (fixed_neighborhood_list 0 (VStr "c1") springfield steady_env started_world
              (snd (generateContent 0 (VStr "c1") springfield steady_env started_world))
              fresh_job)
    as (_ & cs & job' & stored & _ & Hl & _ & Hf & _ & Hp & Hs & _).
  - vm_compute. reflexivity.
  - reflexivity.
  - exists cs, job', stored. repeat split; assumption.
Defined.

(** * Further properties of the code *)

(** ** Runs of [generateContent] *)

(** X1. Every successful run of [generateContent] makes the same nineteen
    progress reports in the same order, whatever the city and the
    payloads: written through [Math.round] they are 5, 15, 25, 35, 45,
    50, then 50, 54, 58, 63, 67, 71, 75, 79, 83, 88, 92, 96 for the
    neighborhood sections, then 95 for "Assembling pages...".  The write
    of 95 follows a write of 96. *)
Theorem successful_run_reports (jobId : nat) (cityId : value) (city : City.t)
  (env : Env) (w w' : World) :
  generateContent jobId cityId city env w = (Return tt, w') ->
  reported w' = (reported w ++ full_plan)%list
    /\ rounded full_plan
       = [5; 15; 25; 35; 45; 50; 50; 54; 58; 63; 67; 71; 75; 79; 83; 88; 92; 96; 95]
    /\ map snd full_plan
       = ["Main page: Hero & Services..."; "Main page: Areas & Why Choose Us...";
          "Main page: Pricing & Process..."; "Main page: FAQs Part 1...";
          "Main page: FAQs Part 2..."; "Main page: Testimonials & CTA...";
          "Downtown: Intro & Projects..."; "Downtown: Service Details...";
          "Downtown: FAQs & CTA...";
          "Northside: Intro & Projects..."; "Northside: Service Details...";
          "Northside: FAQs & CTA...";
          "Westside: Intro & Projects..."; "Westside: Service Details...";
          "Westside: FAQs & CTA...";
          "Eastside: Intro & Projects..."; "Eastside: Service Details...";
          "Eastside: FAQs & CTA...";
          "Assembling pages..."].
Proof.
  intros H.
  destruct (generateContent_outcome jobId cityId city env w)
    as [(cs & pages & _ & _ & _ & Hg)|(cs & e & req & rep & _ & _ & _ & _ & _ & Hg)];
    rewrite Hg in H; [|discriminate].
  apply pair_eq_inv in H as [_ <-].
  split; [|split; vm_compute; reflexivity].
  unfold with_rows. cbn [reported]. rewrite reported_ticks. reflexivity.
Qed.

Lemma successful_run_reports_witness :
  reported (snd (generateContent 0 (VStr "c1") springfield steady_env started_world))
    = (reported started_world ++ full_plan)%list
    /\ rounded full_plan
       = [5; 15; 25; 35; 45; 50; 50; 54; 58; 63; 67; 71; 75; 79; 83; 88; 92; 96; 95]
    /\ map snd full_plan
       = ["Main page: Hero & Services..."; "Main page: Areas & Why Choose Us...";
          "Main page: Pricing & Process..."; "Main page: FAQs Part 1...";
          "Main page: FAQs Part 2..."; "Main page: Testimonials & CTA...";
          "Downtown: Intro & Projects..."; "Downtown: Service Details...";
          "Downtown: FAQs & CTA...";
          "Northside: Intro & Projects..."; "Northside: Service Details...";
          "Northside: FAQs & CTA...";
          "Westside: Intro & Projects..."; "Westside: Service Details...";
          "Westside: FAQs & CTA...";
          "Eastside: Intro & Projects..."; "Eastside: Service Details...";
          "Eastside: FAQs & CTA...";
          "Assembling pages..."].
Proof.
  apply (successful_run_reports 0 (VStr "c1") springfield steady_env started_world).
  vm_compute. reflexivity.
Defined.

(** X2. Whatever the provider answers, a run sends between one and
    eighteen requests, always the first ones of the same fixed sequence:
    the six main sections, then the three sections of each of the four
    neighborhoods; a successful run sends all eighteen.  The token budgets
    of the sequence are those of the section tables. *)
Theorem run_requests (jobId : nat) (cityId : value) (city : City.t)
  (env : Env) (w : World) :
  exists n,
    (1 <= n <= 18)%nat
    /\ requests (snd (generateContent jobId cityId city env w))
       = (requests w ++ firstn n (all_requests city))%list
    /\ (fst (generateContent jobId cityId city env w) = Return tt -> n = 18%nat)
    /\ map max_tokens (all_requests city)
       = [3000; 2500; 2000; 2500; 2500; 1500;
          2000; 1500; 2000; 2000; 1500; 2000;
          2000; 1500; 2000; 2000; 1500; 2000].
Proof.
  destruct (generateContent_outcome jobId cityId city env w)
    as [(cs & pages & _ & _ & _ & Hg)|(cs & e & req & rep & Hl & _ & _ & _ & _ & Hg)];
    rewrite Hg.
  - exists 18%nat. split; [lia|]. split; [|split; [reflexivity|reflexivity]].
    unfold with_rows. cbn [snd requests]. rewrite requests_ticks. reflexivity.
  - exists (S (List.length cs)). split; [lia|]. split; [reflexivity|].
    split; [discriminate|reflexivity].
Qed.

(** X3. A run fails only because one of its turns fails: the provider
    rejects the request, no payload can be extracted from its answer, or
    the log line that follows cannot print the word count of the payload
    (an object with a property [toString], or an array that holds one,
    for which the conversion to a string throws a [TypeError]).  The run
    then stops at once.  If the failing turn is the [k]-th of the
    sequence (from 0), exactly [k+1] requests have been sent and [k+1]
    reports made, the row of the job holds the rounded checkpoint and the
    label of the failing section, its other columns and the other rows are
    as before, and the clock has not been read. *)
Theorem failed_run_stops_at_the_failing_turn
  (jobId : nat) (cityId : value) (city : City.t) (env : Env) (w w' : World) (e : exn) :
  generateContent jobId cityId city env w = (Throw e, w') ->
  exists k req rep,
    (k < 18)%nat
    /\ nth_error (all_requests city) k = Some req
    /\ nth_error full_plan k = Some rep
    /\ (payload_at env (List.length (requests w) + k) req = Throw e
        \/ exists content,
             payload_at env (List.length (requests w) + k) req = Return content
             /\ convertible (opt_get content "wordCount") = false
             /\ logged content = Throw e
             /\ e = TypeError "Cannot convert object to primitive value")
    /\ requests w' = (requests w ++ firstn (S k) (all_requests city))%list
    /\ reported w' = (reported w ++ firstn (S k) full_plan)%list
    /\ research_jobs w'
       = map (fun j =>
                if Nat.eqb (Job.id j) jobId then
                  {| Job.id := Job.id j;
                     Job.city_id := Job.city_id j;
                     Job.status := Job.status j;
                     Job.progress := Math_round (fst rep);
                     Job.current_step := snd rep;
                     Job.started_at := Job.started_at j;
                     Job.completed_at := Job.completed_at j;
                     Job.error_message := Job.error_message j;
                     Job.results_json := Job.results_json j |}
                else j)
           (research_jobs w)
    /\ clock w' = clock w.
Proof.
  intros H.
  destruct (generateContent_outcome jobId cityId city env w)
    as [(cs & pages & _ & _ & _ & Hg)
       |(cs & e' & req & rep & Hl & _ & Hq & Hr & Hp & Hg)];
    rewrite Hg in H; [discriminate|].
  apply pair_eq_inv in H as [He <-]. injection He as <-.
  exists (List.length cs), req, rep. repeat (split; [assumption|]).
  split; [|repeat split].
  unfold turn_at in Hp.
  destruct (payload_at env (List.length (requests w) + List.length cs) req)
    as [content|e0] eqn:E; [|left; exact Hp].
  right. exists content. split; [reflexivity|].
  destruct (logged content) as [text|e0] eqn:El; [discriminate|].
  injection Hp as ->.
  destruct (payload_at_object _ _ _ _ E) as (o & ->).
  unfold logged in El. cbn [get_prop] in El.
  apply to_string_throws in El as (-> & Hc). auto.
Qed.

Lemma failed_run_stops_at_the_failing_turn_witness :
  exists k req rep,
    (k < 18)%nat
    /\ nth_error (all_requests springfield) k = Some req
    /\ nth_error full_plan k = Some rep
    /\ requests (snd (generateContent 0 (VStr "c1") springfield faulty_env started_world))
       = (requests started_world ++ firstn (S k) (all_requests springfield))%list
    /\ reported (snd (generateContent 0 (VStr "c1") springfield faulty_env started_world))
       = (reported started_world ++ firstn (S k) full_plan)%list
    /\ clock (snd (generateContent 0 (VStr "c1") springfield faulty_env started_world))
       = clock started_world.
Proof.
  destruct (failed_run_stops_at_the_failing_turn
              0 (VStr "c1") springfield faulty_env started_world
              (snd (generateContent 0 (VStr "c1") springfield faulty_env started_world))
              (SyntaxError (sample_wording "{not json}")))
    as (k & req & rep & Hk & Hq & Hr & _ & Hs & Hp & _ & Hc).
  - vm_compute. reflexivity.
  - exists k, req, rep. repeat split; assumption.
Defined.

(** ** The pages of the assembler *)

(** X4. Whenever the assembler returns, for a city, a neighborhood list
    and a sections object, it returns the main page followed by one page
    for each neighborhood, in the order of the list (a name listed twice
    gets two pages).  Titles, descriptions and headings are built from
    the city and the neighborhood alone; the timestamps are successive
    readings of the clock, one for each page; the assembler has written
    nothing to the store, sent nothing to the provider and reported no
    progress. *)
Theorem assembler_pages_in_order (city : City.t) (l : list string)
  (o : list (string * value)) (env : Env) (w w' : World) (pages : list Page.t) :
  assemblePagesFromSections city l (VObj o) env w = (Return pages, w') ->
  exists main ps,
    pages = main :: ps
    /\ clock w' = (S (List.length l) + clock w)%nat
    /\ research_jobs w' = research_jobs w
    /\ requests w' = requests w
    /\ reported w' = reported w
    /\ Page.type main = "main"
    /\ Page.title main
       = "Dumpster Rental in " ++ City.city city ++ ", " ++ City.state_code city
           ++ " - Affordable Roll-Off Rentals"
    /\ Page.metaDescription main
       = "Professional dumpster rental in " ++ City.city city ++ ", "
           ++ City.state_code city ++ ". Fast delivery, transparent pricing."
    /\ Page.h1 main
       = "Dumpster Rental in " ++ City.city city ++ ", " ++ City.state_code city
    /\ Page.generatedAt main = now env (clock w)
    /\ List.length ps = List.length l
    /\ forall i n,
         nth_error l i = Some n ->
         exists p,
           nth_error ps i = Some p
           /\ Page.type p = "neighborhood"
           /\ Page.neighborhoodName p = Some n
           /\ Page.title p = "Dumpster Rental in " ++ n ++ ", " ++ City.city city
           /\ Page.metaDescription p
              = "Dumpster rental in " ++ n ++ ", " ++ City.city city
                  ++ ". Same-day delivery available."
           /\ Page.h1 p = "Dumpster Rental in " ++ n ++ ", " ++ City.city city
           /\ Page.generatedAt p = now env (S i + clock w).
Proof.
  intros H. destruct (assemble_pages _ _ _ _ _ _ _ H) as (wc & _ & _ & -> & ->).
  eexists. eexists. split; [reflexivity|].
  rewrite clock_ticks, rows_ticks, requests_ticks, reported_ticks.
  repeat (split; [reflexivity|]).
  split; [apply neighborhood_pages_length|].
  intros i n Hn. eexists. split; [exact (neighborhood_pages_nth _ _ _ _ _ _ _ Hn)|].
  repeat (split; [reflexivity|]).
  cbn [neighborhood_page Page.generatedAt]. rewrite Nat.add_succ_r. reflexivity.
Qed.

Lemma assembler_pages_in_order_witness :
  exists main ps p,
    fst (assemblePagesFromSections springfield ["Downtown"; "Northside"]
           (VObj []) steady_env empty_world) = Return (main :: ps)
    /\ nth_error ps 1 = Some p
    /\ Page.title p = "Dumpster Rental in Northside, Springfield"
    /\ Page.generatedAt p = sample_clock 2.
Proof.
  destruct (assembler_pages_in_order springfield ["Downtown"; "Northside"] []
              steady_env empty_world
              (snd (assemblePagesFromSections springfield ["Downtown"; "Northside"]
                      (VObj []) steady_env empty_world))
              (match fst (assemblePagesFromSections springfield ["Downtown"; "Northside"]
                            (VObj []) steady_env empty_world) with
               | Return pages => pages
               | Throw _ => []
               end))
    as (main & ps & E & _ & _ & _ & _ & _ & _ & _ & _ & _ & _ & Hi).
  - vm_compute. reflexivity.
  - destruct (Hi 1%nat "Northside" eq_refl) as (p & Hp & _ & _ & Ht & _ & _ & Hg).
    exists main, ps, p. split; [|repeat split; assumption].
    rewrite <- E. vm_compute. reflexivity.
Defined.

(** X5. Missing sections are absorbed by defaults: when the sections
    object has no object under [main], every text of the main page is the
    empty string, every list is empty and its word count is the number 0;
    the same holds for the page of a neighborhood that has no object under
    its [neighborhood_<name>] key. *)
Theorem assembler_defaults (city : City.t) (l : list string)
  (o : list (string * value)) (env : Env) (w w' : World) (pages : list Page.t) :
  assemblePagesFromSections city l (VObj o) env w = (Return pages, w') ->
  ((forall m, opt_get (VObj o) "main" <> VObj m) ->
   exists main,
     nth_error pages 0 = Some main
     /\ Page.content main = empty_main_content
     /\ Page.wordCount main = VNum (num 0))
  /\ (forall i n,
        nth_error l i = Some n ->
        (forall m, opt_get (VObj o) ("neighborhood_" ++ n) <> VObj m) ->
        exists p,
          nth_error pages (S i) = Some p
          /\ Page.content p = empty_neighborhood_content
          /\ Page.wordCount p = VNum (num 0)).
Proof.
  intros H. destruct (assemble_pages _ _ _ _ _ _ _ H) as (wc & Hm & Hl & -> & _).
  split.
  - intros Hno. eexists. split; [reflexivity|].
    pose proof (opt_get_non_object _ Hno) as Hu. fold (main_of (VObj o)) in Hu.
    rewrite (total_words_undefined _ main_keys Hu) in Hm. injection Hm as <-.
    cbn [main_page Page.content Page.wordCount]. unfold main_content.
    rewrite !Hu. split; reflexivity.
  - intros i n Hn Hno. eexists.
    split; [exact (neighborhood_pages_nth _ _ _ _ _ _ _ Hn)|].
    pose proof (opt_get_non_object _ Hno) as Hu. fold (neighborhood_of (VObj o) n) in Hu.
    rewrite (total_words_undefined _ neighborhood_keys Hu).
    cbn [neighborhood_page Page.content Page.wordCount returned].
    unfold neighborhood_content. rewrite !Hu. split; reflexivity.
Qed.

Lemma assembler_defaults_witness :
  (exists main,
      nth_error
        (match fst (assemblePagesFromSections springfield ["Downtown"]
                      (VObj [("main", VNull)]) steady_env empty_world) with
         | Return pages => pages
         | Throw _ => []
         end) 0 = Some main
      /\ Page.content main = empty_main_content
      /\ Page.wordCount main = VNum (num 0))
  /\ (exists p,
        nth_error
          (match fst (assemblePagesFromSections springfield ["Downtown"]
                        (VObj [("main", VNull)]) steady_env empty_world) with
           | Return pages => pages
           | Throw _ => []
           end) 1 = Some p
        /\ Page.content p = empty_neighborhood_content
        /\ Page.wordCount p = VNum (num 0)).
Proof.
  destruct (assemblePagesFromSections springfield ["Downtown"]
              (VObj [("main", VNull)]) steady_env empty_world) as [[pages|e] w'] eqn:E;
    [|vm_compute in E; discriminate].
  destruct (assembler_defaults springfield ["Downtown"] [("main", VNull)]
              steady_env empty_world w' pages E) as (Hm & Hn).
  cbn [fst]. split.
  - apply Hm. intros m. discriminate.
  - apply (Hn 0%nat "Downtown" eq_refl). intros m. discriminate.
Defined.

(** X6. Whenever the assembler returns on a sections object in which
    every section of a neighborhood that is present reports a finite
    number as its [wordCount], or none, the word count of the page of
    that neighborhood is the sum of the three reports taken from left to
    right, an absent section or report counting as zero and each addition
    rounding its result to the nearest double.  When the reports are
    whole numbers, none negative, with a total of at most 2^53, no
    addition rounds and the word count is their total. *)
Theorem neighborhood_word_counts_add_up (city : City.t) (l : list string)
  (o : list (string * value)) (env : Env) (w w' : World) (pages : list Page.t) :
  assemblePagesFromSections city l (VObj o) env w = (Return pages, w') ->
  forall i n,
    nth_error l i = Some n ->
    let ns := js_or (opt_get (VObj o) ("neighborhood_" ++ n)) (VObj []) in
    Forall (fun k => counts_words (opt_get ns k)) neighborhood_keys ->
    exists p,
      nth_error pages (S i) = Some p
      /\ Page.wordCount p
         = sum64 [counted (opt_get ns "intro_projects");
                  counted (opt_get ns "service_details");
                  counted (opt_get ns "faqs_cta")]
      /\ forall zs,
           whole_counts ns neighborhood_keys zs ->
           Page.wordCount p = VNum (num (total zs)).
Proof.
  intros H. destruct (assemble_pages _ _ _ _ _ _ _ H) as (wc & Hm & Hl & -> & _).
  intros i n Hn ns Hc. subst ns. fold (neighborhood_of (VObj o) n) in *.
  eexists. split; [exact (neighborhood_pages_nth _ _ _ _ _ _ _ Hn)|].
  cbn [neighborhood_page Page.wordCount].
  rewrite (total_words_numbers _ _ Hc). cbn [returned].
  split; [reflexivity|].
  intros zs (Hz & Hp & Hb). exact (sum64_total _ zs Hz Hp Hb).
Qed.

Lemma neighborhood_word_counts_add_up_witness :
  exists p,
    nth_error
      (match fst (assemblePagesFromSections springfield ["Downtown"]
                    (VObj sample_neighborhood) steady_env empty_world) with
       | Return pages => pages
       | Throw _ => []
       end) 1 = Some p
    /\ Page.wordCount p = VNum (num 2200).
Proof.
  destruct (assemblePagesFromSections springfield ["Downtown"] (VObj sample_neighborhood)
              steady_env empty_world) as [[pages|e] w'] eqn:E;
    [|vm_compute in E; discriminate].
  destruct (neighborhood_word_counts_add_up springfield ["Downtown"] sample_neighborhood
              steady_env empty_world w' pages E 0%nat "Downtown" eq_refl)
    as (p & Hn & _ & Hw).
  - repeat constructor.
  - exists p. cbn [fst]. split; [exact Hn|].
    apply (Hw [800; 600; 800]).
    split; [reflexivity|]. split; [repeat constructor; lia|vm_compute; discriminate].
Defined.

(** X7. Word counts are added with [+], so a payload that reports its
    word count as a non-empty string turns the sum into a concatenation:
    when the first main section does so, the word count of the main page
    is a string that starts with that text, not a number. *)
Theorem string_word_count_is_concatenated (city : City.t) (l : list string)
  (o : list (string * value)) (env : Env) (w w' : World) (pages : list Page.t)
  (s : string) :
  assemblePagesFromSections city l (VObj o) env w = (Return pages, w') ->
  opt_get (opt_get (opt_get (VObj o) "main") "hero_services") "wordCount" = VStr s ->
  s <> "" ->
  exists main rest,
    nth_error pages 0 = Some main
    /\ Page.wordCount main = VStr (s ++ rest)
    /\ forall q, Page.wordCount main <> VNum q.
Proof.
  intros H Hs Hne. destruct (assemble_pages _ _ _ _ _ _ _ H) as (wc & Hm & _ & -> & _).
  assert (Ho : exists ms, opt_get (VObj o) "main" = VObj ms).
  { destruct (opt_get (VObj o) "main"); try discriminate. eauto. }
  destruct Ho as (ms & Ho). unfold main_of in Hm. rewrite Ho in Hs, Hm.
  change (js_or (VObj ms) (VObj [])) with (VObj ms) in Hm.
  unfold total_words in Hm.
  change (word_counts (VObj ms) main_keys)
    with (js_or (opt_get (opt_get (VObj ms) "hero_services") "wordCount") (VNum (num 0))
            :: word_counts (VObj ms) (tl main_keys)) in Hm.
  rewrite Hs in Hm.
  assert (Ht : js_or (VStr s) (VNum (num 0)) = VStr s).
  { unfold js_or. cbn [truthy]. destruct (String.eqb s "") eqn:E; [|reflexivity].
    apply String.eqb_eq in E. contradiction. }
  rewrite Ht in Hm. destruct (add_all_string _ _ _ Hm) as (rest & ->).
  eexists. exists rest. split; [reflexivity|]. split; [reflexivity|].
  intros q. cbn [main_page Page.wordCount]. discriminate.
Qed.

Lemma string_word_count_is_concatenated_witness :
  exists main rest,
    nth_error
      (match fst (assemblePagesFromSections springfield [] (VObj stringly_sections)
                    steady_env empty_world) with
       | Return pages => pages
       | Throw _ => []
       end) 0 = Some main
    /\ Page.wordCount main = VStr ("1200" ++ rest)
    /\ forall q, Page.wordCount main <> VNum q.
Proof.
  destruct (assemblePagesFromSections springfield [] (VObj stringly_sections)
              steady_env empty_world) as [[pages|e] w'] eqn:E;
    [|vm_compute in E; discriminate].
  cbn [fst].
  apply (string_word_count_is_concatenated springfield [] stringly_sections
           steady_env empty_world w' pages "1200" E); [reflexivity|discriminate].
Defined.

(** ** The row of a job after its run *)

(** X8. When a run fails with an error, the handler of the background
    task absorbs it and reads the clock.  Its update is not awaited.  If
    the client of the store sends it all the same, the row of the job is
    marked: status "failed", the message of that very error, the
    completion time read from the clock.  If the client sends only what
    is awaited, the row is not marked: status, completion time and error
    message stay as they were before the run.  Either way progress and
    step stay those of the last report made (the checkpoint of the section
    that failed), and the results, the start time and the city of the row
    stay as they were before the run: nothing collected by the run is
    saved. *)
Theorem failed_job_row (sent : bool) (jobId : nat) (cityId : value) (city : City.t)
  (env : Env) (w w1 : World) (e : exn) (job : Job.t) :
  generateContent jobId cityId city env w = (Throw e, w1) ->
  find_job (research_jobs w) jobId = Some job ->
  exists w2 reps rep,
    background sent jobId cityId city env w = (Return tt, w2)
    /\ reported w1 = (reps ++ [rep])%list
    /\ find_job (research_jobs w2) jobId
       = Some {| Job.id := Job.id job;
                 Job.city_id := Job.city_id job;
                 Job.status := if sent then "failed" else Job.status job;
                 Job.progress := Math_round (fst rep);
                 Job.current_step := snd rep;
                 Job.started_at := Job.started_at job;
                 Job.completed_at :=
                   if sent then Some (now env (clock w)) else Job.completed_at job;
                 Job.error_message :=
                   if sent then Some (message e) else Job.error_message job;
                 Job.results_json := Job.results_json job |}
    /\ reported w2 = reported w1
    /\ requests w2 = requests w1
    /\ clock w2 = S (clock w).
Proof.
  intros H Hj. rewrite background_eq, H.
  destruct (generateContent_outcome jobId cityId city env w)
    as [(cs & pages & _ & _ & _ & Hg)
       |(cs & e' & req & rep & Hl & _ & _ & Hr & _ & Hg)];
    rewrite Hg in H; [discriminate|].
  apply pair_eq_inv in H as [_ <-].
  assert (Hk : (List.length cs < List.length full_plan)%nat)
    by (rewrite full_plan_length; lia).
  eexists. exists (reported w ++ firstn (List.length cs) full_plan)%list, rep.
  split; [reflexivity|]. split.
  - cbn [reported]. rewrite (firstn_S_snoc rep full_plan _ Hk), app_assoc.
    rewrite (nth_error_nth _ _ rep Hr). reflexivity.
  - destruct sent.
    + split; [|repeat split].
      unfold with_rows. cbn [research_jobs clock].
      rewrite !find_job_update_eq_id, Hj. reflexivity.
    + split; [|repeat split].
      unfold tick. cbn [research_jobs].
      rewrite find_job_update_eq_id, Hj. reflexivity.
Qed.

Lemma failed_job_row_witness :
  exists w2 reps rep,
    background true 0 (VStr "c1") springfield faulty_env started_world = (Return tt, w2)
    /\ reported (snd (generateContent 0 (VStr "c1") springfield faulty_env started_world))
       = (reps ++ [rep])%list
    /\ find_job (research_jobs w2) 0
       = Some {| Job.id := Job.id fresh_job;
                 Job.city_id := Job.city_id fresh_job;
                 Job.status := "failed";
                 Job.progress := Math_round (fst rep);
                 Job.current_step := snd rep;
                 Job.started_at := Job.started_at fresh_job;
                 Job.completed_at := Some (now faulty_env (clock started_world));
                 Job.error_message := Some (message (SyntaxError (sample_wording "{not json}")));
                 Job.results_json := Job.results_json fresh_job |}
    /\ reported w2
       = reported (snd (generateContent 0 (VStr "c1") springfield faulty_env started_world))
    /\ requests w2
       = requests (snd (generateContent 0 (VStr "c1") springfield faulty_env started_world))
    /\ clock w2 = S (clock started_world).
Proof.
  apply (failed_job_row true 0 (VStr "c1") springfield faulty_env started_world).
  - vm_compute. reflexivity.
  - reflexivity.
Defined.

(** X9. A successful run completes the row of its job: status
    "completed", progress 100, step "Complete!", the completion time read
    from the clock after the five readings of the pages, the error message
    left as it was, and as results the sections collected together with
    five pages: the main page and the pages of Downtown, Northside,
    Westside and Eastside, in this order, stamped with successive clock
    readings.  The stored pages are what the assembler makes of the stored
    sections. *)
Theorem completed_job_row (sent : bool) (jobId : nat) (cityId : value) (city : City.t)
  (env : Env) (w w' : World) (job : Job.t) :
  generateContent jobId cityId city env w = (Return tt, w') ->
  find_job (research_jobs w) jobId = Some job ->
  exists pages stored,
    find_job (research_jobs w') jobId
    = Some {| Job.id := Job.id job;
              Job.city_id := Job.city_id job;
              Job.status := "completed";
              Job.progress := 100;
              Job.current_step := "Complete!";
              Job.started_at := Job.started_at job;
              Job.completed_at := Some (now env (5 + clock w));
              Job.error_message := Job.error_message job;
              Job.results_json := {| pages := Some pages; sections := stored |} |}
    /\ map Page.title pages
       = ["Dumpster Rental in " ++ City.city city ++ ", " ++ City.state_code city
            ++ " - Affordable Roll-Off Rentals";
          "Dumpster Rental in Downtown, " ++ City.city city;
          "Dumpster Rental in Northside, " ++ City.city city;
          "Dumpster Rental in Westside, " ++ City.city city;
          "Dumpster Rental in Eastside, " ++ City.city city]
    /\ map Page.generatedAt pages
       = [now env (clock w); now env (1 + clock w); now env (2 + clock w);
          now env (3 + clock w); now env (4 + clock w)]
    /\ (forall env0 w0,
          exists ps,
            fst (assemblePagesFromSections city neighborhoods stored env0 w0) = Return ps
            /\ map erase_generatedAt ps = map erase_generatedAt pages)
    /\ clock w' = (6 + clock w)%nat
    /\ background sent jobId cityId city env w = (Return tt, w').
Proof.
  intros H Hj.
  destruct (generateContent_outcome jobId cityId city env w)
    as [(cs & pages & Hl & _ & Ha & Hg)|(cs & e & req & rep & _ & _ & _ & _ & _ & Hg)];
    rewrite Hg in H; [|discriminate].
  apply pair_eq_inv in H as [_ <-].
  exists pages, (sections_of cs).
  split.
  { unfold with_rows. cbn [research_jobs]. rewrite find_job_update_eq_id, Hj. reflexivity. }
  set (w1 := advanced jobId full_plan (all_requests city) w) in *.
  assert (Hc : clock w1 = clock w) by reflexivity.
  split; [|split; [|split; [|split]]].
  - unfold sections_of in Ha.
    destruct (assemble_pages _ _ _ _ _ _ _ Ha) as (wc & _ & _ & -> & _). reflexivity.
  - unfold sections_of in Ha.
    destruct (assemble_pages _ _ _ _ _ _ _ Ha) as (wc & _ & _ & -> & _).
    rewrite Hc. reflexivity.
  - intros env0 w0. unfold sections_of in Ha |- *.
    set (o := stored_neighborhoods _ _ _) in *.
    pose proof (assemble_same_pages city neighborhoods o env env0 w1 w0) as Hs.
    rewrite Ha in Hs. cbn [fst] in Hs.
    destruct (fst (assemblePagesFromSections city neighborhoods _ env0 w0)) as [ps|e0];
      [|contradiction].
    exists ps. split; [reflexivity|]. symmetry. exact Hs.
  - unfold with_rows. cbn [clock]. rewrite clock_ticks. reflexivity.
  - rewrite background_eq, Hg. reflexivity.
Qed.

Lemma completed_job_row_witness :
  exists pages stored,
    find_job
      (research_jobs (snd (generateContent 0 (VStr "c1") springfield steady_env started_world)))
      0
    = Some {| Job.id := Job.id fresh_job;
              Job.city_id := Job.city_id fresh_job;
              Job.status := "completed";
              Job.progress := 100;
              Job.current_step := "Complete!";
              Job.started_at := Job.started_at fresh_job;
              Job.completed_at := Some (now steady_env (5 + clock started_world));
              Job.error_message := Job.error_message fresh_job;
              Job.results_json := {| pages := Some pages; sections := stored |} |}
    /\ List.length pages = 5%nat.
Proof.
  destruct (completed_job_row true 0 (VStr "c1") springfield steady_env started_world
              (snd (generateContent 0 (VStr "c1") springfield steady_env started_world))
              fresh_job)
    as (pages & stored & Hr & Ht & _).
  - vm_compute. reflexivity.
  - reflexivity.
  - exists pages, stored. split; [exact Hr|].
    apply (f_equal (@List.length string)) in Ht. rewrite length_map in Ht. exact Ht.
Defined.

(** X10. The sections object that a successful run stores with its job
    holds the eighteen payloads of the run, each an object, under the
    keys they were generated for: [sections.main[key]] is the payload of
    the request of that main section, and
    [sections["neighborhood_" + name][key]] the payload of the request of
    that section of that neighborhood. *)
Theorem stored_sections_hold_the_payloads (jobId : nat) (cityId : value) (city : City.t)
  (env : Env) (w w' : World) (job : Job.t) :
  generateContent jobId cityId city env w = (Return tt, w') ->
  find_job (research_jobs w) jobId = Some job ->
  exists cs job',
    find_job (research_jobs w') jobId = Some job'
    /\ List.length cs = 18%nat
    /\ answered env (List.length (requests w)) (all_requests city) cs
    /\ Forall (fun c => exists o, c = VObj o) cs
    /\ (forall k key,
          nth_error main_keys k = Some key ->
          opt_get (opt_get (sections (Job.results_json job')) "main") key
          = nth k cs VUndefined)
    /\ (forall i n j key,
          nth_error neighborhoods i = Some n ->
          nth_error neighborhood_keys j = Some key ->
          opt_get (opt_get (sections (Job.results_json job')) ("neighborhood_" ++ n)) key
          = nth (6 + 3 * i + j) cs VUndefined).
Proof.
  intros H Hj.
  destruct (generateContent_outcome jobId cityId city env w)
    as [(cs & pages & Hl & Hans & _ & Hg)|(cs & e & req & rep & _ & _ & _ & _ & _ & Hg)];
    rewrite Hg in H; [|discriminate].
  apply pair_eq_inv in H as [_ <-].
  exists cs. eexists. split.
  { unfold with_rows. cbn [research_jobs]. rewrite find_job_update_eq_id, Hj. reflexivity. }
  split; [exact Hl|]. split; [exact Hans|].
  split; [exact (answered_objects _ _ _ _ Hans)|].
  cbn [apply_patch completed_patch Job.results_json sections or_keep set_results_json].
  clear Hans Hg. list_of_18 cs Hl. clear Hl.
  split.
  - intros k key Hk.
    do 6 (destruct k as [|k]; [injection Hk as <-; reflexivity|]).
    destruct k; discriminate Hk.
  - intros i n j key Hi Hk.
    do 4 (destruct i as [|i];
          [injection Hi as <-;
           do 3 (destruct j as [|j]; [injection Hk as <-; reflexivity|]);
           destruct j; discriminate Hk|]).
    destruct i; discriminate Hi.
Qed.

Lemma stored_sections_hold_the_payloads_witness :
  exists cs job',
    find_job
      (research_jobs (snd (generateContent 0 (VStr "c1") springfield steady_env started_world)))
      0 = Some job'
    /\ List.length cs = 18%nat
    /\ opt_get (opt_get (sections (Job.results_json job')) "main") "faqs_part1"
       = nth 3 cs VUndefined
    /\ opt_get (opt_get (sections (Job.results_json job')) "neighborhood_Westside")
         "service_details"
       = nth 13 cs VUndefined.
Proof.
  destruct (stored_sections_hold_the_payloads 0 (VStr "c1") springfield steady_env
              started_world
              (snd (generateContent 0 (VStr "c1") springfield steady_env started_world))
              fresh_job)
    as (cs & job' & Hf & Hl & _ & _ & Hm & Hn).
  - vm_compute. reflexivity.
  - reflexivity.
  - exists cs, job'. split; [exact Hf|]. split; [exact Hl|]. split.
    + exact (Hm 3%nat "faqs_part1" eq_refl).
    + exact (Hn 2%nat "Westside" 1%nat "service_details" eq_refl eq_refl).
Defined.

(** X11. In the pages of a successful run every field comes from the
    payload of one request, with the default of the assembler where the
    payload lacks the field: the main page takes its texts and lists from
    the payloads of requests 0 to 5 and its word count from their
    [wordCount]s, added from left to right, and the page of the [i]-th
    neighborhood takes its introduction, service details, and questions
    with call to action from the payloads of requests [6+3i], [7+3i] and
    [8+3i], and its word count from theirs. *)
Theorem pages_are_built_from_the_payloads (jobId : nat) (cityId : value) (city : City.t)
  (env : Env) (w w' : World) (job : Job.t) :
  generateContent jobId cityId city env w = (Return tt, w') ->
  find_job (research_jobs w) jobId = Some job ->
  exists cs stored job',
    find_job (research_jobs w') jobId = Some job'
    /\ pages (Job.results_json job') = Some stored
    /\ List.length cs = 18%nat
    /\ answered env (List.length (requests w)) (all_requests city) cs
    /\ (let c k := nth k cs VUndefined in
        let wc k := js_or (opt_get (c k) "wordCount") (VNum (num 0)) in
        exists main,
          nth_error stored 0 = Some main
          /\ Page.content main
             = VObj [("heroServices", js_or (opt_get (c 0%nat) "content") (VStr ""));
                     ("areasWhyChoose", js_or (opt_get (c 1%nat) "content") (VStr ""));
                     ("neighborhoods", js_or (opt_get (c 1%nat) "neighborhoods") (VArr []));
                     ("pricingProcess", js_or (opt_get (c 2%nat) "content") (VStr ""));
                     ("faqsPart1", js_or (opt_get (c 3%nat) "faqs") (VArr []));
                     ("faqsPart2", js_or (opt_get (c 4%nat) "faqs") (VArr []));
                     ("testimonialsCta", js_or (opt_get (c 5%nat) "content") (VStr ""))]
          /\ add_all (wc 0%nat) [wc 1%nat; wc 2%nat; wc 3%nat; wc 4%nat; wc 5%nat]
             = Return (Page.wordCount main))
    /\ (forall i,
          (i < 4)%nat ->
          let c k := nth (6 + 3 * i + k) cs VUndefined in
          let wc k := js_or (opt_get (c k) "wordCount") (VNum (num 0)) in
          exists p,
            nth_error stored (S i) = Some p
            /\ Page.neighborhoodName p = nth_error neighborhoods i
            /\ Page.content p
               = VObj [("introProjects", js_or (opt_get (c 0%nat) "content") (VStr ""));
                       ("serviceDetails", js_or (opt_get (c 1%nat) "content") (VStr ""));
                       ("faqs", js_or (opt_get (c 2%nat) "faqs") (VArr []));
                       ("cta", js_or (opt_get (c 2%nat) "cta") (VStr ""))]
            /\ add_all (wc 0%nat) [wc 1%nat; wc 2%nat] = Return (Page.wordCount p)).
Proof.
  intros H Hj.
  destruct (generateContent_outcome jobId cityId city env w)
    as [(cs & pages & Hl & Hans & Ha & Hg)|(cs & e & req & rep & _ & _ & _ & _ & _ & Hg)];
    rewrite Hg in H; [|discriminate].
  apply pair_eq_inv in H as [_ <-].
  exists cs, pages. eexists. split.
  { unfold with_rows. cbn [research_jobs]. rewrite find_job_update_eq_id, Hj. reflexivity. }
  split; [reflexivity|]. split; [exact Hl|]. split; [exact Hans|].
  clear Hans Hg.
  destruct (sections_of_lookup cs Hl) as (Lm & Ln).
  set (w1 := advanced jobId full_plan (all_requests city) w) in *.
  assert (Hp : exists wc,
             total_words (main_of (sections_of cs)) main_keys = Return wc
             /\ Forall (fun n => summable (neighborhood_of (sections_of cs) n)
                                   neighborhood_keys) neighborhoods
             /\ pages = main_page city (main_of (sections_of cs)) wc (now env (clock w1))
                          :: neighborhood_pages city (sections_of cs) (now env)
                               (S (clock w1)) neighborhoods).
  { unfold sections_of in Ha.
    destruct (assemble_pages _ _ _ _ _ _ _ Ha) as (wc & Hm & Hs & Hp & _).
    exists wc. auto. }
  destruct Hp as (wc & Hm & Hs & ->).
  split.
  - cbv zeta. eexists. split; [reflexivity|].
    cbn [main_page Page.content Page.wordCount]. split.
    + unfold main_content.
      rewrite (Lm 0%nat "hero_services" eq_refl), (Lm 1%nat "areas_whychoose" eq_refl),
        (Lm 2%nat "pricing_process" eq_refl), (Lm 3%nat "faqs_part1" eq_refl),
        (Lm 4%nat "faqs_part2" eq_refl), (Lm 5%nat "testimonials_cta" eq_refl).
      reflexivity.
    + rewrite <- Hm. unfold total_words, word_counts.
      change main_keys
        with ["hero_services"; "areas_whychoose"; "pricing_process";
              "faqs_part1"; "faqs_part2"; "testimonials_cta"].
      cbn [map].
      rewrite (Lm 0%nat "hero_services" eq_refl), (Lm 1%nat "areas_whychoose" eq_refl),
        (Lm 2%nat "pricing_process" eq_refl), (Lm 3%nat "faqs_part1" eq_refl),
        (Lm 4%nat "faqs_part2" eq_refl), (Lm 5%nat "testimonials_cta" eq_refl).
      reflexivity.
  - intros i Hlt. cbv zeta.
    destruct (nth_error neighborhoods i) as [n|] eqn:Hn.
    2:{ apply nth_error_None in Hn. change (List.length neighborhoods) with 4%nat in Hn. lia. }
    eexists. split; [exact (neighborhood_pages_nth _ _ _ _ _ _ _ Hn)|].
    cbn [neighborhood_page Page.neighborhoodName Page.content Page.wordCount].
    split; [reflexivity|].
    rewrite Forall_forall in Hs.
    destruct (Hs n (nth_error_In _ _ Hn)) as (wcn & Hw). rewrite Hw. cbn [returned].
    split.
    + unfold neighborhood_content.
      rewrite (Ln i n 0%nat "intro_projects" Hn eq_refl),
        (Ln i n 1%nat "service_details" Hn eq_refl), (Ln i n 2%nat "faqs_cta" Hn eq_refl).
      rewrite !Nat.add_0_r. reflexivity.
    + rewrite <- Hw. unfold total_words, word_counts.
      change neighborhood_keys with ["intro_projects"; "service_details"; "faqs_cta"].
      cbn [map].
      rewrite (Ln i n 0%nat "intro_projects" Hn eq_refl),
        (Ln i n 1%nat "service_details" Hn eq_refl), (Ln i n 2%nat "faqs_cta" Hn eq_refl).
      rewrite !Nat.add_0_r. reflexivity.
Qed.

Lemma pages_are_built_from_the_payloads_witness :
  exists cs stored job',
    find_job
      (research_jobs (snd (generateContent 0 (VStr "c1") springfield steady_env started_world)))
      0 = Some job'
    /\ pages (Job.results_json job') = Some stored
    /\ List.length cs = 18%nat
    /\ exists main,
         nth_error stored 0 = Some main
         /\ (let wc k := js_or (opt_get (nth k cs VUndefined) "wordCount") (VNum (num 0)) in
             add_all (wc 0%nat) [wc 1%nat; wc 2%nat; wc 3%nat; wc 4%nat; wc 5%nat])
            = Return (Page.wordCount main).
Proof.
  destruct (pages_are_built_from_the_payloads 0 (VStr "c1") springfield steady_env
              started_world
              (snd (generateContent 0 (VStr "c1") springfield steady_env started_world))
              fresh_job)
    as (cs & stored & job' & Hf & Hp & Hl & _ & Hm & _).
  - vm_compute. reflexivity.
  - reflexivity.
  - exists cs, stored, job'. repeat (split; [assumption|]).
    destruct Hm as (main & Hn & _ & Hw). exists main. split; [exact Hn|exact Hw].
Defined.

(** ** What a run never does *)

Lemma same_job_elsewhere_update (jobId : nat) (p : Patch) (j : Job.t) :
  same_job_elsewhere jobId j (if Nat.eqb (Job.id j) jobId then apply_patch p j else j).
Proof.
  unfold same_job_elsewhere. destruct (Nat.eqb (Job.id j) jobId) eqn:E.
  - repeat split. intros Hne. apply Nat.eqb_eq in E. contradiction.
  - repeat split.
Qed.

Lemma same_job_elsewhere_trans (jobId : nat) (a b c : Job.t) :
  same_job_elsewhere jobId a b -> same_job_elsewhere jobId b c ->
  same_job_elsewhere jobId a c.
Proof.
  intros (Hi & Hc & Hs & He) (Hi' & Hc' & Hs' & He').
  unfold same_job_elsewhere. rewrite Hi', Hc', Hs'. repeat split; try assumption.
  intros Hne. rewrite He' by (rewrite Hi; exact Hne). exact (He Hne).
Qed.

Lemma update_eq_id_nth (rows : list Job.t) (p : Patch) (jobId i : nat) (j : Job.t) :
  nth_error rows i = Some j ->
  exists j',
    nth_error (update_eq_id rows p jobId) i = Some j'
    /\ same_job_elsewhere jobId j j'.
Proof.
  intros H. unfold update_eq_id. rewrite nth_error_map, H. cbn [option_map].
  eexists. split; [reflexivity|]. apply same_job_elsewhere_update.
Qed.

Lemma plan_checkpoints_bounded :
  Forall (fun r => 5 <= Math_round (fst r) <= 96) full_plan.
Proof.
  apply Forall_forall. intros r Hr.
  assert (H : forallb (fun r => (5 <=? Math_round (fst r)) && (Math_round (fst r) <=? 96))
                full_plan = true) by (vm_compute; reflexivity).
  rewrite forallb_forall in H. specialize (H r Hr).
  apply andb_true_iff in H as [H1 H2]. lia.
Qed.

(** X12. The background task of a job never adds or removes a row, never
    changes a row of another job, and never changes the identifier, the
    city or the start time of a row, whatever the provider answers and
    however the run ends, and whether or not the update of the failure
    handler is sent. *)
Theorem run_touches_only_its_row (sent : bool) (jobId : nat) (cityId : value)
  (city : City.t) (env : Env) (w : World) :
  let w' := snd (background sent jobId cityId city env w) in
  List.length (research_jobs w') = List.length (research_jobs w)
  /\ forall i j,
       nth_error (research_jobs w) i = Some j ->
       exists j',
         nth_error (research_jobs w') i = Some j'
         /\ same_job_elsewhere jobId j j'.
Proof.
  cbv zeta. rewrite background_eq.
  destruct (generateContent_outcome jobId cityId city env w)
    as [(cs & pages & _ & _ & _ & Hg)|(cs & e & req & rep & _ & _ & _ & _ & _ & Hg)];
    rewrite Hg; unfold with_rows; cbn [snd research_jobs].
  - split; [unfold update_eq_id; apply length_map|].
    intros i j Hj. exact (update_eq_id_nth _ _ _ _ _ Hj).
  - destruct sent; cbn [snd tick research_jobs].
    + split; [unfold update_eq_id; rewrite !length_map; reflexivity|].
      intros i j Hj.
      destruct (update_eq_id_nth _ (progress_patch rep) jobId _ _ Hj) as (j1 & H1 & S1).
      destruct (update_eq_id_nth _ (failed_patch (now env (clock w)) e) jobId _ _ H1)
        as (j2 & H2 & S2).
      exists j2. split; [exact H2|]. exact (same_job_elsewhere_trans _ _ _ _ S1 S2).
    + split; [unfold update_eq_id; apply length_map|].
      intros i j Hj. exact (update_eq_id_nth _ _ _ _ _ Hj).
Qed.

Lemma run_touches_only_its_row_witness :
  exists j',
    nth_error
      (research_jobs
         (snd (background true 7 (VStr "c1") springfield steady_env started_world)))
      0 = Some j'
    /\ same_job_elsewhere 7 fresh_job j'.
Proof.
  destruct (run_touches_only_its_row true 7 (VStr "c1") springfield steady_env
              started_world)
    as (_ & H).
  exact (H 0%nat fresh_job eq_refl).
Defined.

(** X13. The background task of a job never throws, and once it has run
    the row of the job is in one of two states.  Either the run succeeded:
    the status is "completed", the progress 100, the completion time set
    and the results hold five pages.  Or the run failed: the progress is
    between 5 and 96 and the results are as before the run; then, if the
    update of the failure handler is sent although it is not awaited, the
    status is "failed" with a completion time and an error message, and
    if it is not sent, status, completion time and error message are
    still what they were before the run, so that a job created as
    "processing" stays "processing". *)
Theorem job_row_after_the_task (sent : bool) (jobId : nat) (cityId : value)
  (city : City.t) (env : Env) (w : World) (job : Job.t) :
  find_job (research_jobs w) jobId = Some job ->
  exists w' job',
    background sent jobId cityId city env w = (Return tt, w')
    /\ find_job (research_jobs w') jobId = Some job'
    /\ ((Job.status job' = "completed" /\ Job.progress job' = 100
         /\ Job.completed_at job' <> None
         /\ Job.error_message job' = Job.error_message job
         /\ exists stored,
              pages (Job.results_json job') = Some stored
              /\ List.length stored = 5%nat)
        \/ (5 <= Job.progress job' <= 96
            /\ Job.results_json job' = Job.results_json job
            /\ if sent then
                 Job.status job' = "failed"
                 /\ Job.completed_at job' <> None
                 /\ exists e, Job.error_message job' = Some (message e)
               else
                 Job.status job' = Job.status job
                 /\ Job.completed_at job' = Job.completed_at job
                 /\ Job.error_message job' = Job.error_message job)).
Proof.
  intros Hj. rewrite background_eq.
  destruct (generateContent_outcome jobId cityId city env w)
    as [(cs & stored & _ & _ & Ha & Hg)|(cs & e & req & rep & _ & _ & _ & Hr & _ & Hg)];
    rewrite Hg; unfold with_rows.
  - eexists. eexists. split; [reflexivity|]. cbn [research_jobs].
    rewrite find_job_update_eq_id, Hj. split; [reflexivity|].
    left. split; [reflexivity|]. split; [reflexivity|]. split; [discriminate|].
    split; [reflexivity|].
    exists stored. split; [reflexivity|].
    unfold sections_of in Ha.
    destruct (assemble_pages _ _ _ _ _ _ _ Ha) as (wc & _ & _ & -> & _).
    cbn [List.length]. rewrite neighborhood_pages_length. reflexivity.
  - pose proof plan_checkpoints_bounded as Hb. rewrite Forall_forall in Hb.
    specialize (Hb rep (nth_error_In _ _ Hr)).
    destruct sent.
    + eexists. eexists. split; [reflexivity|]. cbn [research_jobs clock].
      rewrite !find_job_update_eq_id, Hj. split; [reflexivity|].
      right. split; [exact Hb|]. split; [reflexivity|].
      split; [reflexivity|]. split; [discriminate|]. exists e. reflexivity.
    + eexists. eexists. split; [reflexivity|]. cbn [tick research_jobs].
      rewrite find_job_update_eq_id, Hj. split; [reflexivity|].
      right. split; [exact Hb|]. repeat split.
Qed.

Lemma job_row_after_the_task_witness :
  exists w' job',
    background false 0 (VStr "c1") springfield faulty_env started_world = (Return tt, w')
    /\ find_job (research_jobs w') 0 = Some job'.
Proof.
  destruct (job_row_after_the_task false 0 (VStr "c1") springfield faulty_env
              started_world fresh_job eq_refl)
    as (w' & job' & Hb & Hf & _).
  exists w', job'. split; assumption.
Defined.

(** ** Requests to [POST /research] *)

(** X14. A request is rejected without any effect on the table of jobs:
    with a missing or falsy [cityId] (such as [""], [0] or [null]) the
    answer is 400 "City ID required", even when a city with that
    identifier exists, and nothing is looked up; with a [cityId] that the
    log line can print and a city that the store does not return, or
    returns with an error, it is 404 "City not found"; when the insert of
    the job fails it is 500 "Failed to create job", whatever the error of
    the store says.  In none of these cases is a task started, a request
    sent to the provider or progress reported.  A truthy [cityId] that
    has no string (an object with a property [toString] of its own, or an
    array that holds one) gets no answer: the log line that follows the
    check throws a [TypeError] outside the [try] block, before anything
    is looked up. *)
Theorem rejected_requests_change_nothing (sent : bool) (body cityId : value)
  (env : Env) (w : World) :
  destructure body "cityId" = Return cityId ->
  (truthy cityId = false ->
   serve sent body env w
   = (Return {| code := 400; json := error_body "City ID required" |}, w))
  /\ (truthy cityId = true ->
      convertible cityId = true ->
      (forall city, select_city env cityId <> (Some city, None)) ->
      serve sent body env w
      = (Return {| code := 404; json := error_body "City not found" |}, w))
  /\ (truthy cityId = true ->
      convertible cityId = true ->
      forall city err,
        select_city env cityId = (Some city, None) ->
        insert_error env (List.length (research_jobs w)) = Some err ->
        exists w',
          serve sent body env w
          = (Return {| code := 500; json := error_body "Failed to create job" |}, w')
          /\ research_jobs w' = research_jobs w
          /\ requests w' = requests w
          /\ reported w' = reported w)
  /\ (truthy cityId = true ->
      convertible cityId = false ->
      serve sent body env w
      = (Throw (TypeError "Cannot convert object to primitive value"), w)).
Proof.
  intros Hb.
  destruct (post_research_rejected sent body cityId env w Hb) as (H4 & H5 & H6 & H7).
  split; [|split; [|split]].
  - intros Ht. unfold serve, bind at 1. rewrite (H4 Ht). reflexivity.
  - intros Ht Hc Hno. unfold serve, bind at 1. rewrite (H5 Ht Hc Hno). reflexivity.
  - intros Ht Hc city err Hs Hi. exists (tick w).
    unfold serve, bind at 1. rewrite (H6 Ht Hc city err Hs Hi). repeat split.
  - intros Ht Hc. unfold serve, bind at 1. rewrite (H7 Ht Hc). reflexivity.
Qed.

Lemma rejected_requests_change_nothing_witness :
  serve true (VObj [("cityId", VNum (num 0))]) steady_env started_world
  = (Return {| code := 400; json := error_body "City ID required" |}, started_world)
  /\ serve true (VObj [("cityId", VStr "c2")]) steady_env started_world
     = (Return {| code := 404; json := error_body "City not found" |}, started_world).
Proof.
  split.
  - apply (proj1 (rejected_requests_change_nothing true
                    (VObj [("cityId", VNum (num 0))]) (VNum (num 0))
                    steady_env started_world eq_refl)).
    reflexivity.
  - apply (proj1 (proj2 (rejected_requests_change_nothing true
                           (VObj [("cityId", VStr "c2")]) (VStr "c2")
                           steady_env started_world eq_refl))).
    + reflexivity.
    + reflexivity.
    + intros city. discriminate.
Defined.

(** X15. An accepted request (a truthy [cityId] that the log line can
    print and whose city the store returns, and an insert that succeeds)
    is answered 200 with the
    identifier of a new job, which differs from the identifier of every
    row already in the table.  Once its background task has run, the
    table is the old table, untouched, followed by the row of that job,
    which carries the requested city and the start time read at the
    request.  After a successful run the row is "completed" with progress
    100, a completion time, no error message and five pages.  After a
    failed run it has a progress between 5 and 96 and the empty results
    it was created with; it is "failed" with a completion time and the
    message of an error if the update of the failure handler is sent, and
    still "processing" without completion time or error message if it is
    not. *)
Theorem accepted_request_and_its_job (sent : bool) (body cityId : value) (city : City.t)
  (env : Env) (w : World) :
  destructure body "cityId" = Return cityId ->
  truthy cityId = true ->
  convertible cityId = true ->
  select_city env cityId = (Some city, None) ->
  insert_error env (List.length (research_jobs w)) = None ->
  exists w' row,
    serve sent body env w
    = (Return {| code := 200;
                 json := VObj [("success", VBool true);
                               ("jobId", VNum (num (Z.of_nat (Job.id row))));
                               ("message", VStr "Content generation started")] |},
       w')
    /\ research_jobs w' = (research_jobs w ++ [row])%list
    /\ Forall (fun j => Job.id j <> Job.id row) (research_jobs w)
    /\ Job.city_id row = cityId
    /\ Job.started_at row = now env (clock w)
    /\ ((Job.status row = "completed" /\ Job.progress row = 100
         /\ Job.completed_at row <> None
         /\ Job.error_message row = None
         /\ exists stored,
              pages (Job.results_json row) = Some stored /\ List.length stored = 5%nat)
        \/ (5 <= Job.progress row <= 96
            /\ Job.results_json row = {| pages := None; sections := VObj [] |}
            /\ if sent then
                 Job.status row = "failed"
                 /\ Job.completed_at row <> None
                 /\ exists e, Job.error_message row = Some (message e)
               else
                 Job.status row = "processing"
                 /\ Job.completed_at row = None
                 /\ Job.error_message row = None)).
Proof.
  intros Hb Ht Hc Hs Hi. unfold serve, bind at 1.
  rewrite (post_research_accepted sent body cityId city env w Hb Ht Hc Hs Hi).
  cbn [snd fst]. unfold bind at 1.
  set (rows := research_jobs w).
  set (job0 := {| Job.id := next_id rows; Job.city_id := cityId;
                  Job.status := "processing"; Job.progress := 0;
                  Job.current_step := "Starting..."; Job.started_at := now env (clock w);
                  Job.completed_at := None; Job.error_message := None;
                  Job.results_json := {| pages := None; sections := VObj [] |} |}).
  set (w0 := {| research_jobs := rows ++ [job0]; clock := S (clock w);
                requests := requests w; reported := reported w |}).
  assert (Hfresh : Forall (fun j => Job.id j <> next_id rows) rows).
  { apply Forall_forall. intros j Hj E. apply next_id_fresh in Hj. lia. }
  rewrite background_eq.
  destruct (generateContent_outcome (next_id rows) cityId city env w0)
    as [(cs & stored & _ & _ & Ha & Hg)|(cs & e & req & rep & _ & _ & _ & Hr & _ & Hg)];
    rewrite Hg; unfold with_rows; cbn [research_jobs w0 clock].
  - rewrite (update_eq_id_new_row rows job0 _ eq_refl).
    eexists.
    exists (apply_patch (completed_patch (now env (5 + S (clock w))) stored (sections_of cs))
              job0).
    split; [reflexivity|].
    split; [reflexivity|]. split; [exact Hfresh|].
    repeat (split; [reflexivity|]).
    left. split; [reflexivity|]. split; [reflexivity|]. split; [discriminate|].
    split; [reflexivity|]. exists stored. split; [reflexivity|].
    unfold sections_of in Ha.
    destruct (assemble_pages _ _ _ _ _ _ _ Ha) as (wc & _ & _ & -> & _).
    cbn [List.length]. rewrite neighborhood_pages_length. reflexivity.
  - pose proof plan_checkpoints_bounded as Hbd. rewrite Forall_forall in Hbd.
    specialize (Hbd rep (nth_error_In _ _ Hr)).
    destruct sent; cbn [tick research_jobs].
    + rewrite (update_eq_id_new_row rows job0 _ eq_refl).
      rewrite (update_eq_id_new_row rows (apply_patch (progress_patch rep) job0) _ eq_refl).
      eexists.
      exists {| Job.id := next_id rows; Job.city_id := cityId;
                Job.status := "failed"; Job.progress := Math_round (fst rep);
                Job.current_step := snd rep; Job.started_at := now env (clock w);
                Job.completed_at := Some (now env (S (clock w)));
                Job.error_message := Some (message e);
                Job.results_json := {| pages := None; sections := VObj [] |} |}.
      split; [reflexivity|].
      split; [reflexivity|]. split; [exact Hfresh|].
      repeat (split; [reflexivity|]).
      right. split; [exact Hbd|]. split; [reflexivity|].
      split; [reflexivity|]. split; [discriminate|]. exists e. reflexivity.
    + rewrite (update_eq_id_new_row rows job0 _ eq_refl).
      eexists.
      exists {| Job.id := next_id rows; Job.city_id := cityId;
                Job.status := "processing"; Job.progress := Math_round (fst rep);
                Job.current_step := snd rep; Job.started_at := now env (clock w);
                Job.completed_at := None;
                Job.error_message := None;
                Job.results_json := {| pages := None; sections := VObj [] |} |}.
      split; [reflexivity|].
      split; [reflexivity|]. split; [exact Hfresh|].
      repeat (split; [reflexivity|]).
      right. split; [exact Hbd|]. repeat split.
Qed.

Lemma accepted_request_and_its_job_witness :
  exists w' row,
    serve false (VObj [("cityId", VStr "c1")]) faulty_env empty_world
    = (Return {| code := 200;
                 json := VObj [("success", VBool true);
                               ("jobId", VNum (num (Z.of_nat (Job.id row))));
                               ("message", VStr "Content generation started")] |},
       w')
    /\ research_jobs w' = (research_jobs empty_world ++ [row])%list
    /\ Job.started_at row = now faulty_env (clock empty_world).
Proof.
  destruct (accepted_request_and_its_job false (VObj [("cityId", VStr "c1")]) (VStr "c1")
              springfield faulty_env empty_world eq_refl eq_refl eq_refl eq_refl eq_refl)
    as (w' & row & Hs & Hr & _ & _ & Hc & _).
  exists w', row. repeat split; assumption.
Defined.

Ltac new_row rows :=
  match goal with
  | |- context [update_eq_id (rows ++ [?row])%list ?p ?i] =>
      rewrite (update_eq_id_new_row rows row p eq_refl)
  end.

(** X16. The handler answers every request whose body is an object and
    whose [cityId] the log line can print, and its answer is 200, 400, 404
    or 500; whatever the answer, the rows that were in the table are still
    there, unchanged and in the same order, followed by at most one new
    row, and there is a new row exactly when the answer is 200, whether or
    not the update of the failure handler is sent.  When the [cityId] is
    truthy and has no string, or the body is [undefined] or [null], the
    handler throws a [TypeError] before it looks anything up and the
    table is as it was: the read of [cityId] and the log line that prints
    it are outside its [try] block. *)
Theorem handler_keeps_existing_rows (sent : bool) (env : Env) (w : World) :
  (forall o,
      let cityId := opt_get (VObj o) "cityId" in
      if truthy cityId && negb (convertible cityId)
      then serve sent (VObj o) env w
           = (Throw (TypeError "Cannot convert object to primitive value"), w)
      else
        exists r w' added,
          serve sent (VObj o) env w = (Return r, w')
          /\ In (code r) [200; 400; 404; 500]
          /\ research_jobs w' = (research_jobs w ++ added)%list
          /\ (List.length added <= 1)%nat
          /\ (added = [] <-> code r <> 200))
  /\ (exists e, serve sent VUndefined env w = (Throw e, w) /\ name e = "TypeError")
  /\ (exists e, serve sent VNull env w = (Throw e, w) /\ name e = "TypeError").
Proof.
  split; [|split; eexists; split; reflexivity].
  intros o cityId.
  assert (Hb : destructure (VObj o) "cityId" = Return cityId) by reflexivity.
  destruct (truthy cityId) eqn:Ht.
  2:{ destruct (post_research_rejected sent (VObj o) cityId env w Hb) as (H4 & _).
      cbn [andb].
      exists {| code := 400; json := error_body "City ID required" |}, w, [].
      unfold serve, bind at 1. rewrite (H4 Ht).
      split; [reflexivity|]. split; [cbn; auto|]. split; [symmetry; apply app_nil_r|].
      split; [cbn; lia|]. split; [discriminate|reflexivity]. }
  destruct (convertible cityId) eqn:Hc; cbn [andb negb].
  2:{ destruct (post_research_rejected sent (VObj o) cityId env w Hb) as (_ & _ & _ & H7).
      unfold serve, bind at 1. rewrite (H7 Ht Hc). reflexivity. }
  destruct (select_city env cityId) as [[city|] [err|]] eqn:Hs.
  2:{ destruct (insert_error env (List.length (research_jobs w))) as [err|] eqn:Hi.
      - destruct (post_research_rejected sent (VObj o) cityId env w Hb) as (_ & _ & H6 & _).
        exists {| code := 500; json := error_body "Failed to create job" |}, (tick w), [].
        unfold serve, bind at 1. rewrite (H6 Ht Hc city err Hs Hi).
        split; [reflexivity|]. split; [cbn; auto|]. split; [symmetry; apply app_nil_r|].
        split; [cbn; lia|]. split; [discriminate|reflexivity].
      - unfold serve, bind at 1.
        rewrite (post_research_accepted sent (VObj o) cityId city env w Hb Ht Hc Hs Hi).
        cbn [snd fst]. unfold bind at 1. rewrite background_eq.
        set (rows := research_jobs w).
        match goal with
        | |- context [generateContent ?id cityId city env ?w0] =>
            destruct (generateContent_outcome id cityId city env w0)
              as [(cs & stored & _ & _ & _ & Hg)
                 |(cs & e & req & rep & _ & _ & _ & _ & _ & Hg)];
            rewrite Hg
        end; unfold with_rows; cbn [research_jobs].
        + new_row rows.
          eexists. eexists. eexists. split; [reflexivity|].
          split; [cbn; auto|]. split; [reflexivity|]. split; [cbn; lia|].
          split; [discriminate|intros Hne; exfalso; apply Hne; reflexivity].
        + destruct sent; cbn [tick research_jobs]; repeat new_row rows.
          all: eexists; eexists; eexists; (split; [reflexivity|]);
            (split; [cbn; auto|]); (split; [reflexivity|]); (split; [cbn; lia|]);
            (split; [discriminate|intros Hne; exfalso; apply Hne; reflexivity]). }
  all: destruct (post_research_rejected sent (VObj o) cityId env w Hb) as (_ & H5 & _);
    exists {| code := 404; json := error_body "City not found" |}, w, [];
    unfold serve, bind at 1;
    (rewrite (H5 Ht Hc); [|intros c; rewrite Hs; discriminate]);
    (split; [reflexivity|]); (split; [cbn; auto|]);
    (split; [symmetry; apply app_nil_r|]);
    (split; [cbn; lia|]); (split; [discriminate|reflexivity]).
Qed.

(** ** The section generators *)

(** X17. A payload extracted from an answer of the provider is always an
    object, never an array, a string, a number, a boolean or null: the
    span given to [JSON.parse] starts with an opening brace.  So both
    generators return objects only, and reading [wordCount] from a
    generated payload for the log line cannot throw; printing what has
    been read is another matter. *)
Theorem generators_return_objects :
  (forall wording response v,
      extract_payload wording response = Return v -> exists o, v = VObj o)
  /\ (forall city section maxTokens env w v w',
        generateMainSection city section maxTokens env w = (Return v, w') ->
        (exists o, v = VObj o) /\ exists x, get_prop v "wordCount" = Return x)
  /\ (forall city neighborhood section maxTokens env w v w',
        generateNeighborhoodSection city neighborhood section maxTokens env w
        = (Return v, w') ->
        (exists o, v = VObj o) /\ exists x, get_prop v "wordCount" = Return x).
Proof.
  split; [exact extract_payload_object|]. split.
  - intros city section maxTokens env w v w' H.
    rewrite (generateMainSection_run 0) in H. apply pair_eq_inv in H as [H _].
    apply payload_at_object in H as (o & ->). split; [eauto|].
    eexists. reflexivity.
  - intros city neighborhood section maxTokens env w v w' H.
    rewrite (generateNeighborhoodSection_run 0) in H. apply pair_eq_inv in H as [H _].
    apply payload_at_object in H as (o & ->). split; [eauto|].
    eexists. reflexivity.
Qed.

Lemma generators_return_objects_witness :
  (exists o,
      VObj [("content", VStr "x"); ("wordCount", VNum (num 1))] = VObj o)
  /\ exists x,
       get_prop (VObj [("content", VStr "x"); ("wordCount", VNum (num 1))]) "wordCount"
       = Return x.
Proof.
  destruct generators_return_objects as (_ & H & _).
  apply (H springfield "hero_services" 3000 steady_env empty_world _
           (snd (generateMainSection springfield "hero_services" 3000
                   steady_env empty_world))).
  vm_compute. reflexivity.
Defined.

(** X18. Extraction looks at the first content block only.  An answer
    without content blocks makes the generator throw a [TypeError]; a
    first block that is not of type "text" counts as the empty text, so
    extraction fails with "No JSON in response" whatever the block
    carries; and the blocks after the first never matter, even when the
    payload is in one of them. *)
Theorem only_the_first_block_counts (wording : string -> string) :
  (exists e, extract_payload wording [] = Throw e /\ name e = "TypeError")
  /\ (forall block rest,
        Block.type block <> "text" ->
        extract_payload wording (block :: rest) = Throw (Error "No JSON in response"))
  /\ (forall block rest,
        extract_payload wording (block :: rest) = extract_payload wording [block]).
Proof.
  split; [eexists; split; reflexivity|]. split.
  - intros block rest Hne. unfold extract_payload.
    destruct (String.eqb (Block.type block) "text") eqn:E; [|reflexivity].
    apply String.eqb_eq in E. contradiction.
  - reflexivity.
Qed.

Lemma only_the_first_block_counts_witness :
  extract_payload sample_wording
    [ {| Block.type := "tool_use"; Block.text := sample_text |};
      {| Block.type := "text"; Block.text := sample_text |} ]
  = Throw (Error "No JSON in response").
Proof.
  apply (proj1 (proj2 (only_the_first_block_counts sample_wording))). discriminate.
Defined.

(** ** The prompts *)

Lemma mentions_here (t b : string) : mentions t (t ++ b).
Proof. exists "", b. reflexivity. Qed.

Lemma mentions_left (t a b : string) : mentions t a -> mentions t (a ++ b).
Proof.
  intros (pre & post & ->). exists pre, (post ++ b).
  rewrite !string_app_assoc. reflexivity.
Qed.

Lemma mentions_right (t a b : string) : mentions t b -> mentions t (a ++ b).
Proof.
  intros (pre & post & ->). exists (a ++ pre), post.
  rewrite !string_app_assoc. reflexivity.
Qed.

Create HintDb prompts.
#[local] Hint Resolve mentions_here mentions_left mentions_right : prompts.

Ltac prompt_names :=
  unfold prompt_naming; split; [reflexivity|]; split; [reflexivity|];
  split; [vm_compute; reflexivity|];
  eexists; split; [reflexivity|];
  repeat (apply Forall_cons;
          [unfold join_lines; cbv beta iota; eauto 8 with prompts|]);
  apply Forall_nil.

(** X19. Every request of a run is one user message for the model
    "claude-sonnet-4-20250514" at temperature 0.7 whose prompt is a text
    that names the city and its state code, and for a neighborhood section
    the neighborhood as well.  For a section key outside the tables the
    content of the message is whatever the prompts object has under that
    name: what it inherits from [Object.prototype] for [constructor],
    [toString] and the ten other names of that object, and [undefined]
    for every other key. *)
Theorem every_request_carries_its_prompt (city : City.t) :
  Forall (prompt_naming [City.city city; City.state_code city])
    (main_requests city mainSections)
  /\ (forall n,
        Forall (prompt_naming [n; City.city city; City.state_code city])
          (section_requests city n neighborhoodSections))
  /\ (forall key maxTokens,
        ~ In key main_keys ->
        messages (main_request city key maxTokens)
        = [("user", if existsb (String.eqb key) Object_prototype
                    then Inherited key else NoPrompt)])
  /\ (forall n key maxTokens,
        ~ In key neighborhood_keys ->
        messages (neighborhood_request city n key maxTokens)
        = [("user", if existsb (String.eqb key) Object_prototype
                    then Inherited key else NoPrompt)]).
Proof.
  split; [|split; [|split]].
  - unfold main_requests, mainSections. cbn [map MainSpec.key MainSpec.tokens].
    repeat (apply Forall_cons; [prompt_names|]). apply Forall_nil.
  - intros n. unfold section_requests, neighborhoodSections.
    cbn [map NeighborhoodSpec.key NeighborhoodSpec.tokens].
    repeat (apply Forall_cons; [prompt_names|]). apply Forall_nil.
  - intros key maxTokens Hk. unfold main_request. cbn [messages]. do 2 f_equal.
    unfold lookup, main_prompts. cbn [own_text].
    repeat match goal with
      | |- context [String.eqb ?a key] =>
          let E := fresh "E" in
          destruct (String.eqb a key) eqn:E;
          [apply String.eqb_eq in E; exfalso; apply Hk; rewrite <- E; cbn; tauto|]
      end.
    reflexivity.
  - intros n key maxTokens Hk. unfold neighborhood_request. cbn [messages]. do 2 f_equal.
    unfold lookup, neighborhood_prompts. cbn [own_text].
    repeat match goal with
      | |- context [String.eqb ?a key] =>
          let E := fresh "E" in
          destruct (String.eqb a key) eqn:E;
          [apply String.eqb_eq in E; exfalso; apply Hk; rewrite <- E; cbn; tauto|]
      end.
    reflexivity.
Qed.

Lemma every_request_carries_its_prompt_witness :
  messages (main_request springfield "summary" 1000) = [("user", NoPrompt)]
  /\ messages (main_request springfield "constructor" 1000)
     = [("user", Inherited "constructor")].
Proof.
  split.
  - apply (proj1 (proj2 (proj2 (every_request_carries_its_prompt springfield)))
             "summary" 1000).
    cbn. intuition discriminate.
  - apply (proj1 (proj2 (proj2 (every_request_carries_its_prompt springfield)))
             "constructor" 1000).
    cbn. intuition discriminate.
Defined.

(** ** Numbers in payloads *)

Lemma decimal_value_integer (z : Z) :
  Z.abs z <= 2 ^ 53 -> decimal_value z 0 = VNum (num z).
Proof.
  intros H. unfold decimal_value.
  replace (inject_Z z * pow10 0)%Q with (inject_Z z).
  - exact (binary64_integer z H).
  - unfold pow10, inject_Z, Qmult. cbn. rewrite Z.mul_1_r. reflexivity.
Qed.

Lemma digits_value_nonneg (s : string) : forall acc, 0 <= acc -> 0 <= digits_value s acc.
Proof.
  induction s as [|c r IH]; intros acc Ha; [exact Ha|].
  cbn [digits_value]. destruct (digit_val c) as [d|] eqn:E; [|exact Ha].
  apply IH. pose proof (digit_val_range c d E) as Hr.
  unfold digit_val in E.
  destruct ((48 <=? Z.of_nat (nat_of_ascii c)) && (Z.of_nat (nat_of_ascii c) <=? 57));
    [|discriminate].
  injection E as <-. lia.
Qed.

Lemma json_text_word_count (n : string) :
  integer_part n ->
  json_text (dq "{'wordCount':" ++ n ++ "}")
    (VObj [("wordCount", decimal_value (digits_value n 0) 0)]).
Proof.
  intros Hn.
  assert (Hnum : json_value n (decimal_value (digits_value n 0) 0)).
  { pose proof (json_number_intro "" n "" "" "" 0 (or_introl eq_refl) Hn
                  fraction_none exponent_none) as H.
    cbn [append String.eqb String.length Z.of_nat Z.sub Z.opp Z.add] in H.
    rewrite !string_app_nil_r in H. exact (json_num _ _ H). }
  pose proof (json_element_intro "" n "" _ blank_nil Hnum blank_nil) as He.
  cbn [append] in He. rewrite string_app_nil_r in He.
  assert (Hk : json_chars "wordCount"
                 [Raw "w"; Raw "o"; Raw "r"; Raw "d"; Raw "C"; Raw "o"; Raw "u";
                  Raw "n"; Raw "t"])
    by (repeat (apply chars_raw; [reflexivity|reflexivity|reflexivity|]); apply chars_nil).
  pose proof (json_members_last "" "wordCount" "" n _ _ [] blank_nil Hk blank_nil He) as Hm.
  pose proof (json_object _ _ Hm) as Ho.
  pose proof (json_element_intro "" _ "" _ blank_nil Ho blank_nil) as Ht.
  cbn [append] in Ht. rewrite string_app_nil_r in Ht.
  exact Ht.
Qed.

Lemma number_to_string_or_zero (q : Qc) :
  primitive_string (js_or (VNum q) (VNum (num 0))) = number_to_string q.
Proof.
  unfold js_or. cbn [truthy].
  destruct (Qeq_bool q 0) eqn:E; cbn [negb primitive_string to_string]; [|reflexivity].
  unfold primitive_string, number_to_string. cbn [to_string]. rewrite E. reflexivity.
Qed.

Lemma add_all_spells (qs : list Qc) :
  forall a,
    add_all (VStr a) (map (fun q => js_or (VNum q) (VNum (num 0))) qs)
    = Return (VStr (a ++ concat_all (map number_to_string qs))).
Proof.
  induction qs as [|q r IH]; intros a.
  - cbn [map add_all concat_all]. rewrite string_app_nil_r. reflexivity.
  - cbn [map add_all concat_all].
    assert (E : js_add (VStr a) (js_or (VNum q) (VNum (num 0)))
                = Return (VStr (a ++ number_to_string q))).
    { rewrite <- number_to_string_or_zero. unfold js_or.
      destruct (truthy (VNum q)); reflexivity. }
    rewrite E, IH, string_app_assoc. reflexivity.
Qed.

(** X20. A word count that is written in digits as a whole number of at
    most 2^53 is read exactly: from an answer whose span is
    [{"wordCount":n}] both generators extract the object whose
    [wordCount] is the number [n].  Other literals are rounded to the
    nearest double as [JSON.parse] reads them: 9007199254740993 is read
    as 2^53, 0.1 as the double next to it, 1e400 as Infinity and 1e-400
    as 0. *)
Theorem word_counts_are_read_as_doubles (wording : string -> string) :
  (forall pre post n,
      occurs "{" pre = false -> occurs "}" post = false ->
      integer_part n -> digits_value n 0 <= 2 ^ 53 ->
      extract_payload wording
        (text_response (pre ++ dq "{'wordCount':" ++ n ++ "}" ++ post))
      = Return (VObj [("wordCount", VNum (num (digits_value n 0)))]))
  /\ extract_payload wording (text_response (dq "{'wordCount':9007199254740993}"))
     = Return (VObj [("wordCount", VNum (num (2 ^ 53)))])
  /\ extract_payload wording (text_response (dq "{'wordCount':0.1}"))
     = Return (VObj [("wordCount",
                      VNum (Q2Qc (3602879701896397 # 36028797018963968)))])
  /\ extract_payload wording (text_response (dq "{'wordCount':1e400}"))
     = Return (VObj [("wordCount", VInfinity false)])
  /\ extract_payload wording (text_response (dq "{'wordCount':-1e400}"))
     = Return (VObj [("wordCount", VInfinity true)])
  /\ extract_payload wording (text_response (dq "{'wordCount':1e-400}"))
     = Return (VObj [("wordCount", VNum (num 0))]).
Proof.
  split; [|repeat split; vm_compute; reflexivity].
  intros pre post n Hpre Hpost Hn Hb.
  assert (Hm : match_braces (pre ++ dq "{'wordCount':" ++ n ++ "}" ++ post)
               = Some (dq "{'wordCount':" ++ n ++ "}")).
  { exact (match_braces_span pre (dq "'wordCount':" ++ n) post Hpre Hpost). }
  unfold extract_payload, text_response. cbn [Block.type Block.text String.eqb Ascii.eqb Bool.eqb].
  rewrite Hm.
  rewrite (JSON_parse_complete wording _ _ (json_text_word_count n Hn)).
  rewrite decimal_value_integer; [reflexivity|].
  rewrite Z.abs_eq; [exact Hb|]. apply digits_value_nonneg. lia.
Qed.

Lemma word_counts_are_read_as_doubles_witness :
  extract_payload sample_wording (text_response (dq "so: {'wordCount':1200}."))
  = Return (VObj [("wordCount", VNum (num 1200))]).
Proof.
  apply (proj1 (word_counts_are_read_as_doubles sample_wording) "so: " "." "1200").
  - reflexivity.
  - reflexivity.
  - apply integer_digits; [|reflexivity].
    do 3 (eapply digits_more; [reflexivity|]). eapply digits_one. reflexivity.
  - vm_compute. discriminate.
Defined.

(** X21. When the first main section reports its word count as a
    non-empty string and the five others report finite numbers, and the
    assembler returns, the word count of the main page is that string
    followed by the five numbers as JavaScript prints them
    ([number_to_string]), one after the other without separator. *)
Theorem string_word_count_spells_the_numbers (city : City.t) (l : list string)
  (o : list (string * value)) (env : Env) (w w' : World) (pages : list Page.t)
  (s : string) (qs : list Qc) :
  assemblePagesFromSections city l (VObj o) env w = (Return pages, w') ->
  opt_get (opt_get (opt_get (VObj o) "main") "hero_services") "wordCount" = VStr s ->
  s <> "" ->
  map (fun k => opt_get (opt_get (opt_get (VObj o) "main") k) "wordCount") (tl main_keys)
  = map VNum qs ->
  exists main,
    nth_error pages 0 = Some main
    /\ Page.wordCount main = VStr (s ++ concat_all (map number_to_string qs)).
Proof.
  intros H Hs Hne Hq. destruct (assemble_pages _ _ _ _ _ _ _ H) as (wc & Hm & _ & -> & _).
  assert (Ho : exists ms, opt_get (VObj o) "main" = VObj ms).
  { destruct (opt_get (VObj o) "main"); try discriminate. eauto. }
  destruct Ho as (ms & Ho). unfold main_of in Hm. rewrite Ho in Hs, Hq, Hm.
  change (js_or (VObj ms) (VObj [])) with (VObj ms) in Hm.
  unfold total_words in Hm.
  change (word_counts (VObj ms) main_keys)
    with (js_or (opt_get (opt_get (VObj ms) "hero_services") "wordCount") (VNum (num 0))
            :: map (fun x => js_or x (VNum (num 0)))
                 (map (fun k => opt_get (opt_get (VObj ms) k) "wordCount") (tl main_keys)))
    in Hm.
  rewrite Hs, Hq, map_map in Hm.
  assert (Ht : js_or (VStr s) (VNum (num 0)) = VStr s).
  { unfold js_or. cbn [truthy]. destruct (String.eqb s "") eqn:E; [|reflexivity].
    apply String.eqb_eq in E. contradiction. }
  rewrite Ht, add_all_spells in Hm. injection Hm as <-.
  eexists. split; reflexivity.
Qed.

Lemma string_word_count_spells_the_numbers_witness :
  exists main,
    nth_error
      (match fst (assemblePagesFromSections springfield [] (VObj spelled_sections)
                    steady_env empty_world) with
       | Return pages => pages
       | Throw _ => []
       end) 0 = Some main
    /\ Page.wordCount main = VStr "12001000.50.11e+211e-70".
Proof.
  destruct (assemblePagesFromSections springfield [] (VObj spelled_sections)
              steady_env empty_world) as [[pages|e] w'] eqn:E;
    [|vm_compute in E; discriminate].
  destruct (string_word_count_spells_the_numbers springfield [] spelled_sections
              steady_env empty_world w' pages "1200"
              [finite64 (2001 # 2); finite64 (1 # 10); finite64 (pow10 21);
               finite64 (pow10 (-7)); num 0] E)
    as (main & Hn & Hw).
  - reflexivity.
  - discriminate.
  - reflexivity.
  - exists main. cbn [fst]. split; [exact Hn|]. rewrite Hw. vm_compute. reflexivity.
Defined.
